(** * CrossAssetModelBuilder: the build sequence and its lazy recalculation

    A shallow embedding of [ored/model/crossassetmodelbuilder.cpp].  The
    builder orchestrates collaborators (sub-builders, the market, the
    correlation matrix builder, the joint model and its calibration
    routines) whose code lives elsewhere: they are taken as a [World] of
    oracles, and every call the builder makes to them is recorded, in
    order, in the [calls] log of the builder state.  The control flow of
    the builder itself (requirements, loops, skips, calibration choice,
    tolerance gates, relinks, lazy rebuild) is transcribed from the
    source. *)

From Stdlib Require Import ZArith Floats Lia.
From stdpp Require Import base list strings gmap.

(** ** Scalars *)

(** [QuantLib::Real] is a C++ [double]. *)
Definition Real := float.

(** [fabs(e) < tol] on doubles (false as soon as one side is not a number). *)
Definition fabs_below (e tol : Real) : bool := PrimFloat.ltb (PrimFloat.abs e) tol.

(** [QuantLib::Size] is a 64-bit unsigned integer. *)
Definition Size_modulus : Z := 2 ^ 64.
Definition Size_wrap (z : Z) : Z := z mod Size_modulus.
Definition size {A} (v : list A) : Z := Size_wrap (Z.of_nat (length v)).
Definition fits_Size {A} (v : list A) : Prop := (Z.of_nat (length v) < Size_modulus)%Z.

(** [std::vector::resize(n)]: keeps the first [n] entries, pads with
    value-initialised ones. *)
Definition resize {A} (n : nat) (d : A) (v : list A) : list A :=
  take n v ++ replicate (n - length v) d.

(** ** Configuration records *)

Module CalibrationType.
(** Modelled from the spec: the enumeration is declared outside the files at
    hand; the spec gives calibration type in {None, Bootstrap, Global}. *)
Inductive t := None | Bootstrap | Global.
Definition eqb (a b : t) : bool :=
  match a, b with
  | None, None | Bootstrap, Bootstrap | Global, Global => true
  | _, _ => false
  end.
End CalibrationType.

Module ParamType.
(** Modelled from the spec: the time-shape of a parameter, constant or
    piecewise; only [Piecewise] is named by the builder. *)
Inductive t := Constant | Piecewise.
Definition eqb (a b : t) : bool :=
  match a, b with
  | Constant, Constant | Piecewise, Piecewise => true
  | _, _ => false
  end.
End ParamType.

Module CrossAssetModelTypes.
(** The asset classes this builder makes sub-models for (it fills no credit
    names: [crNames] stays empty). *)
Inductive AssetType := IR | FX | INF | EQ.
End CrossAssetModelTypes.
Export CrossAssetModelTypes.

Record Currency := { code : string }.

Definition Currency_eqb (a b : Currency) : bool := String.eqb (code a) (code b).

Module IrLgmData.
Record t := { ccy : string }.
End IrLgmData.

Module FxBsData.
Record t := {
  foreignCcy : string;
  domesticCcy : string;
  calibrationType : CalibrationType.t;
  calibrateSigma : bool;
  sigmaParamType : ParamType.t }.
End FxBsData.

Module EqBsData.
Record t := {
  eqName : string;
  currency : string;
  calibrationType : CalibrationType.t;
  calibrateSigma : bool;
  sigmaParamType : ParamType.t }.
End EqBsData.

Module InfDkData.
Record t := {
  infIndex : string;
  calibrationType : CalibrationType.t;
  calibrateA : bool;
  calibrateH : bool;
  aParamType : ParamType.t;
  hParamType : ParamType.t }.
End InfDkData.

(** A correlation quote handle, by the identity of the quote it observes. *)
Definition Quote := nat.

(** [CrossAssetModelData] together with the constructor arguments the builder
    keeps in its members: [marketGiven] is [market_ != NULL]. *)
Record CrossAssetModelData := {
  marketGiven : bool;
  irConfigs : list IrLgmData.t;
  fxConfigs : list FxBsData.t;
  eqConfigs : list EqBsData.t;
  infConfigs : list InfDkData.t;
  bootstrapTolerance : Real;
  correlations : list ((string * string) * Quote);
  configurationLgmCalibration_ : string;
  configurationFxCalibration_ : string;
  configurationEqCalibration_ : string;
  configurationInfCalibration_ : string;
  configurationFinalModel_ : string }.

(** ** Collaborator objects *)

Definition CalibrationHelper := Z.
Definition Basket := list CalibrationHelper.
Definition Curve := Z.
Definition Matrix := list (list Real).

Inductive Parametrization :=
| IrLgm1fParametrization (c : Currency)
| FxBsParametrization (c : Currency)
| EqBsParametrization (name : string) (c : Currency)
| InfDkParametrization (name : string).

(** The calibration entry points of the joint model. *)
Inductive Calibration :=
| calibrateBsVolatilitiesIterative (t : AssetType) (i : nat)
| calibrateBsVolatilitiesGlobal (t : AssetType) (i : nat)
| calibrateInfDkVolatilitiesIterative (i : nat)
| calibrateInfDkVolatilitiesGlobal (i : nat)
| calibrateInfDkReversionsIterative (i : nat)
| calibrateInfDkReversionsGlobal (i : nat)
| calibrate (i : nat).

(** The joint model: what it was constructed from and the calibrations that
    have mutated its parametrizations since. *)
Record CrossAssetModel := {
  parametrizations : list Parametrization;
  correlation : Matrix;
  calibrated : list Calibration }.

Inductive Engine :=
| AnalyticCcLgmFxOptionEngine (fxIdx : nat)
| AnalyticXAssetLgmEquityOptionEngine (eqIdx ccyIdx : nat)
| AnalyticDkCpiCapFloorEngine (infIdx : nat) (baseCPI : Real).

(** Modelled from the spec: a sub-builder (LgmBuilder, FxBsBuilder,
    EqBsBuilder, InfDkBuilder; their code is not among the files at hand)
    keeps a snapshot of the market data it used when it was built and
    requires recalibration when the live market differs from it. *)
Record SubBuilder := {
  sb_class : AssetType;
  sb_index : nat;
  sb_name : string;
  sb_configuration : string;
  sb_snapshot : Z }.

#[global] Instance AssetType_eq_dec : EqDecision AssetType.
Proof. solve_decision. Defined.
#[global] Instance SubBuilder_eq_dec : EqDecision SubBuilder.
Proof. solve_decision. Defined.

(** Modelled from the spec: the market observer (its class is not among the
    files at hand) tracks whether one of the registered correlation quotes
    has changed since the flag was last reset. *)
Record MarketObserver := {
  observed : list Quote;
  updated_ : bool }.

(** ** Calls to collaborators *)

Inductive Call :=
| NewLgmBuilder (i : nat) (ccy configuration : string)
| ParseCurrency (s : string)
| NewFxBsBuilder (i : nat) (foreignCcy configuration : string)
| NewEqBsBuilder (i : nat) (eqName configuration : string)
| NewInfDkBuilder (i : nat) (infIndex configuration : string)
| AddCorrelation (factor1 factor2 : string) (q : Quote)
| CorrelationMatrix (currencies infIndices crNames eqNames : list string)
| NewCrossAssetModel (p : list Parametrization)
| BuilderError (i : nat)
| DiscountCurve (ccy configuration : string)
| LinkTo (i : nat) (c : Curve)
| NewEngine (e : Engine)
| EngineCache (e : Engine)
| SetPricingEngine (h : CalibrationHelper) (e : Engine)
| CcyIndex (c : Currency)
| ZeroInflationIndex (name configuration : string)
| Calibrate (c : Calibration)
| LogCalibrationErrors (t : AssetType) (i : nat)
| ModelUpdate
| HasUpdated (reset : bool)
| RegisterWith (b : SubBuilder)
| UnregisterWith (b : SubBuilder).

(** What the collaborators answer.  [raises c] tells whether call [c] throws
    (missing market data, an unknown currency code, a rejected correlation
    matrix, ...); the other fields are the values they return. *)
Record World := {
  raises : Call -> bool;
  parseCurrency : string -> Currency;
  marketData : AssetType -> string -> string -> Z;
  parametrizationCurrency : AssetType -> nat -> Currency;
  builderBasket : AssetType -> nat -> Basket;
  builderError : nat -> Real;
  builderDiscountCurve : nat -> Curve;
  correlationMatrix : list string -> list string -> list string -> list string -> Matrix;
  discountCurve : string -> string -> Curve;
  baseCPI : string -> string -> Real;
  infdkName : nat -> string;
  ccyIndex : Currency -> nat;
  logCalibrationErrors : AssetType -> nat -> Real }.

(** ** Failures *)

(** One constructor per [QL_REQUIRE] of the builder, and [Thrown] for an
    exception raised inside a collaborator, which propagates unchanged.
    [IndexOutOfRange] stands for an out-of-range [operator[]]. *)
Inductive Error :=
| NoMarketGiven
| MissingIrConfigurations
| FxIrConfigurationSizeMismatch
| MissingIrParametrizations
| FxCurrencyMismatch (i : nat)
| FxDomesticCurrencyMismatch (i : nat)
| EqCurrencyNotCovered (i : nat)
| IrFxParametrizationSizeMismatch
| CalibrationErrorExceedsTolerance (t : AssetType) (i : nat)
| IndexOutOfRange
| Thrown (c : Call).

Inductive ErrorClass :=
| ConfigurationError
| CalibrationToleranceError
| OtherError.

(** Modelled from the spec: the source raises every failure through
    [QL_REQUIRE]; the taxonomy of section 7 sorts them by what they report. *)
Definition error_class (e : Error) : ErrorClass :=
  match e with
  | NoMarketGiven | MissingIrConfigurations | FxIrConfigurationSizeMismatch
  | MissingIrParametrizations | FxCurrencyMismatch _ | FxDomesticCurrencyMismatch _
  | EqCurrencyNotCovered _ | IrFxParametrizationSizeMismatch => ConfigurationError
  | CalibrationErrorExceedsTolerance _ _ => CalibrationToleranceError
  | IndexOutOfRange | Thrown _ => OtherError
  end.

Inductive Result (A : Type) :=
| Ok (a : A)
| Throw (e : Error).
Arguments Ok {A} a.
Arguments Throw {A} e.

(** ** The builder state *)

(** The public results: the model handle and the four error vectors. *)
Record Results := {
  model_ : option CrossAssetModel;
  swaptionCalibrationErrors_ : list Real;
  fxOptionCalibrationErrors_ : list Real;
  eqOptionCalibrationErrors_ : list Real;
  infCapFloorCalibrationErrors_ : list Real }.

Record Baskets := {
  swaptionBaskets_ : list Basket;
  fxOptionBaskets_ : list Basket;
  eqOptionBaskets_ : list Basket;
  infCapFloorBaskets_ : list Basket }.

(** The mutable members of [CrossAssetModelBuilder], grouped.
    [irDiscountCurves] are the relinkable discount-curve handles of the rate
    builders: a local of [buildModel] whose links live on in the rate
    parametrizations.  [observables_] is the set of objects the builder is
    registered with as an observer.  [calls] logs the calls made so far. *)
Record Builder := {
  results : Results;
  baskets : Baskets;
  subBuilders_ : list SubBuilder;
  observables_ : list SubBuilder;
  marketObserver_ : MarketObserver;
  irDiscountCurves : list Curve;
  calls : list Call }.

Definition set_results (f : Results -> Results) (b : Builder) : Builder :=
  {| results := f (results b); baskets := baskets b; subBuilders_ := subBuilders_ b;
     observables_ := observables_ b; marketObserver_ := marketObserver_ b;
     irDiscountCurves := irDiscountCurves b; calls := calls b |}.
Definition set_baskets (f : Baskets -> Baskets) (b : Builder) : Builder :=
  {| results := results b; baskets := f (baskets b); subBuilders_ := subBuilders_ b;
     observables_ := observables_ b; marketObserver_ := marketObserver_ b;
     irDiscountCurves := irDiscountCurves b; calls := calls b |}.
Definition set_subBuilders (f : list SubBuilder -> list SubBuilder) (b : Builder) : Builder :=
  {| results := results b; baskets := baskets b; subBuilders_ := f (subBuilders_ b);
     observables_ := observables_ b; marketObserver_ := marketObserver_ b;
     irDiscountCurves := irDiscountCurves b; calls := calls b |}.
Definition set_observables (f : list SubBuilder -> list SubBuilder) (b : Builder) : Builder :=
  {| results := results b; baskets := baskets b; subBuilders_ := subBuilders_ b;
     observables_ := f (observables_ b); marketObserver_ := marketObserver_ b;
     irDiscountCurves := irDiscountCurves b; calls := calls b |}.
Definition set_marketObserver (f : MarketObserver -> MarketObserver) (b : Builder) : Builder :=
  {| results := results b; baskets := baskets b; subBuilders_ := subBuilders_ b;
     observables_ := observables_ b; marketObserver_ := f (marketObserver_ b);
     irDiscountCurves := irDiscountCurves b; calls := calls b |}.
Definition set_irDiscountCurves (f : list Curve -> list Curve) (b : Builder) : Builder :=
  {| results := results b; baskets := baskets b; subBuilders_ := subBuilders_ b;
     observables_ := observables_ b; marketObserver_ := marketObserver_ b;
     irDiscountCurves := f (irDiscountCurves b); calls := calls b |}.
Definition set_calls (f : list Call -> list Call) (b : Builder) : Builder :=
  {| results := results b; baskets := baskets b; subBuilders_ := subBuilders_ b;
     observables_ := observables_ b; marketObserver_ := marketObserver_ b;
     irDiscountCurves := irDiscountCurves b; calls := f (calls b) |}.

Definition set_model (f : option CrossAssetModel -> option CrossAssetModel) (r : Results) : Results :=
  {| model_ := f (model_ r);
     swaptionCalibrationErrors_ := swaptionCalibrationErrors_ r;
     fxOptionCalibrationErrors_ := fxOptionCalibrationErrors_ r;
     eqOptionCalibrationErrors_ := eqOptionCalibrationErrors_ r;
     infCapFloorCalibrationErrors_ := infCapFloorCalibrationErrors_ r |}.

(** The error vector of an asset class. *)
Definition errors (t : AssetType) (r : Results) : list Real :=
  match t with
  | IR => swaptionCalibrationErrors_ r
  | FX => fxOptionCalibrationErrors_ r
  | EQ => eqOptionCalibrationErrors_ r
  | INF => infCapFloorCalibrationErrors_ r
  end.

Definition set_errors (t : AssetType) (f : list Real -> list Real) (r : Results) : Results :=
  {| model_ := model_ r;
     swaptionCalibrationErrors_ :=
       match t with IR => f (swaptionCalibrationErrors_ r) | _ => swaptionCalibrationErrors_ r end;
     fxOptionCalibrationErrors_ :=
       match t with FX => f (fxOptionCalibrationErrors_ r) | _ => fxOptionCalibrationErrors_ r end;
     eqOptionCalibrationErrors_ :=
       match t with EQ => f (eqOptionCalibrationErrors_ r) | _ => eqOptionCalibrationErrors_ r end;
     infCapFloorCalibrationErrors_ :=
       match t with INF => f (infCapFloorCalibrationErrors_ r) | _ => infCapFloorCalibrationErrors_ r end |}.

(** The basket vector of an asset class. *)
Definition basketsOf (t : AssetType) (b : Baskets) : list Basket :=
  match t with
  | IR => swaptionBaskets_ b
  | FX => fxOptionBaskets_ b
  | EQ => eqOptionBaskets_ b
  | INF => infCapFloorBaskets_ b
  end.

Definition set_basketsOf (t : AssetType) (f : list Basket -> list Basket) (b : Baskets) : Baskets :=
  {| swaptionBaskets_ :=
       match t with IR => f (swaptionBaskets_ b) | _ => swaptionBaskets_ b end;
     fxOptionBaskets_ :=
       match t with FX => f (fxOptionBaskets_ b) | _ => fxOptionBaskets_ b end;
     eqOptionBaskets_ :=
       match t with EQ => f (eqOptionBaskets_ b) | _ => eqOptionBaskets_ b end;
     infCapFloorBaskets_ :=
       match t with INF => f (infCapFloorBaskets_ b) | _ => infCapFloorBaskets_ b end |}.

(** ** The state-and-exception monad of the builder

    A member function is a state transformer that returns a value or throws;
    the state reached when it throws is kept, as the mutations made before a
    C++ exception are. *)

Definition M (A : Type) : Type := Builder -> Result A * Builder.

Definition ret {A} (a : A) : M A := fun st => (Ok a, st).

Definition bind {A B} (m : M A) (k : A -> M B) : M B :=
  fun st =>
    match m st with
    | (Ok a, st1) => k a st1
    | (Throw e, st1) => (Throw e, st1)
    end.

Definition throw {A} (e : Error) : M A := fun st => (Throw e, st).

Definition gets {A} (f : Builder -> A) : M A := fun st => (Ok (f st), st).

Definition modify (f : Builder -> Builder) : M unit := fun st => (Ok tt, f st).

Declare Scope builder_scope.
Delimit Scope builder_scope with builder.
Notation "x <- m ;; k" := (bind m (fun x => k))
  (at level 20, m at level 99, k at level 200, only parsing) : builder_scope.
Notation "m ;; k" := (bind m (fun _ => k))
  (at level 100, k at level 200, only parsing, right associativity) : builder_scope.
Local Open Scope builder_scope.

Definition QL_REQUIRE (condition : bool) (e : Error) : M unit :=
  if condition then ret tt else throw e.

(** [for (Size i = start; ...; i++)] over the entries of a vector. *)
Fixpoint for_each {A} (body : nat -> A -> M unit) (i : nat) (v : list A) : M unit :=
  match v with
  | [] => ret tt
  | x :: v' => body i x ;; for_each body (S i) v'
  end.

(** [v[i]] on a local vector. *)
Definition at_ {A} (v : list A) (i : nat) : M A :=
  match v !! i with
  | Some x => ret x
  | None => throw IndexOutOfRange
  end.

(** A call that cannot throw: it is only logged. *)
Definition note (c : Call) : M unit := modify (set_calls (fun l => l ++ [c])).

(** Member vectors, read and written by index. *)
Definition getBasket (t : AssetType) (i : nat) : M Basket :=
  v <- gets (fun st => basketsOf t (baskets st)) ;; at_ v i.

Definition setBasket (t : AssetType) (i : nat) (b : Basket) : M unit :=
  v <- gets (fun st => basketsOf t (baskets st)) ;;
  if bool_decide (i < length v) then
    modify (set_baskets (set_basketsOf t (fun v => <[i:=b]> v)))
  else throw IndexOutOfRange.

Definition getError (t : AssetType) (i : nat) : M Real :=
  v <- gets (fun st => errors t (results st)) ;; at_ v i.

Definition setError (t : AssetType) (i : nat) (e : Real) : M unit :=
  v <- gets (fun st => errors t (results st)) ;;
  if bool_decide (i < length v) then
    modify (set_results (set_errors t (fun v => <[i:=e]> v)))
  else throw IndexOutOfRange.

(** [irDiscountCurves[i].linkTo(c)]. *)
Definition linkTo (i : nat) (c : Curve) : M unit :=
  note (LinkTo i c) ;;
  v <- gets irDiscountCurves ;;
  if bool_decide (i < length v) then
    modify (set_irDiscountCurves (fun v => <[i:=c]> v))
  else throw IndexOutOfRange.

(** [MarketObserver::hasUpdated(reset)]: the flag, cleared when [reset]. *)
Definition hasUpdated (reset : bool) : M bool :=
  note (HasUpdated reset) ;;
  u <- gets (fun st => updated_ (marketObserver_ st)) ;;
  (if reset then
     modify (set_marketObserver (fun o => {| observed := observed o; updated_ := false |}))
   else ret tt) ;;
  ret u.

(** [MarketObserver::update()], the notification a registered correlation
    quote sends when it changes. *)
Definition quoteChanged (st : Builder) : Builder :=
  set_marketObserver (fun o => {| observed := observed o; updated_ := true |}) st.

(** Lines 140-152: the member vectors are resized to the configured counts. *)
Definition resizeVectors (config_ : CrossAssetModelData) (st : Builder) : Builder :=
  let nIr := length (irConfigs config_) in
  let nFx := length (fxConfigs config_) in
  let nEq := length (eqConfigs config_) in
  let nInf := length (infConfigs config_) in
  set_results (fun r =>
    {| model_ := model_ r;
       swaptionCalibrationErrors_ := resize nIr 0%float (swaptionCalibrationErrors_ r);
       fxOptionCalibrationErrors_ := resize nFx 0%float (fxOptionCalibrationErrors_ r);
       eqOptionCalibrationErrors_ := resize nEq 0%float (eqOptionCalibrationErrors_ r);
       infCapFloorCalibrationErrors_ := resize nInf 0%float (infCapFloorCalibrationErrors_ r) |})
  (set_baskets (fun b =>
    {| swaptionBaskets_ := resize nIr [] (swaptionBaskets_ b);
       fxOptionBaskets_ := resize nFx [] (fxOptionBaskets_ b);
       eqOptionBaskets_ := resize nEq [] (eqOptionBaskets_ b);
       infCapFloorBaskets_ := resize nInf [] (infCapFloorBaskets_ b) |}) st).

Section BuildModel.

Variable w : World.
Variable config_ : CrossAssetModelData.

(** A call that may throw. *)
Definition call (c : Call) : M unit :=
  note c ;; if raises w c then throw (Thrown c) else ret tt.

(** [subBuilders_.insert(builder)] for a builder just made from the live
    market. *)
Definition insertSubBuilder (t : AssetType) (i : nat) (name configuration : string) : M unit :=
  modify (set_subBuilders (fun s =>
    s ++ [ {| sb_class := t; sb_index := i; sb_name := name; sb_configuration := configuration;
              sb_snapshot := marketData w t name configuration |} ])).

(** *** Lines 164-176: one rate sub-builder per rate configuration *)
Definition buildIr (i : nat) (ir : IrLgmData.t) : M unit :=
  call (NewLgmBuilder i (IrLgmData.ccy ir) (configurationLgmCalibration_ config_)) ;;
  setBasket IR i (builderBasket w IR i) ;;
  modify (set_irDiscountCurves (fun v => v ++ [builderDiscountCurve w i])) ;;
  insertSubBuilder IR i (IrLgmData.ccy ir) (configurationLgmCalibration_ config_).

(** The locals [irParametrizations] (by their currency) and [currencies]
    once the loop has run: one entry per rate configuration. *)
Definition irParametrizations : list Currency :=
  imap (fun i _ => parametrizationCurrency w IR i) (irConfigs config_).
Definition currencies : list string := map IrLgmData.ccy (irConfigs config_).

(** *** Lines 186-206: one FX sub-builder per FX configuration *)
Definition buildFx (domesticCcy : Currency) (i : nat) (fx : FxBsData.t) : M unit :=
  call (ParseCurrency (FxBsData.foreignCcy fx)) ;;
  let ccy := parseCurrency w (FxBsData.foreignCcy fx) in
  call (ParseCurrency (FxBsData.domesticCcy fx)) ;;
  let domCcy := parseCurrency w (FxBsData.domesticCcy fx) in
  p <- at_ irParametrizations (i + 1) ;;
  QL_REQUIRE (String.eqb (code ccy) (code p)) (FxCurrencyMismatch i) ;;
  QL_REQUIRE (Currency_eqb domCcy domesticCcy) (FxDomesticCurrencyMismatch i) ;;
  call (NewFxBsBuilder i (FxBsData.foreignCcy fx) (configurationFxCalibration_ config_)) ;;
  setBasket FX i (builderBasket w FX i) ;;
  insertSubBuilder FX i (FxBsData.foreignCcy fx) (configurationFxCalibration_ config_).

Definition fxParametrizations : list Parametrization :=
  imap (fun i _ => FxBsParametrization (parametrizationCurrency w FX i)) (fxConfigs config_).

(** *** Lines 212-226: one equity sub-builder per equity configuration *)
Definition buildEq (i : nat) (eq : EqBsData.t) : M unit :=
  call (ParseCurrency (EqBsData.currency eq)) ;;
  let eqCcy := parseCurrency w (EqBsData.currency eq) in
  QL_REQUIRE (existsb (String.eqb (code eqCcy)) currencies) (EqCurrencyNotCovered i) ;;
  call (NewEqBsBuilder i (EqBsData.eqName eq) (configurationEqCalibration_ config_)) ;;
  setBasket EQ i (builderBasket w EQ i) ;;
  insertSubBuilder EQ i (EqBsData.eqName eq) (configurationEqCalibration_ config_).

Definition eqParametrizations : list Parametrization :=
  imap (fun i eq => EqBsParametrization (EqBsData.eqName eq) (parametrizationCurrency w EQ i))
       (eqConfigs config_).
Definition eqNames : list string := map EqBsData.eqName (eqConfigs config_).

(** *** Lines 232-243: one inflation sub-builder per inflation configuration *)
Definition buildInf (i : nat) (inf : InfDkData.t) : M unit :=
  call (NewInfDkBuilder i (InfDkData.infIndex inf) (configurationInfCalibration_ config_)) ;;
  setBasket INF i (builderBasket w INF i) ;;
  insertSubBuilder INF i (InfDkData.infIndex inf) (configurationInfCalibration_ config_).

Definition infParametrizations : list Parametrization :=
  map (fun inf => InfDkParametrization (InfDkData.infIndex inf)) (infConfigs config_).
Definition infIndices : list string := map InfDkData.infIndex (infConfigs config_).

(** Lines 245-253. *)
Definition allParametrizations : list Parametrization :=
  map IrLgm1fParametrization irParametrizations ++ fxParametrizations
    ++ eqParametrizations ++ infParametrizations.

(** *** Lines 261-280: correlation matrix and joint model *)
Definition buildCorrelationMatrix : M Matrix :=
  for_each (fun _ c => call (AddCorrelation (fst (fst c)) (snd (fst c)) (snd c)))
           0 (correlations config_) ;;
  call (CorrelationMatrix currencies infIndices [] eqNames) ;;
  ret (correlationMatrix w currencies infIndices [] eqNames).

Definition linkModel (corrMatrix : Matrix) : M unit :=
  call (NewCrossAssetModel allParametrizations) ;;
  modify (set_results (set_model (fun _ =>
    Some {| parametrizations := allParametrizations; correlation := corrMatrix;
            calibrated := [] |}))).

(** *** Lines 286-289: the rate builders report their calibration error *)
Definition collectIrError (i : nat) (_ : IrLgmData.t) : M unit :=
  call (BuilderError i) ;;
  setError IR i (builderError w i).

(** *** Lines 295-299, 345-349, 391-395, 452-456: relink the discount curves *)
Definition relink (configuration : string) (i : nat) (p : Currency) : M unit :=
  call (DiscountCurve (code p) configuration) ;;
  linkTo i (discountCurve w (code p) configuration).

Definition relinkAll (configuration : string) : M unit :=
  for_each (relink configuration) 0 irParametrizations.

(** [model_->calibrate...(...)]: the routine runs on the joint model and
    mutates its parametrizations. *)
Definition calibrateModel (c : Calibration) : M unit :=
  call (Calibrate c) ;;
  modify (set_results (set_model (fun m =>
    match m with
    | Some m => Some {| parametrizations := parametrizations m; correlation := correlation m;
                        calibrated := calibrated m ++ [c] |}
    | None => None
    end))).

Definition setPricingEngines (t : AssetType) (i : nat) (engine : Engine) : M unit :=
  basket <- getBasket t i ;;
  for_each (fun _ h => note (SetPricingEngine h engine)) 0 basket.

(** Lines 331-338, 377-384, 438-445: record the error, gate it in
    Bootstrap mode. *)
Definition recordAndGate (t : AssetType) (i : nat) (ct : CalibrationType.t) : M unit :=
  call (LogCalibrationErrors t i) ;;
  setError t i (logCalibrationErrors w t i) ;;
  if CalibrationType.eqb ct CalibrationType.Bootstrap then
    e <- getError t i ;;
    QL_REQUIRE (fabs_below e (bootstrapTolerance config_)) (CalibrationErrorExceedsTolerance t i)
  else ret tt.

(** *** Lines 305-339: FX calibration *)
Definition calibrateFx (i : nat) (fx : FxBsData.t) : M unit :=
  if CalibrationType.eqb (FxBsData.calibrationType fx) CalibrationType.None
     || negb (FxBsData.calibrateSigma fx)
  then ret tt
  else
    let engine := AnalyticCcLgmFxOptionEngine i in
    call (NewEngine engine) ;;
    note (EngineCache engine) ;;
    setPricingEngines FX i engine ;;
    (if CalibrationType.eqb (FxBsData.calibrationType fx) CalibrationType.Bootstrap
        && ParamType.eqb (FxBsData.sigmaParamType fx) ParamType.Piecewise
     then calibrateModel (calibrateBsVolatilitiesIterative FX i)
     else calibrateModel (calibrateBsVolatilitiesGlobal FX i)) ;;
    recordAndGate FX i (FxBsData.calibrationType fx).

(** *** Lines 355-385: equity calibration *)
Definition calibrateEq (i : nat) (eq : EqBsData.t) : M unit :=
  if negb (EqBsData.calibrateSigma eq)
  then ret tt
  else
    let eqCcy := parametrizationCurrency w EQ i in
    call (CcyIndex eqCcy) ;;
    let engine := AnalyticXAssetLgmEquityOptionEngine i (ccyIndex w eqCcy) in
    call (NewEngine engine) ;;
    setPricingEngines EQ i engine ;;
    (if CalibrationType.eqb (EqBsData.calibrationType eq) CalibrationType.Bootstrap
        && ParamType.eqb (EqBsData.sigmaParamType eq) ParamType.Piecewise
     then calibrateModel (calibrateBsVolatilitiesIterative EQ i)
     else calibrateModel (calibrateBsVolatilitiesGlobal EQ i)) ;;
    recordAndGate EQ i (EqBsData.calibrationType eq).

(** *** Lines 402-446: inflation calibration *)
Definition calibrateInf (i : nat) (inf : InfDkData.t) : M unit :=
  if (negb (InfDkData.calibrateA inf) && negb (InfDkData.calibrateH inf))
     || CalibrationType.eqb (InfDkData.calibrationType inf) CalibrationType.None
  then ret tt
  else
    let name := infdkName w i in
    call (ZeroInflationIndex name (configurationInfCalibration_ config_)) ;;
    let engine :=
      AnalyticDkCpiCapFloorEngine i (baseCPI w name (configurationInfCalibration_ config_)) in
    call (NewEngine engine) ;;
    setPricingEngines INF i engine ;;
    (if InfDkData.calibrateA inf && negb (InfDkData.calibrateH inf) then
       if CalibrationType.eqb (InfDkData.calibrationType inf) CalibrationType.Bootstrap
          && ParamType.eqb (InfDkData.aParamType inf) ParamType.Piecewise
       then calibrateModel (calibrateInfDkVolatilitiesIterative i)
       else calibrateModel (calibrateInfDkVolatilitiesGlobal i)
     else if negb (InfDkData.calibrateA inf) && InfDkData.calibrateH inf then
       if CalibrationType.eqb (InfDkData.calibrationType inf) CalibrationType.Bootstrap
          && ParamType.eqb (InfDkData.hParamType inf) ParamType.Piecewise
       then calibrateModel (calibrateInfDkReversionsIterative i)
       else calibrateModel (calibrateInfDkReversionsGlobal i)
     else calibrateModel (calibrate i)) ;;
    recordAndGate INF i (InfDkData.calibrationType inf).

(** *** Lines 129-138: the requirements checked before anything is built *)
Definition checkConfiguration : M unit :=
  QL_REQUIRE (marketGiven config_) NoMarketGiven ;;
  QL_REQUIRE (0 <? size (irConfigs config_))%Z MissingIrConfigurations ;;
  QL_REQUIRE (size (irConfigs config_) =? Size_wrap (size (fxConfigs config_) + 1))%Z
             FxIrConfigurationSizeMismatch.

(** *** Lines 140-243: the sub-builders, their parametrizations and baskets *)
Definition buildSubModels : M unit :=
  modify (resizeVectors config_) ;;
  modify (set_subBuilders (fun _ => [])) ;;
  modify (set_irDiscountCurves (fun _ => [])) ;;
  for_each buildIr 0 (irConfigs config_) ;;
  QL_REQUIRE (0 <? size irParametrizations)%Z MissingIrParametrizations ;;
  domesticCcy <- at_ irParametrizations 0 ;;
  for_each (buildFx domesticCcy) 0 (fxConfigs config_) ;;
  for_each buildEq 0 (eqConfigs config_) ;;
  for_each buildInf 0 (infConfigs config_).

(** Line 255, on the assembled parametrization vectors. *)
Definition checkParametrizations (fxP : list Parametrization) (irP : list Currency) : M unit :=
  QL_REQUIRE (size fxP =? Size_wrap (size irP - 1))%Z IrFxParametrizationSizeMismatch.

(** *** Lines 255-461: joint model and calibration cascade *)
Definition assembleAndCalibrate : M unit :=
  checkParametrizations fxParametrizations irParametrizations ;;
  corrMatrix <- buildCorrelationMatrix ;;
  linkModel corrMatrix ;;
  for_each collectIrError 0 (irConfigs config_) ;;
  relinkAll (configurationFxCalibration_ config_) ;;
  for_each calibrateFx 0 (fxConfigs config_) ;;
  relinkAll (configurationEqCalibration_ config_) ;;
  for_each calibrateEq 0 (eqConfigs config_) ;;
  relinkAll (configurationFinalModel_ config_) ;;
  for_each calibrateInf 0 (infConfigs config_) ;;
  relinkAll (configurationFinalModel_ config_) ;;
  note ModelUpdate.

(** *** [CrossAssetModelBuilder::buildModel] *)
Definition buildModel : M unit :=
  checkConfiguration ;;
  buildSubModels ;;
  assembleAndCalibrate.

(** *** Lines 97-125: registration and the lazy rebuild *)

Definition unregisterWithSubBuilders : M unit :=
  bs <- gets subBuilders_ ;;
  for_each (fun _ b =>
              note (UnregisterWith b) ;;
              modify (set_observables (filter (fun b' => b' <> b))))
           0 bs.

Definition registerWithSubBuilders : M unit :=
  bs <- gets subBuilders_ ;;
  for_each (fun _ b =>
              note (RegisterWith b) ;;
              modify (set_observables (fun o => if bool_decide (b ∈ o) then o else o ++ [b])))
           0 bs.

(** Modelled from the spec: [b->requiresRecalibration()] of a sub-builder,
    true when the market data it used has changed since it was built. *)
Definition subBuilderRequiresRecalibration (b : SubBuilder) : bool :=
  negb (sb_snapshot b =? marketData w (sb_class b) (sb_name b) (sb_configuration b))%Z.

(** [CrossAssetModelBuilder::requiresRecalibration]: the loop returns at
    the first sub-builder that requires it; the observer is asked only
    when none does. *)
Definition requiresRecalibration : M bool :=
  bs <- gets subBuilders_ ;;
  if existsb subBuilderRequiresRecalibration bs then ret true
  else hasUpdated false.

Definition performCalculations : M unit :=
  r <- requiresRecalibration ;;
  if r then
    hasUpdated true ;;
    unregisterWithSubBuilders ;;
    buildModel ;;
    registerWithSubBuilders
  else ret tt.

(** Modelled from the spec: [calculate()] belongs to the lazy-object base
    class, which is not among the files at hand; the spec has staleness
    checked at every access, so it runs [performCalculations]. *)
Definition calculate : M unit := performCalculations.

(** *** Lines 75-95: the public results *)
Definition model : M (option CrossAssetModel) :=
  calculate ;; gets (fun st => model_ (results st)).
Definition swaptionCalibrationErrors : M (list Real) :=
  calculate ;; gets (fun st => swaptionCalibrationErrors_ (results st)).
Definition fxOptionCalibrationErrors : M (list Real) :=
  calculate ;; gets (fun st => fxOptionCalibrationErrors_ (results st)).
Definition eqOptionCalibrationErrors : M (list Real) :=
  calculate ;; gets (fun st => eqOptionCalibrationErrors_ (results st)).
Definition infCapFloorCalibrationErrors : M (list Real) :=
  calculate ;; gets (fun st => infCapFloorCalibrationErrors_ (results st)).

(** *** Lines 52-73: the constructor *)
Definition constructor : M unit :=
  buildModel ;;
  registerWithSubBuilders ;;
  modify (set_marketObserver (fun _ =>
    {| observed := map snd (correlations config_); updated_ := true |})) ;;
  hasUpdated true ;;
  ret tt.

End BuildModel.

(** * Reasoning about member functions *)

(** ** Relations every step of a member function maintains *)

(** [preserves R m]: whatever [m] returns or throws, the state it leaves is
    related by [R] to the one it started from. *)
Definition preserves {A} (R : relation Builder) (m : M A) : Prop :=
  forall st, R st (snd (m st)).

Section Preserves.

Context (R : relation Builder) `{!PreOrder R}.

Lemma preserves_ret {A} (a : A) : preserves R (ret a).
Proof. intros st. simpl. reflexivity. Qed.

Lemma preserves_throw {A} (e : Error) : preserves R (throw (A:=A) e).
Proof. intros st. simpl. reflexivity. Qed.

Lemma preserves_gets {A} (f : Builder -> A) : preserves R (gets f).
Proof. intros st. simpl. reflexivity. Qed.

Lemma preserves_modify (f : Builder -> Builder) :
  (forall st, R st (f st)) -> preserves R (modify f).
Proof. intros H st. simpl. apply H. Qed.

Lemma preserves_bind {A B} (m : M A) (k : A -> M B) :
  preserves R m -> (forall a, preserves R (k a)) -> preserves R (bind m k).
Proof.
  intros Hm Hk st. unfold bind. specialize (Hm st).
  destruct (m st) as [[a|e] st1]; simpl in *; [|assumption].
  etransitivity; [eassumption|apply Hk].
Qed.

Lemma preserves_QL_REQUIRE (c : bool) (e : Error) : preserves R (QL_REQUIRE c e).
Proof. destruct c; [apply preserves_ret|apply preserves_throw]. Qed.

Lemma preserves_at {A} (v : list A) (i : nat) : preserves R (at_ v i).
Proof. unfold at_. destruct (v !! i); [apply preserves_ret|apply preserves_throw]. Qed.

Lemma preserves_for_each {A} (body : nat -> A -> M unit) (v : list A) :
  (forall i x, preserves R (body i x)) -> forall i, preserves R (for_each body i v).
Proof.
  intros Hb. induction v as [|x v IH]; intros i; simpl.
  - apply preserves_ret.
  - apply preserves_bind; [apply Hb|intros _; apply IH].
Qed.

Lemma preserves_if {A} (c : bool) (m1 m2 : M A) :
  preserves R m1 -> preserves R m2 -> preserves R (if c then m1 else m2).
Proof. destruct c; auto. Qed.

End Preserves.

(** Breaks a member function into its primitive steps; what is left is one
    goal [R st (f st)] per state update. *)
Ltac preserves_steps :=
  repeat
    match goal with
    | |- preserves ?R _ =>
        first
          [ apply (preserves_ret R)
          | apply (preserves_throw R)
          | apply (preserves_gets R)
          | apply (preserves_QL_REQUIRE R)
          | apply (preserves_at R)
          | apply (preserves_if R)
          | apply (preserves_bind R); [|intros ?]
          | apply (preserves_for_each R); intros ? ?
          | apply (preserves_modify R); intros ? ]
    end.

(** ** Pre- and postconditions *)

(** [hoare P m Q E]: started in a state satisfying [P], the function
    returns [a] in a state satisfying [Q a] or throws [e] in a state
    satisfying [E e]. *)
Definition hoare {A} (P : Builder -> Prop) (m : M A)
    (Q : A -> Builder -> Prop) (E : Error -> Builder -> Prop) : Prop :=
  forall st, P st ->
    match m st with
    | (Ok a, st') => Q a st'
    | (Throw e, st') => E e st'
    end.

Lemma hoare_bind {A B} P (m : M A) (k : A -> M B) (Rm : A -> Builder -> Prop) Q E :
  hoare P m Rm E -> (forall a, hoare (Rm a) (k a) Q E) -> hoare P (bind m k) Q E.
Proof.
  intros Hm Hk st HP. unfold bind. specialize (Hm st HP).
  destruct (m st) as [[a|e] st1]; [|assumption].
  apply (Hk a st1 Hm).
Qed.

Lemma hoare_weaken {A} (P P' : Builder -> Prop) (m : M A) (Q Q' : A -> Builder -> Prop)
    (E E' : Error -> Builder -> Prop) :
  hoare P' m Q' E' ->
  (forall st, P st -> P' st) ->
  (forall a st, Q' a st -> Q a st) ->
  (forall e st, E' e st -> E e st) ->
  hoare P m Q E.
Proof.
  intros H HP HQ HE st Hst. specialize (H st (HP st Hst)).
  destruct (m st) as [[a|e] st1]; auto.
Qed.

Lemma hoare_ret {A} (P : Builder -> Prop) (a : A) Q E :
  (forall st, P st -> Q a st) -> hoare P (ret a) Q E.
Proof. intros H st HP. simpl. auto. Qed.

Lemma hoare_for_each {A} (I : nat -> Builder -> Prop) E (body : nat -> A -> M unit) (v : list A) :
  forall k,
  (forall j x, v !! j = Some x ->
     hoare (I (k + j)) (body (k + j) x) (fun _ => I (S (k + j))) E) ->
  hoare (I k) (for_each body k v) (fun _ => I (k + length v)) E.
Proof.
  induction v as [|x v IH]; intros k Hb; simpl.
  - apply hoare_ret. intros st. by rewrite Nat.add_0_r.
  - eapply hoare_bind.
    + specialize (Hb 0 x eq_refl). rewrite Nat.add_0_r in Hb. exact Hb.
    + intros u. eapply hoare_weaken; [apply (IH (S k))| | |]; simpl; auto.
      * intros j y Hj. specialize (Hb (S j) y Hj).
        replace (k + S j) with (S (k + j)) in Hb by lia. exact Hb.
      * intros u' st Hst. replace (k + S (length v)) with (S (k + length v)) by lia.
        exact Hst.
Qed.

(** The outcome of a function as a pre/postcondition pair with the initial
    state fixed. *)
Lemma hoare_run {A} (P : Builder -> Prop) (m : M A) Q E st :
  hoare P m Q E -> P st ->
  match m st with
  | (Ok a, st') => Q a st'
  | (Throw e, st') => E e st'
  end.
Proof. intros H HP. exact (H st HP). Qed.

(** ** Three maintained relations *)

(** The call log only grows, by calls that satisfy [P]. *)
Definition calls_grow (P : Call -> Prop) (st st' : Builder) : Prop :=
  exists tr, calls st' = calls st ++ tr /\ Forall P tr.

#[global] Instance calls_grow_preorder (P : Call -> Prop) : PreOrder (calls_grow P).
Proof.
  split.
  - intros st. exists []. split; [by rewrite app_nil_r|constructor].
  - intros st1 st2 st3 (tr1 & H1 & F1) (tr2 & H2 & F2).
    exists (tr1 ++ tr2). split; [by rewrite H2, H1, app_assoc|by apply Forall_app].
Qed.

(** A property of the state that, once true, stays true. *)
Definition keeps (P : Builder -> Prop) (st st' : Builder) : Prop := P st -> P st'.

#[global] Instance keeps_preorder (P : Builder -> Prop) : PreOrder (keeps P).
Proof. split; [intros st; red; auto|intros st1 st2 st3 H1 H2 H; auto]. Qed.

(** A component of the state is left as it was. *)
Definition unchanged {A} (f : Builder -> A) (st st' : Builder) : Prop := f st' = f st.

#[global] Instance unchanged_preorder {A} (f : Builder -> A) : PreOrder (unchanged f).
Proof. split; [by intros st|intros st1 st2 st3 H1 H2; red; by rewrite H2]. Qed.

Ltac calls_grow_leaf :=
  first
    [ exists []; split; [by rewrite app_nil_r|by constructor]
    | eexists [_]; split; [reflexivity|by repeat constructor] ].

(** Calls by kind. *)
Definition isObserverCall (c : Call) : bool :=
  match c with HasUpdated _ => true | _ => false end.
Definition isRegistration (c : Call) : bool :=
  match c with RegisterWith _ | UnregisterWith _ => true | _ => false end.
Definition isModelConstruction (c : Call) : bool :=
  match c with NewCrossAssetModel _ => true | _ => false end.
Definition isCalibration (c : Call) : bool :=
  match c with Calibrate _ => true | _ => false end.

(** A sub-builder made from the live market does not require recalibration. *)
Definition allClean (w : World) (st : Builder) : Prop :=
  existsb (subBuilderRequiresRecalibration w) (subBuilders_ st) = false.

Ltac unfold_members :=
  unfold buildModel, checkConfiguration, buildSubModels, assembleAndCalibrate,
    checkParametrizations, buildCorrelationMatrix, linkModel, collectIrError, relinkAll,
    relink, calibrateFx, calibrateEq, calibrateInf, recordAndGate, setPricingEngines,
    calibrateModel, buildIr, buildFx, buildEq, buildInf, insertSubBuilder, call, note,
    linkTo, setError, getError, setBasket, getBasket, hasUpdated,
    unregisterWithSubBuilders, registerWithSubBuilders.

Ltac frame_steps := unfold_members; repeat (preserves_steps; cbv zeta).

Section BuildModelFrames.

Variable w : World.
Variable config_ : CrossAssetModelData.

(** [buildModel] asks the observer nothing and registers nothing. *)
Lemma buildModel_calls_grow :
  preserves (calls_grow (fun c => isObserverCall c = false /\ isRegistration c = false))
            (buildModel w config_).
Proof. frame_steps; calls_grow_leaf. Qed.

(** [buildModel] does not touch the market observer. *)
Lemma buildModel_observer :
  preserves (unchanged marketObserver_) (buildModel w config_).
Proof. frame_steps; reflexivity. Qed.

(** Before the joint model is constructed no calibration routine runs,
    and the sub-model stage does not construct the joint model. *)
Lemma buildSubModels_calls_grow :
  preserves (calls_grow (fun c => isModelConstruction c = false /\ isCalibration c = false))
            (buildSubModels w config_).
Proof. frame_steps; calls_grow_leaf. Qed.

Lemma registerWithSubBuilders_frame :
  preserves (unchanged (fun st => (results st, subBuilders_ st, marketObserver_ st)))
            (registerWithSubBuilders).
Proof. frame_steps; reflexivity. Qed.

Lemma unregisterWithSubBuilders_frame :
  preserves (unchanged (fun st => (results st, subBuilders_ st, marketObserver_ st)))
            (unregisterWithSubBuilders).
Proof. frame_steps; reflexivity. Qed.

End BuildModelFrames.

(** * The requirements on the factor counts *)

Lemma size_fits {A} (v : list A) : fits_Size v -> size v = Z.of_nat (length v).
Proof.
  unfold fits_Size, size, Size_wrap. intros H.
  apply Z.mod_small. lia.
Qed.

Lemma run_bind {A B} (m : M A) (k : A -> M B) st :
  bind m k st =
  match m st with
  | (Ok a, st1) => k a st1
  | (Throw e, st1) => (Throw e, st1)
  end.
Proof. reflexivity. Qed.

Lemma run_bind_modify {B} (f : Builder -> Builder) (k : unit -> M B) st :
  bind (modify f) k st = k tt (f st).
Proof. reflexivity. Qed.

Lemma preserves_impl {A} (R R' : relation Builder) (m : M A) :
  (forall st st', R st st' -> R' st st') -> preserves R m -> preserves R' m.
Proof. intros H Hm st. apply H, Hm. Qed.

(** A property that holds once [m] has run and that the rest maintains holds
    at the end. *)
Lemma snd_bind_stable {A B} (Phi : Builder -> Prop) (m : M A) (k : A -> M B) st :
  Phi (snd (m st)) -> (forall a, preserves (keeps Phi) (k a)) -> Phi (snd (bind m k st)).
Proof.
  intros Hm Hk. unfold bind. destruct (m st) as [[a|e] st1]; simpl in *; [|done].
  by apply Hk.
Qed.

(** "The log starts with [pre]" is maintained by whatever only appends. *)
Lemma keeps_prefix {A} (pre : list Call) (P : Call -> Prop) (m : M A) :
  preserves (calls_grow P) m ->
  preserves (keeps (fun s => exists tr, calls s = pre ++ tr)) m.
Proof.
  apply preserves_impl. intros s s' (tr' & Htr' & _) (tr & Htr).
  exists (tr ++ tr'). by rewrite Htr', Htr, <- app_assoc.
Qed.

Section FactorCounts.

Variable w : World.
Variable config_ : CrossAssetModelData.
Hypothesis fits_ir : fits_Size (irConfigs config_).
Hypothesis fits_fx : fits_Size (fxConfigs config_).

Local Open Scope Z_scope.

Let nIr : Z := Z.of_nat (length (irConfigs config_)).
Let nFx : Z := Z.of_nat (length (fxConfigs config_)).

(** The requirements of lines 129-138 pass exactly on consistent counts. *)
Lemma checkConfiguration_run st :
  checkConfiguration config_ st =
  if marketGiven config_ then
    if 0 <? nIr then
      if nFx =? nIr - 1 then (Ok tt, st) else (Throw FxIrConfigurationSizeMismatch, st)
    else (Throw MissingIrConfigurations, st)
  else (Throw NoMarketGiven, st).
Proof.
  unfold checkConfiguration. rewrite !run_bind.
  rewrite (size_fits _ fits_ir), (size_fits _ fits_fx). fold nIr nFx.
  destruct (marketGiven config_); [|reflexivity]. simpl.
  destruct (0 <? nIr) eqn:Hir; [|reflexivity]. simpl.
  assert (Hfx : 0 <= nFx < Size_modulus) by (unfold fits_Size in fits_fx; subst nFx; lia).
  assert (Hir' : 0 < nIr < Size_modulus) by (unfold fits_Size in fits_ir; subst nIr; lia).
  unfold Size_wrap.
  destruct (Z.eq_dec (nFx + 1) Size_modulus) as [Hmax|Hmax].
  - rewrite Hmax, Z.mod_same by (unfold Size_modulus; lia).
    destruct (nIr =? 0) eqn:H0; [lia|].
    destruct (nFx =? nIr - 1) eqn:H1; [lia|reflexivity].
  - rewrite Z.mod_small by lia.
    destruct (nIr =? nFx + 1) eqn:H0, (nFx =? nIr - 1) eqn:H1; try reflexivity; lia.
Qed.

(** The requirement of line 255 on the assembled vectors. *)
Lemma checkParametrizations_run st :
  irConfigs config_ <> [] ->
  checkParametrizations (fxParametrizations w config_) (irParametrizations w config_) st =
  if nFx =? nIr - 1 then (Ok tt, st) else (Throw IrFxParametrizationSizeMismatch, st).
Proof.
  intros Hne. unfold checkParametrizations, fxParametrizations, irParametrizations, size.
  rewrite !length_imap. fold nIr nFx.
  assert (Hfx : 0 <= nFx < Size_modulus) by (unfold fits_Size in fits_fx; subst nFx; lia).
  assert (Hir' : 0 < nIr < Size_modulus).
  { unfold fits_Size in fits_ir. subst nIr.
    destruct (irConfigs config_); [done|cbn [length] in *; lia]. }
  unfold Size_wrap. rewrite !(Z.mod_small nFx), !(Z.mod_small nIr), Z.mod_small by lia.
  destruct (nFx =? nIr - 1); reflexivity.
Qed.

(** On inconsistent counts the build stops at its first lines. *)
Lemma buildModel_count_mismatch st :
  nFx <> nIr - 1 ->
  exists e, buildModel w config_ st = (Throw e, st) /\ error_class e = ConfigurationError.
Proof.
  intros Hne. unfold buildModel. rewrite run_bind, checkConfiguration_run.
  destruct (marketGiven config_); [|by eexists].
  destruct (0 <? nIr); [|by eexists].
  destruct (nFx =? nIr - 1) eqn:H; [lia|by eexists].
Qed.

Lemma assembleAndCalibrate_count_mismatch st :
  nFx <> nIr - 1 -> irConfigs config_ <> [] ->
  assembleAndCalibrate w config_ st = (Throw IrFxParametrizationSizeMismatch, st).
Proof.
  intros Hne Hir. unfold assembleAndCalibrate.
  rewrite run_bind, checkParametrizations_run by done.
  destruct (nFx =? nIr - 1) eqn:H; [lia|reflexivity].
Qed.

(** On consistent counts the build goes on to construct the first rate
    sub-builder. *)
Lemma buildModel_count_ok st :
  nFx = nIr - 1 -> marketGiven config_ = true ->
  exists ir rest tr,
    irConfigs config_ = ir :: rest /\
    calls (snd (buildModel w config_ st)) =
      calls st ++ NewLgmBuilder 0 (IrLgmData.ccy ir) (configurationLgmCalibration_ config_) :: tr.
Proof.
  intros Heq Hm.
  assert (Hex : exists ir rest, irConfigs config_ = ir :: rest).
  { subst nIr nFx. destruct (irConfigs config_) as [|ir rest]; [cbn [length] in Heq; lia|eauto]. }
  destruct Hex as (ir & rest & Hirs).
  exists ir, rest.
  set (c := NewLgmBuilder 0 (IrLgmData.ccy ir) (configurationLgmCalibration_ config_)).
  cut (exists tr, calls (snd (buildModel w config_ st)) = (calls st ++ [c]) ++ tr).
  { intros (tr & Htr). exists tr. split; [done|]. by rewrite Htr, <- app_assoc. }
  assert (Hstable : forall A (m : M A), preserves (calls_grow (fun _ => True)) m ->
            preserves (keeps (fun s => exists tr, calls s = (calls st ++ [c]) ++ tr)) m)
    by (intros A m; apply keeps_prefix).
  unfold buildModel. rewrite run_bind, checkConfiguration_run, Hm.
  replace (0 <? nIr) with true
    by (symmetry; apply Z.ltb_lt; subst nIr; rewrite Hirs; cbn [length]; lia).
  replace (nFx =? nIr - 1) with true by (symmetry; apply Z.eqb_eq; lia).
  apply snd_bind_stable;
    [|intros; apply Hstable; frame_steps; calls_grow_leaf].
  unfold buildSubModels. rewrite Hirs, !run_bind_modify.
  apply snd_bind_stable;
    [|intros; apply Hstable; frame_steps; calls_grow_leaf].
  cbn [for_each].
  apply snd_bind_stable;
    [|intros; apply Hstable; frame_steps; calls_grow_leaf].
  unfold buildIr.
  apply snd_bind_stable;
    [|intros; apply Hstable; frame_steps; calls_grow_leaf].
  unfold call, note. rewrite run_bind. cbn [modify]. fold c.
  destruct (raises w c); simpl; exists []; by rewrite app_nil_r.
Qed.

End FactorCounts.


(** * Running the primitive steps *)

(** The state with [tr] appended to its call log. *)
Definition logged (tr : list Call) (st : Builder) : Builder :=
  set_calls (fun l => l ++ tr) st.

Lemma logged_nil st : logged [] st = st.
Proof. destruct st. unfold logged, set_calls. simpl. by rewrite app_nil_r. Qed.

Lemma logged_logged tr1 tr2 st : logged tr2 (logged tr1 st) = logged (tr1 ++ tr2) st.
Proof. unfold logged, set_calls. simpl. by rewrite <- app_assoc. Qed.

Lemma note_run c st : note c st = (Ok tt, logged [c] st).
Proof. reflexivity. Qed.

Lemma call_run w c st :
  call w c st = if raises w c then (Throw (Thrown c), logged [c] st) else (Ok tt, logged [c] st).
Proof. unfold call. rewrite run_bind, note_run. by destruct (raises w c). Qed.

Lemma for_each_note_run {A} (f : A -> Call) (v : list A) i st :
  for_each (fun _ x => note (f x)) i v st = (Ok tt, logged (map f v) st).
Proof.
  revert i st. induction v as [|x v IH]; intros i st; simpl.
  - by rewrite logged_nil.
  - rewrite run_bind, note_run, IH, logged_logged. reflexivity.
Qed.

Lemma at_run {A} (v : list A) i st :
  at_ v i st = match v !! i with Some x => (Ok x, st) | None => (Throw IndexOutOfRange, st) end.
Proof. unfold at_. by destruct (v !! i). Qed.

Lemma setPricingEngines_run t i e st :
  setPricingEngines t i e st =
  match basketsOf t (baskets st) !! i with
  | Some basket => (Ok tt, logged (map (fun h => SetPricingEngine h e) basket) st)
  | None => (Throw IndexOutOfRange, st)
  end.
Proof.
  unfold setPricingEngines, getBasket. rewrite !run_bind. cbn [gets].
  rewrite at_run. destruct (basketsOf t (baskets st) !! i); [|reflexivity].
  apply for_each_note_run.
Qed.

Lemma setError_run t i e st :
  setError t i e st =
  if bool_decide (i < length (errors t (results st))) then
    (Ok tt, set_results (set_errors t (fun v => <[i:=e]> v)) st)
  else (Throw IndexOutOfRange, st).
Proof.
  unfold setError. rewrite run_bind. cbn [gets].
  by destruct (bool_decide (i < length (errors t (results st)))).
Qed.

Lemma getError_run t i st :
  getError t i st =
  match errors t (results st) !! i with
  | Some e => (Ok e, st)
  | None => (Throw IndexOutOfRange, st)
  end.
Proof. unfold getError. rewrite run_bind. cbn [gets]. apply at_run. Qed.

Lemma errors_set_errors t f r : errors t (set_errors t f r) = f (errors t r).
Proof. by destruct t. Qed.

Lemma errors_set_errors_ne t t' f r : t <> t' -> errors t' (set_errors t f r) = errors t' r.
Proof. by destruct t, t'. Qed.

Lemma errors_set_model t f r : errors t (set_model f r) = errors t r.
Proof. by destruct t. Qed.

(** The joint model after one more calibration routine has run on it. *)
Definition addCalibration (c : Calibration) (m : option CrossAssetModel) : option CrossAssetModel :=
  match m with
  | Some m => Some {| parametrizations := parametrizations m; correlation := correlation m;
                      calibrated := calibrated m ++ [c] |}
  | None => None
  end.

Lemma calibrateModel_run w c st :
  calibrateModel w c st =
  if raises w (Calibrate c) then (Throw (Thrown (Calibrate c)), logged [Calibrate c] st)
  else (Ok tt, set_results (set_model (addCalibration c)) (logged [Calibrate c] st)).
Proof.
  unfold calibrateModel. rewrite run_bind, call_run.
  by destruct (raises w (Calibrate c)).
Qed.

(** What [recordAndGate] does, case by case. *)
Lemma recordAndGate_run w config_ t i ct st :
  recordAndGate w config_ t i ct st =
  let c := LogCalibrationErrors t i in
  let e := logCalibrationErrors w t i in
  if raises w c then (Throw (Thrown c), logged [c] st)
  else if bool_decide (i < length (errors t (results st))) then
    let st' := set_results (set_errors t (fun v => <[i:=e]> v)) (logged [c] st) in
    if CalibrationType.eqb ct CalibrationType.Bootstrap then
      if fabs_below e (bootstrapTolerance config_) then (Ok tt, st')
      else (Throw (CalibrationErrorExceedsTolerance t i), st')
    else (Ok tt, st')
  else (Throw IndexOutOfRange, logged [c] st).
Proof.
  unfold recordAndGate. cbv zeta. rewrite run_bind, call_run.
  destruct (raises w (LogCalibrationErrors t i)); [reflexivity|].
  rewrite run_bind, setError_run. cbn [logged set_calls results].
  destruct (bool_decide (i < length (errors t (results st)))) eqn:Hi; [|reflexivity].
  destruct (CalibrationType.eqb ct CalibrationType.Bootstrap); [|reflexivity].
  rewrite run_bind, getError_run. cbn [set_results results].
  rewrite errors_set_errors, list_lookup_insert_eq by (by apply bool_decide_eq_true in Hi).
  unfold QL_REQUIRE.
  by destruct (fabs_below (logCalibrationErrors w t i) (bootstrapTolerance config_)).
Qed.


(** * The calls each stage is expected to make

    Written from the description of the cascade, not from the builder: the
    lemmas below compare what the builder logs with these lists. *)

Section ExpectedCalls.

Variable w : World.
Variable config_ : CrossAssetModelData.

(** Volatility calibration of an FX or equity factor: iterative when the
    type is Bootstrap and the volatility is piecewise, global otherwise. *)
Definition bsRoutine (t : AssetType) (i : nat) (ct : CalibrationType.t) (pt : ParamType.t)
    : Calibration :=
  match ct, pt with
  | CalibrationType.Bootstrap, ParamType.Piecewise => calibrateBsVolatilitiesIterative t i
  | _, _ => calibrateBsVolatilitiesGlobal t i
  end.

(** Inflation: volatility only, reversion only, or both in one joint fit. *)
Definition infRoutine (i : nat) (inf : InfDkData.t) : Calibration :=
  match InfDkData.calibrateA inf, InfDkData.calibrateH inf with
  | true, false =>
      match InfDkData.calibrationType inf, InfDkData.aParamType inf with
      | CalibrationType.Bootstrap, ParamType.Piecewise => calibrateInfDkVolatilitiesIterative i
      | _, _ => calibrateInfDkVolatilitiesGlobal i
      end
  | false, true =>
      match InfDkData.calibrationType inf, InfDkData.hParamType inf with
      | CalibrationType.Bootstrap, ParamType.Piecewise => calibrateInfDkReversionsIterative i
      | _, _ => calibrateInfDkReversionsGlobal i
      end
  | _, _ => calibrate i
  end.

Definition fxEngine (i : nat) : Engine := AnalyticCcLgmFxOptionEngine i.
Definition eqEngine (i : nat) : Engine :=
  AnalyticXAssetLgmEquityOptionEngine i (ccyIndex w (parametrizationCurrency w EQ i)).
Definition infEngine (i : nat) : Engine :=
  AnalyticDkCpiCapFloorEngine i
    (baseCPI w (infdkName w i) (configurationInfCalibration_ config_)).

(** An FX factor is calibrated unless its type is None or it does not ask
    for its volatility to be fitted. *)
Definition fxCalibrated (fx : FxBsData.t) : bool :=
  match FxBsData.calibrationType fx with
  | CalibrationType.None => false
  | _ => FxBsData.calibrateSigma fx
  end.

(** An equity factor is calibrated when it asks for its volatility to be
    fitted. *)
Definition eqCalibrated (eq : EqBsData.t) : bool := EqBsData.calibrateSigma eq.

(** An inflation factor is calibrated unless its type is None or it asks
    for neither volatility nor reversion. *)
Definition infCalibrated (inf : InfDkData.t) : bool :=
  match InfDkData.calibrationType inf with
  | CalibrationType.None => false
  | _ => InfDkData.calibrateA inf || InfDkData.calibrateH inf
  end.

Definition fxFactorCalls (basket : Basket) (i : nat) (fx : FxBsData.t) : list Call :=
  if fxCalibrated fx then
    [NewEngine (fxEngine i); EngineCache (fxEngine i)]
      ++ map (fun h => SetPricingEngine h (fxEngine i)) basket
      ++ [Calibrate (bsRoutine FX i (FxBsData.calibrationType fx) (FxBsData.sigmaParamType fx));
          LogCalibrationErrors FX i]
  else [].

Definition eqFactorCalls (basket : Basket) (i : nat) (eq : EqBsData.t) : list Call :=
  if eqCalibrated eq then
    [CcyIndex (parametrizationCurrency w EQ i); NewEngine (eqEngine i)]
      ++ map (fun h => SetPricingEngine h (eqEngine i)) basket
      ++ [Calibrate (bsRoutine EQ i (EqBsData.calibrationType eq) (EqBsData.sigmaParamType eq));
          LogCalibrationErrors EQ i]
  else [].

Definition infFactorCalls (basket : Basket) (i : nat) (inf : InfDkData.t) : list Call :=
  if infCalibrated inf then
    [ZeroInflationIndex (infdkName w i) (configurationInfCalibration_ config_);
     NewEngine (infEngine i)]
      ++ map (fun h => SetPricingEngine h (infEngine i)) basket
      ++ [Calibrate (infRoutine i inf); LogCalibrationErrors INF i]
  else [].

(** The results after factor [i] of class [t] has been calibrated by [c]
    with residual [e]. *)
Definition calibratedResults (t : AssetType) (i : nat) (c : Calibration) (e : Real)
    (r : Results) : Results :=
  set_errors t (fun v => <[i:=e]> v) (set_model (addCalibration c) r).

(** The tolerance gate: applied in Bootstrap mode only. *)
Definition gatePasses (ct : CalibrationType.t) (e : Real) : bool :=
  match ct with
  | CalibrationType.Bootstrap => fabs_below e (bootstrapTolerance config_)
  | _ => true
  end.

(** What a calibration stage does with one factor, in every outcome: when
    it returns, the factor was either skipped and nothing changed, or
    calibrated by routine [c], its residual recorded and within the gate;
    when it throws a tolerance error, it is for this factor, in Bootstrap
    mode, with the recorded residual outside the gate. *)
Definition factorOutcome (t : AssetType) (i : nat) (isCalibrated : bool)
    (ct : CalibrationType.t) (c : Calibration) (factorCalls : Basket -> list Call)
    (st : Builder) (out : Result unit * Builder) : Prop :=
  let e := logCalibrationErrors w t i in
  match out with
  | (Ok _, st') =>
      if isCalibrated then
        exists basket,
          basketsOf t (baskets st) !! i = Some basket /\
          calls st' = calls st ++ factorCalls basket /\
          results st' = calibratedResults t i c e (results st) /\
          baskets st' = baskets st /\
          i < length (errors t (results st)) /\
          gatePasses ct e = true
      else st' = st
  | (Throw err, st') =>
      isCalibrated = true /\
      baskets st' = baskets st /\
      exists tr, calls st' = calls st ++ tr /\
      (forall c', In (Calibrate c') tr -> c' = c) /\
      forall t' j, err = CalibrationErrorExceedsTolerance t' j ->
        t' = t /\ j = i /\ ct = CalibrationType.Bootstrap /\
        errors t (results st') !! i = Some e /\
        fabs_below e (bootstrapTolerance config_) = false
  end.

End ExpectedCalls.


(** * One factor of a calibration stage *)

Section Factors.

Variable w : World.
Variable config_ : CrossAssetModelData.

Lemma bsRoutine_eq t i ct pt :
  (if CalibrationType.eqb ct CalibrationType.Bootstrap && ParamType.eqb pt ParamType.Piecewise
   then calibrateBsVolatilitiesIterative t i
   else calibrateBsVolatilitiesGlobal t i) = bsRoutine t i ct pt.
Proof. by destruct ct, pt. Qed.

(** Pushes the choice of routine inside the call. *)
Lemma if_calibrateModel (b : bool) (c1 c2 : Calibration) :
  (if b then calibrateModel w c1 else calibrateModel w c2)
  = calibrateModel w (if b then c1 else c2).
Proof. by destruct b. Qed.

(** The common tail of the three stages: engines on the basket, the
    routine, the record and the gate. *)
Definition calibrateTail (t : AssetType) (i : nat) (engine : Engine) (c : Calibration)
    (ct : CalibrationType.t) : M unit :=
  (setPricingEngines t i engine ;;
   calibrateModel w c ;;
   recordAndGate w config_ t i ct)%builder.

Lemma calibrateTail_outcome t i engine c ct st0 st (pre : list Call) :
  calls st = calls st0 ++ pre ->
  baskets st = baskets st0 ->
  results st = results st0 ->
  (forall c', In (Calibrate c') pre -> c' = c) ->
  factorOutcome w config_ t i true ct c
    (fun basket => pre ++ map (fun h => SetPricingEngine h engine) basket
                     ++ [Calibrate c; LogCalibrationErrors t i])
    st0 (calibrateTail t i engine c ct st).
Proof.
  intros Hcalls Hbaskets Hresults Hpre. unfold calibrateTail, factorOutcome. cbv zeta.
  rewrite run_bind, setPricingEngines_run, Hbaskets.
  destruct (basketsOf t (baskets st0) !! i) as [basket|] eqn:Hb.
  2:{ split; [done|]. split; [done|]. exists pre. split; [done|]. split; [done|]. done. }
  rewrite run_bind, calibrateModel_run.
  destruct (raises w (Calibrate c)) eqn:Hc.
  { split; [done|]. split; [done|].
    exists (pre ++ map (fun h => SetPricingEngine h engine) basket ++ [Calibrate c]).
    split; [simpl; rewrite Hcalls; by rewrite <- !app_assoc|].
    split; [|done].
    intros c' Hin. rewrite !in_app_iff in Hin. destruct Hin as [Hin|[Hin|Hin]]; [by apply Hpre| |].
    - apply in_map_iff in Hin. by destruct Hin as (? & ? & ?).
    - destruct Hin as [Hin|[]]. by inversion Hin. }
  rewrite recordAndGate_run. cbv zeta.
  set (tr := pre ++ map (fun h => SetPricingEngine h engine) basket
               ++ [Calibrate c; LogCalibrationErrors t i]).
  assert (Htr : forall c', In (Calibrate c') tr -> c' = c).
  { intros c' Hin. unfold tr in Hin. rewrite !in_app_iff in Hin.
    destruct Hin as [Hin|[Hin|Hin]]; [by apply Hpre| |].
    - apply in_map_iff in Hin. by destruct Hin as (? & ? & ?).
    - destruct Hin as [Hin|[Hin|[]]]; by inversion Hin. }
  destruct (raises w (LogCalibrationErrors t i)) eqn:Hl.
  { split; [done|]. split; [done|]. exists tr.
    split; [simpl; rewrite Hcalls; unfold tr; by rewrite <- !app_assoc|]. done. }
  cbn [logged set_calls set_results results].
  rewrite errors_set_model, Hresults.
  destruct (bool_decide (i < length (errors t (results st0)))) eqn:Hi.
  2:{ split; [done|]. split; [done|]. exists tr.
      split; [simpl; rewrite Hcalls; unfold tr; by rewrite <- !app_assoc|]. done. }
  apply bool_decide_eq_true in Hi.
  destruct (CalibrationType.eqb ct CalibrationType.Bootstrap) eqn:Hct.
  - assert (ct = CalibrationType.Bootstrap) as -> by (by destruct ct).
    destruct (fabs_below (logCalibrationErrors w t i) (bootstrapTolerance config_)) eqn:Hgate.
    + exists basket. simpl. rewrite Hcalls, Hresults, Hbaskets. unfold tr.
      rewrite <- !app_assoc. repeat split; try done.
    + split; [done|]. split; [done|]. exists tr.
      split; [simpl; rewrite Hcalls; unfold tr; by rewrite <- !app_assoc|].
      split; [done|]. intros t' j [= -> ->]. simpl.
      rewrite errors_set_errors, errors_set_model, Hresults.
      rewrite list_lookup_insert_eq by done. done.
  - exists basket. simpl. rewrite Hcalls, Hresults, Hbaskets. unfold tr.
    rewrite <- !app_assoc. repeat split; try done. by destruct ct.
Qed.

Ltac calls_eq := simpl; rewrite <- ?app_assoc; reflexivity.

(** A collaborator call that throws before the routine is reached. *)
Lemma factorOutcome_thrown t i ct c factorCalls st st' (tr : list Call) call_ :
  calls st' = calls st ++ tr ->
  baskets st' = baskets st ->
  (forall c', In (Calibrate c') tr -> c' = c) ->
  factorOutcome w config_ t i true ct c factorCalls st (Throw (Thrown call_), st').
Proof.
  intros Hc Hb Htr. split; [done|]. split; [done|]. exists tr. done.
Qed.

Lemma calibrateFx_outcome i fx st :
  factorOutcome w config_ FX i (fxCalibrated fx) (FxBsData.calibrationType fx)
    (bsRoutine FX i (FxBsData.calibrationType fx) (FxBsData.sigmaParamType fx))
    (fun basket => fxFactorCalls basket i fx)
    st (calibrateFx w config_ i fx st).
Proof.
  unfold calibrateFx, fxFactorCalls, fxCalibrated.
  destruct (CalibrationType.eqb (FxBsData.calibrationType fx) CalibrationType.None
            || negb (FxBsData.calibrateSigma fx)) eqn:Hskip.
  { replace (match FxBsData.calibrationType fx with
             | CalibrationType.None => false
             | _ => FxBsData.calibrateSigma fx
             end) with false
      by (destruct (FxBsData.calibrationType fx), (FxBsData.calibrateSigma fx); done).
    reflexivity. }
  replace (match FxBsData.calibrationType fx with
           | CalibrationType.None => false
           | _ => FxBsData.calibrateSigma fx
           end) with true
    by (destruct (FxBsData.calibrationType fx), (FxBsData.calibrateSigma fx); done).
  cbv zeta. rewrite run_bind, call_run.
  destruct (raises w (NewEngine (AnalyticCcLgmFxOptionEngine i))).
  { apply (factorOutcome_thrown _ _ _ _ _ _ _ [NewEngine (AnalyticCcLgmFxOptionEngine i)]);
      [done|done|]. intros c' [Hin|[]]. inversion Hin. }
  rewrite run_bind, note_run, if_calibrateModel, bsRoutine_eq.
  apply (calibrateTail_outcome FX i (fxEngine i) _ _ st _
           [NewEngine (fxEngine i); EngineCache (fxEngine i)]); try done; try calls_eq.
  intros c' [Hin|[Hin|[]]]; inversion Hin.
Qed.

Lemma calibrateEq_outcome i eq st :
  factorOutcome w config_ EQ i (eqCalibrated eq) (EqBsData.calibrationType eq)
    (bsRoutine EQ i (EqBsData.calibrationType eq) (EqBsData.sigmaParamType eq))
    (fun basket => eqFactorCalls w basket i eq)
    st (calibrateEq w config_ i eq st).
Proof.
  unfold calibrateEq, eqFactorCalls, eqCalibrated.
  destruct (EqBsData.calibrateSigma eq); [|reflexivity].
  cbn [negb]. cbv zeta. rewrite run_bind, call_run.
  destruct (raises w (CcyIndex (parametrizationCurrency w EQ i))).
  { apply (factorOutcome_thrown _ _ _ _ _ _ _ [CcyIndex (parametrizationCurrency w EQ i)]);
      [done|done|]. intros c' [Hin|[]]. inversion Hin. }
  rewrite run_bind, call_run. fold (eqEngine w i).
  destruct (raises w (NewEngine (eqEngine w i))).
  { apply (factorOutcome_thrown _ _ _ _ _ _ _
             [CcyIndex (parametrizationCurrency w EQ i); NewEngine (eqEngine w i)]);
      [calls_eq|done|]. intros c' [Hin|[Hin|[]]]; inversion Hin. }
  rewrite if_calibrateModel, bsRoutine_eq.
  apply (calibrateTail_outcome EQ i (eqEngine w i) _ _ st _
           [CcyIndex (parametrizationCurrency w EQ i); NewEngine (eqEngine w i)]); try done; try calls_eq.
  intros c' [Hin|[Hin|[]]]; inversion Hin.
Qed.

Lemma infRoutine_eq i inf :
  (if InfDkData.calibrateA inf && negb (InfDkData.calibrateH inf) then
     if CalibrationType.eqb (InfDkData.calibrationType inf) CalibrationType.Bootstrap
        && ParamType.eqb (InfDkData.aParamType inf) ParamType.Piecewise
     then calibrateModel w (calibrateInfDkVolatilitiesIterative i)
     else calibrateModel w (calibrateInfDkVolatilitiesGlobal i)
   else if negb (InfDkData.calibrateA inf) && InfDkData.calibrateH inf then
     if CalibrationType.eqb (InfDkData.calibrationType inf) CalibrationType.Bootstrap
        && ParamType.eqb (InfDkData.hParamType inf) ParamType.Piecewise
     then calibrateModel w (calibrateInfDkReversionsIterative i)
     else calibrateModel w (calibrateInfDkReversionsGlobal i)
   else calibrateModel w (calibrate i))
  = calibrateModel w (infRoutine i inf).
Proof.
  unfold infRoutine.
  by destruct (InfDkData.calibrateA inf), (InfDkData.calibrateH inf),
       (InfDkData.calibrationType inf), (InfDkData.aParamType inf), (InfDkData.hParamType inf).
Qed.

Lemma calibrateInf_outcome i inf st :
  factorOutcome w config_ INF i (infCalibrated inf) (InfDkData.calibrationType inf)
    (infRoutine i inf)
    (fun basket => infFactorCalls w config_ basket i inf)
    st (calibrateInf w config_ i inf st).
Proof.
  unfold calibrateInf, infFactorCalls, infCalibrated.
  destruct (negb (InfDkData.calibrateA inf) && negb (InfDkData.calibrateH inf)
            || CalibrationType.eqb (InfDkData.calibrationType inf) CalibrationType.None)
    eqn:Hskip.
  { replace (match InfDkData.calibrationType inf with
             | CalibrationType.None => false
             | _ => InfDkData.calibrateA inf || InfDkData.calibrateH inf
             end) with false
      by (destruct (InfDkData.calibrationType inf), (InfDkData.calibrateA inf),
            (InfDkData.calibrateH inf); done).
    reflexivity. }
  replace (match InfDkData.calibrationType inf with
           | CalibrationType.None => false
           | _ => InfDkData.calibrateA inf || InfDkData.calibrateH inf
           end) with true
    by (destruct (InfDkData.calibrationType inf), (InfDkData.calibrateA inf),
          (InfDkData.calibrateH inf); done).
  cbv zeta. rewrite run_bind, call_run.
  set (c1 := ZeroInflationIndex (infdkName w i) (configurationInfCalibration_ config_)).
  destruct (raises w c1).
  { apply (factorOutcome_thrown _ _ _ _ _ _ _ [c1]); [done|done|].
    intros c' [Hin|[]]. inversion Hin. }
  rewrite run_bind, call_run. fold (infEngine w config_ i).
  destruct (raises w (NewEngine (infEngine w config_ i))).
  { apply (factorOutcome_thrown _ _ _ _ _ _ _ [c1; NewEngine (infEngine w config_ i)]);
      [calls_eq|done|]. intros c' [Hin|[Hin|[]]]; inversion Hin. }
  rewrite infRoutine_eq.
  apply (calibrateTail_outcome INF i (infEngine w config_ i) _ _ st _
           [c1; NewEngine (infEngine w config_ i)]); try done; try calls_eq.
  intros c' [Hin|[Hin|[]]]; inversion Hin.
Qed.

(** With collaborators that do not throw and the member vectors long
    enough, a calibrated factor fails exactly on the gate. *)
Lemma calibrateTail_quiet t i engine c ct st :
  (forall c', raises w c' = false) ->
  i < length (basketsOf t (baskets st)) ->
  i < length (errors t (results st)) ->
  fst (calibrateTail t i engine c ct st) =
    if gatePasses config_ ct (logCalibrationErrors w t i) then Ok tt
    else Throw (CalibrationErrorExceedsTolerance t i).
Proof.
  intros Hquiet Hb He. unfold calibrateTail.
  rewrite run_bind, setPricingEngines_run.
  destruct (basketsOf t (baskets st) !! i) as [basket|] eqn:Hbasket.
  2:{ apply lookup_ge_None in Hbasket.
      destruct (Nat.lt_irrefl _ (Nat.lt_le_trans _ _ _ Hb Hbasket)). }
  rewrite run_bind, calibrateModel_run, Hquiet.
  rewrite recordAndGate_run. cbv zeta. rewrite Hquiet.
  cbn [logged set_calls set_results results]. rewrite errors_set_model.
  replace (bool_decide (i < length (errors t (results st)))) with true
    by (symmetry; by apply bool_decide_eq_true).
  unfold gatePasses. destruct ct; simpl; try reflexivity.
  by destruct (fabs_below (logCalibrationErrors w t i) (bootstrapTolerance config_)).
Qed.

Lemma calibrateFx_quiet i fx st :
  (forall c', raises w c' = false) ->
  fxCalibrated fx = true ->
  i < length (basketsOf FX (baskets st)) ->
  i < length (errors FX (results st)) ->
  fst (calibrateFx w config_ i fx st) =
    if gatePasses config_ (FxBsData.calibrationType fx) (logCalibrationErrors w FX i)
    then Ok tt else Throw (CalibrationErrorExceedsTolerance FX i).
Proof.
  intros Hquiet Hcal Hb He. unfold calibrateFx, fxCalibrated in *.
  replace (CalibrationType.eqb (FxBsData.calibrationType fx) CalibrationType.None
           || negb (FxBsData.calibrateSigma fx)) with false
    by (destruct (FxBsData.calibrationType fx), (FxBsData.calibrateSigma fx); done).
  cbv zeta. rewrite run_bind, call_run, Hquiet, run_bind, note_run.
  rewrite if_calibrateModel.
  by apply (calibrateTail_quiet FX i (AnalyticCcLgmFxOptionEngine i)).
Qed.

Lemma calibrateEq_quiet i eq st :
  (forall c', raises w c' = false) ->
  eqCalibrated eq = true ->
  i < length (basketsOf EQ (baskets st)) ->
  i < length (errors EQ (results st)) ->
  fst (calibrateEq w config_ i eq st) =
    if gatePasses config_ (EqBsData.calibrationType eq) (logCalibrationErrors w EQ i)
    then Ok tt else Throw (CalibrationErrorExceedsTolerance EQ i).
Proof.
  intros Hquiet Hcal Hb He. unfold calibrateEq, eqCalibrated in *. rewrite Hcal.
  cbn [negb]. cbv zeta. rewrite run_bind, call_run, Hquiet, run_bind, call_run, Hquiet.
  rewrite if_calibrateModel.
  by apply (calibrateTail_quiet EQ i (eqEngine w i)).
Qed.

Lemma calibrateInf_quiet i inf st :
  (forall c', raises w c' = false) ->
  infCalibrated inf = true ->
  i < length (basketsOf INF (baskets st)) ->
  i < length (errors INF (results st)) ->
  fst (calibrateInf w config_ i inf st) =
    if gatePasses config_ (InfDkData.calibrationType inf) (logCalibrationErrors w INF i)
    then Ok tt else Throw (CalibrationErrorExceedsTolerance INF i).
Proof.
  intros Hquiet Hcal Hb He. unfold calibrateInf, infCalibrated in *.
  replace (negb (InfDkData.calibrateA inf) && negb (InfDkData.calibrateH inf)
           || CalibrationType.eqb (InfDkData.calibrationType inf) CalibrationType.None)
    with false
    by (destruct (InfDkData.calibrationType inf), (InfDkData.calibrateA inf),
          (InfDkData.calibrateH inf); done).
  cbv zeta. rewrite run_bind, call_run, Hquiet, run_bind, call_run, Hquiet.
  rewrite infRoutine_eq.
  by apply (calibrateTail_quiet INF i (infEngine w config_ i)).
Qed.

End Factors.

(** * Loops and their call logs *)

(** A loop whose [j]-th iteration appends [tr j x] to the log appends their
    concatenation; [J] is the loop invariant on the rest of the state. *)
Lemma hoare_for_each_calls {A} (J : nat -> Builder -> Prop) (E : Error -> Builder -> Prop)
    (tr : nat -> A -> list Call) (body : nat -> A -> M unit) (v : list A) :
  forall k c0,
  (forall j x c, v !! j = Some x ->
     hoare (fun st => calls st = c /\ J (k + j) st) (body (k + j) x)
           (fun _ st => calls st = c ++ tr (k + j) x /\ J (S (k + j)) st) E) ->
  hoare (fun st => calls st = c0 /\ J k st) (for_each body k v)
        (fun _ st => calls st = c0 ++ concat (imap (fun j => tr (k + j)) v)
                     /\ J (k + length v) st) E.
Proof.
  induction v as [|x v IH]; intros k c0 Hb; simpl.
  - apply hoare_ret. intros st [Hc HJ]. by rewrite app_nil_r, Nat.add_0_r.
  - eapply hoare_bind.
    + specialize (Hb 0 x c0 eq_refl). rewrite Nat.add_0_r in Hb. exact Hb.
    + intros u. eapply hoare_weaken; [apply (IH (S k) (c0 ++ tr k x))| | |]; simpl; auto.
      * intros j y c Hj. specialize (Hb (S j) y c Hj).
        replace (k + S j) with (S (k + j)) in Hb by lia. exact Hb.
      * intros u' st [Hc HJ]. split.
        -- rewrite Hc, <- app_assoc, Nat.add_0_r. do 3 f_equal.
           apply imap_ext. intros j y _. simpl. f_equal. lia.
        -- replace (k + S (length v)) with (S (k + length v)) by lia. exact HJ.
Qed.

(** The outcome of running [m] from [st], as a hypothesis. *)
Lemma hoare_elim {A} (P : Builder -> Prop) (m : M A) Q E st r st' :
  hoare P m Q E -> P st -> m st = (r, st') ->
  match r with Ok a => Q a st' | Throw e => E e st' end.
Proof. intros H HP Hrun. specialize (H st HP). by rewrite Hrun in H. Qed.

Lemma hoare_intro {A} (P : Builder -> Prop) (m : M A)
    (Q : A -> Builder -> Prop) (E : Error -> Builder -> Prop) :
  (forall st, P st ->
     match m st with (Ok a, st') => Q a st' | (Throw e, st') => E e st' end) ->
  hoare P m Q E.
Proof. done. Qed.

Lemma basketsOf_set_basketsOf t f b : basketsOf t (set_basketsOf t f b) = f (basketsOf t b).
Proof. by destruct t. Qed.

Lemma basketsOf_set_basketsOf_ne t t' f b :
  t <> t' -> basketsOf t' (set_basketsOf t f b) = basketsOf t' b.
Proof. by destruct t, t'. Qed.

Lemma setBasket_run t i b st :
  setBasket t i b st =
  if bool_decide (i < length (basketsOf t (baskets st))) then
    (Ok tt, set_baskets (set_basketsOf t (fun v => <[i:=b]> v)) st)
  else (Throw IndexOutOfRange, st).
Proof.
  unfold setBasket. rewrite run_bind. cbn [gets].
  by destruct (bool_decide (i < length (basketsOf t (baskets st)))).
Qed.

Lemma linkTo_run i c st :
  linkTo i c st =
  if bool_decide (i < length (irDiscountCurves st)) then
    (Ok tt, set_irDiscountCurves (fun v => <[i:=c]> v) (logged [LinkTo i c] st))
  else (Throw IndexOutOfRange, logged [LinkTo i c] st).
Proof.
  unfold linkTo. rewrite run_bind, note_run, run_bind. cbn [gets logged set_calls irDiscountCurves].
  by destruct (bool_decide (i < length (irDiscountCurves st))).
Qed.

(** * The calls of a whole build *)

Section BuildCalls.

Variable w : World.
Variable config_ : CrossAssetModelData.

Definition irBuildCalls (i : nat) (ir : IrLgmData.t) : list Call :=
  [NewLgmBuilder i (IrLgmData.ccy ir) (configurationLgmCalibration_ config_)].

Definition fxBuildCalls (i : nat) (fx : FxBsData.t) : list Call :=
  [ParseCurrency (FxBsData.foreignCcy fx); ParseCurrency (FxBsData.domesticCcy fx);
   NewFxBsBuilder i (FxBsData.foreignCcy fx) (configurationFxCalibration_ config_)].

Definition eqBuildCalls (i : nat) (eq : EqBsData.t) : list Call :=
  [ParseCurrency (EqBsData.currency eq);
   NewEqBsBuilder i (EqBsData.eqName eq) (configurationEqCalibration_ config_)].

Definition infBuildCalls (i : nat) (inf : InfDkData.t) : list Call :=
  [NewInfDkBuilder i (InfDkData.infIndex inf) (configurationInfCalibration_ config_)].

(** Step 0: the sub-models, rates first, then FX, equity, inflation. *)
Definition subModelCalls : list Call :=
  concat (imap irBuildCalls (irConfigs config_))
  ++ concat (imap fxBuildCalls (fxConfigs config_))
  ++ concat (imap eqBuildCalls (eqConfigs config_))
  ++ concat (imap infBuildCalls (infConfigs config_)).

Definition correlationCalls : list Call :=
  concat (imap (fun _ c => [AddCorrelation (fst (fst c)) (snd (fst c)) (snd c)])
               (correlations config_))
  ++ [CorrelationMatrix (currencies config_) (infIndices config_) [] (eqNames config_)].

Definition modelCalls : list Call := [NewCrossAssetModel (allParametrizations w config_)].

Definition irErrorCalls : list Call :=
  concat (imap (fun i (_ : IrLgmData.t) => [BuilderError i]) (irConfigs config_)).

Definition relinkCalls (configuration : string) : list Call :=
  concat (imap (fun i p => [DiscountCurve (code p) configuration;
                            LinkTo i (discountCurve w (code p) configuration)])
               (irParametrizations w config_)).

Definition fxCalibrationCalls : list Call :=
  concat (imap (fun i fx => fxFactorCalls (builderBasket w FX i) i fx) (fxConfigs config_)).

Definition eqCalibrationCalls : list Call :=
  concat (imap (fun i eq => eqFactorCalls w (builderBasket w EQ i) i eq) (eqConfigs config_)).

Definition infCalibrationCalls : list Call :=
  concat (imap (fun i inf => infFactorCalls w config_ (builderBasket w INF i) i inf)
               (infConfigs config_)).

(** The cascade in its fixed order. *)
Definition cascadeCalls : list Call :=
  correlationCalls
  ++ modelCalls
  ++ irErrorCalls
  ++ relinkCalls (configurationFxCalibration_ config_)
  ++ fxCalibrationCalls
  ++ relinkCalls (configurationEqCalibration_ config_)
  ++ eqCalibrationCalls
  ++ relinkCalls (configurationFinalModel_ config_)
  ++ infCalibrationCalls
  ++ relinkCalls (configurationFinalModel_ config_)
  ++ [ModelUpdate].

Definition buildCalls : list Call := subModelCalls ++ cascadeCalls.

(** The currency requirements of lines 192-197 and 217. *)
Definition fxCurrencyConsistent (i : nat) (fx : FxBsData.t) : Prop :=
  exists p d,
    irParametrizations w config_ !! (i + 1) = Some p /\
    irParametrizations w config_ !! 0 = Some d /\
    code (parseCurrency w (FxBsData.foreignCcy fx)) = code p /\
    parseCurrency w (FxBsData.domesticCcy fx) = d.

Definition eqCurrencyCovered (eq : EqBsData.t) : Prop :=
  code (parseCurrency w (EqBsData.currency eq)) ∈ currencies config_.

Definition currenciesConsistent : Prop :=
  (forall i fx, fxConfigs config_ !! i = Some fx -> fxCurrencyConsistent i fx) /\
  (forall i eq, eqConfigs config_ !! i = Some eq -> eqCurrencyCovered eq).

(** How many factors of each class are configured. *)
Definition factorCount (t : AssetType) : nat :=
  match t with
  | IR => length (irConfigs config_)
  | FX => length (fxConfigs config_)
  | EQ => length (eqConfigs config_)
  | INF => length (infConfigs config_)
  end.

(** The member baskets hold what the sub-builders assembled. *)
Definition basketsReadyUpTo (t : AssetType) (k : nat) (b : Baskets) : Prop :=
  forall j, j < k -> basketsOf t b !! j = Some (builderBasket w t j).

Definition basketsSized (b : Baskets) : Prop :=
  forall t, length (basketsOf t b) = factorCount t.

Definition basketsReady (b : Baskets) : Prop :=
  basketsSized b /\ forall t, basketsReadyUpTo t (factorCount t) b.

(** Errors that are not tolerance breaches. *)
Definition notTolerance (e : Error) : Prop :=
  forall t j, e <> CalibrationErrorExceedsTolerance t j.

End BuildCalls.

(** * The sub-model stage *)

Lemma Currency_eqb_eq (a b : Currency) : Currency_eqb a b = true <-> a = b.
Proof.
  unfold Currency_eqb. rewrite String.eqb_eq. destruct a as [ca], b as [cb]. simpl.
  split; [by intros ->|by intros [= ->]].
Qed.

Lemma existsb_String_eqb (s : string) (l : list string) :
  existsb (String.eqb s) l = true <-> s ∈ l.
Proof.
  rewrite existsb_exists, list_elem_of_In. split.
  - intros (x & Hin & Heq). apply String.eqb_eq in Heq. by subst.
  - intros Hin. exists s. split; [done|apply String.eqb_refl].
Qed.

Lemma FX_not_finished : FX ∉ [IR].
Proof. rewrite list_elem_of_In. simpl. intros [|[]]; discriminate. Qed.
Lemma EQ_not_finished : EQ ∉ [FX; IR].
Proof. rewrite list_elem_of_In. simpl. intros [|[|[]]]; discriminate. Qed.
Lemma INF_not_finished : INF ∉ [EQ; FX; IR].
Proof. rewrite list_elem_of_In. simpl. intros [|[|[|[]]]]; discriminate. Qed.

Section SubModels.

Variable w : World.
Variable config_ : CrossAssetModelData.

(** The loop over class [t] is at entry [k]; the classes in [finished] are
    done. *)
Definition buildProgress (finished : list AssetType) (t : AssetType) (k : nat)
    (st : Builder) : Prop :=
  basketsSized config_ (baskets st) /\
  basketsReadyUpTo w t k (baskets st) /\
  forall t', t' ∈ finished -> basketsReadyUpTo w t' (factorCount config_ t') (baskets st).

Lemma buildProgress_setBasket finished t i st :
  t ∉ finished ->
  i < factorCount config_ t ->
  buildProgress finished t i st ->
  bool_decide (i < length (basketsOf t (baskets st))) = true /\
  forall st',
    baskets st' = set_basketsOf t (fun v => <[i:=builderBasket w t i]> v) (baskets st) ->
    buildProgress finished t (S i) st'.
Proof.
  intros Hnot Hi (Hsized & Hready & Hfin). split.
  - apply bool_decide_eq_true. by rewrite Hsized.
  - intros st' Hst'. unfold buildProgress. rewrite Hst'. split; [|split].
    + intros t'. destruct (decide (t = t')) as [<-|Hne].
      * by rewrite basketsOf_set_basketsOf, length_insert.
      * by rewrite basketsOf_set_basketsOf_ne.
    + intros j Hj. rewrite basketsOf_set_basketsOf.
      destruct (decide (j = i)) as [->|Hne].
      * apply list_lookup_insert_eq. by rewrite Hsized.
      * rewrite list_lookup_insert_ne by done. apply Hready. lia.
    + intros t' Hin j Hj. rewrite basketsOf_set_basketsOf_ne by (intros ->; done).
      by apply Hfin.
Qed.

Lemma buildProgress_next finished t t' st :
  buildProgress finished t (factorCount config_ t) st ->
  buildProgress (t :: finished) t' 0 st.
Proof.
  intros (Hsized & Hready & Hfin). split; [done|]. split; [intros j Hj; lia|].
  intros t'' [->|Hin]%elem_of_cons; [done|by apply Hfin].
Qed.

Ltac not_tolerance := intros ? ? ?; discriminate.

Lemma buildIr_hoare finished i ir c :
  IR ∉ finished -> irConfigs config_ !! i = Some ir ->
  hoare (fun st => calls st = c /\ buildProgress finished IR i st)
        (buildIr w config_ i ir)
        (fun _ st => calls st = c ++ irBuildCalls config_ i ir
                     /\ buildProgress finished IR (S i) st)
        (fun e _ => notTolerance e).
Proof.
  intros Hnot Hi. apply hoare_intro. intros st [Hc Hp].
  apply lookup_lt_Some in Hi.
  destruct (buildProgress_setBasket finished IR i st Hnot Hi Hp) as [Hlt Hnext].
  unfold buildIr, insertSubBuilder. rewrite run_bind, call_run.
  destruct (raises w _); [not_tolerance|].
  rewrite run_bind, setBasket_run. cbn [logged set_calls baskets]. rewrite Hlt.
  rewrite !run_bind_modify. cbn [modify]. split.
  - simpl. by rewrite Hc.
  - by apply Hnext.
Qed.

Lemma buildFx_hoare finished domesticCcy i fx c :
  FX ∉ finished -> fxConfigs config_ !! i = Some fx ->
  irParametrizations w config_ !! 0 = Some domesticCcy ->
  hoare (fun st => calls st = c /\ buildProgress finished FX i st)
        (buildFx w config_ domesticCcy i fx)
        (fun _ st => calls st = c ++ fxBuildCalls config_ i fx
                     /\ buildProgress finished FX (S i) st
                     /\ fxCurrencyConsistent w config_ i fx)
        (fun e _ => notTolerance e).
Proof.
  intros Hnot Hi Hdom. apply hoare_intro. intros st [Hc Hp].
  apply lookup_lt_Some in Hi.
  destruct (buildProgress_setBasket finished FX i st Hnot Hi Hp) as [Hlt Hnext].
  unfold buildFx, insertSubBuilder. cbv zeta. rewrite run_bind, call_run.
  destruct (raises w _); [not_tolerance|].
  rewrite run_bind, call_run.
  destruct (raises w _); [not_tolerance|].
  rewrite run_bind, at_run.
  destruct (irParametrizations w config_ !! (i + 1)) as [p|] eqn:Hp1; [|not_tolerance].
  rewrite run_bind. unfold QL_REQUIRE at 1.
  destruct (String.eqb _ _) eqn:Hcode; [|not_tolerance]. cbn [ret].
  rewrite run_bind. unfold QL_REQUIRE at 1.
  destruct (Currency_eqb _ _) eqn:Hd; [|not_tolerance]. cbn [ret].
  rewrite run_bind, call_run.
  destruct (raises w _); [not_tolerance|].
  rewrite run_bind, setBasket_run. cbn [logged set_calls baskets]. rewrite Hlt.
  cbn [modify]. split; [|split].
  - simpl. rewrite Hc. by rewrite <- !app_assoc.
  - by apply Hnext.
  - exists p, domesticCcy. apply String.eqb_eq in Hcode. apply Currency_eqb_eq in Hd. done.
Qed.

Lemma buildEq_hoare finished i eq c :
  EQ ∉ finished -> eqConfigs config_ !! i = Some eq ->
  hoare (fun st => calls st = c /\ buildProgress finished EQ i st)
        (buildEq w config_ i eq)
        (fun _ st => calls st = c ++ eqBuildCalls config_ i eq
                     /\ buildProgress finished EQ (S i) st
                     /\ eqCurrencyCovered w config_ eq)
        (fun e _ => notTolerance e).
Proof.
  intros Hnot Hi. apply hoare_intro. intros st [Hc Hp].
  apply lookup_lt_Some in Hi.
  destruct (buildProgress_setBasket finished EQ i st Hnot Hi Hp) as [Hlt Hnext].
  unfold buildEq, insertSubBuilder. cbv zeta. rewrite run_bind, call_run.
  destruct (raises w _); [not_tolerance|].
  rewrite run_bind. unfold QL_REQUIRE at 1.
  destruct (existsb _ _) eqn:Hcov; [|not_tolerance]. cbn [ret].
  rewrite run_bind, call_run.
  destruct (raises w _); [not_tolerance|].
  rewrite run_bind, setBasket_run. cbn [logged set_calls baskets]. rewrite Hlt.
  cbn [modify]. split; [|split].
  - simpl. rewrite Hc. by rewrite <- !app_assoc.
  - by apply Hnext.
  - by apply existsb_String_eqb.
Qed.

Lemma buildInf_hoare finished i inf c :
  INF ∉ finished -> infConfigs config_ !! i = Some inf ->
  hoare (fun st => calls st = c /\ buildProgress finished INF i st)
        (buildInf w config_ i inf)
        (fun _ st => calls st = c ++ infBuildCalls config_ i inf
                     /\ buildProgress finished INF (S i) st)
        (fun e _ => notTolerance e).
Proof.
  intros Hnot Hi. apply hoare_intro. intros st [Hc Hp].
  apply lookup_lt_Some in Hi.
  destruct (buildProgress_setBasket finished INF i st Hnot Hi Hp) as [Hlt Hnext].
  unfold buildInf, insertSubBuilder. rewrite run_bind, call_run.
  destruct (raises w _); [not_tolerance|].
  rewrite run_bind, setBasket_run. cbn [logged set_calls baskets]. rewrite Hlt.
  cbn [modify]. split.
  - simpl. by rewrite Hc.
  - by apply Hnext.
Qed.

Lemma length_resize {A} (n : nat) (d : A) (v : list A) : length (resize n d v) = n.
Proof. unfold resize. rewrite length_app, length_take, length_replicate. lia. Qed.

Lemma resizeVectors_sized st : basketsSized config_ (baskets (resizeVectors config_ st)).
Proof. intros []; simpl; apply length_resize. Qed.

Lemma hoare_QL_REQUIRE (P : Builder -> Prop) (b : bool) (e : Error)
    (Q : unit -> Builder -> Prop) (E : Error -> Builder -> Prop) :
  (forall st, P st -> b = true -> Q tt st) ->
  (forall st, P st -> b = false -> E e st) ->
  hoare P (QL_REQUIRE b e) Q E.
Proof. intros HQ HE st HP. destruct b; simpl; auto. Qed.

Lemma hoare_at {A} (P : Builder -> Prop) (v : list A) (i : nat)
    (Q : A -> Builder -> Prop) (E : Error -> Builder -> Prop) :
  (forall st x, P st -> v !! i = Some x -> Q x st) ->
  (forall st, P st -> v !! i = None -> E IndexOutOfRange st) ->
  hoare P (at_ v i) Q E.
Proof. intros HQ HE st HP. rewrite at_run. destruct (v !! i) eqn:H; auto. Qed.

(** The sub-model stage: its calls, the baskets it leaves in the members,
    and the currency requirements it has checked when it returns. *)
Lemma buildSubModels_hoare c :
  hoare (fun st => calls st = c)
        (buildSubModels w config_)
        (fun _ st => calls st = c ++ subModelCalls config_
                     /\ basketsReady w config_ (baskets st)
                     /\ currenciesConsistent w config_)
        (fun e _ => notTolerance e).
Proof.
  apply hoare_intro. intros st Hc. unfold buildSubModels.
  rewrite !run_bind_modify.
  match goal with |- context [bind _ _ ?s] => set (s0 := s) end.
  apply (hoare_run (fun st => calls st = c /\ buildProgress [] IR 0 st)).
  2:{ split; [done|]. split; [apply resizeVectors_sized|]. split; [intros j Hj; lia|].
      intros t' Hin. by apply elem_of_nil in Hin. }
  clear st Hc s0.
  eapply hoare_bind.
  { apply (hoare_for_each_calls (buildProgress [] IR) _ (irBuildCalls config_)).
    intros j x c' Hj. apply buildIr_hoare; [by apply not_elem_of_nil|done]. }
  intros u. cbn beta.
  eapply hoare_bind.
  { apply hoare_QL_REQUIRE with
      (Q := fun _ st => calls st = c ++ concat (imap (irBuildCalls config_) (irConfigs config_))
                        /\ buildProgress [IR] FX 0 st).
    - intros st [Hc Hp] _. split; [done|]. by apply buildProgress_next.
    - intros; not_tolerance. }
  intros u1.
  eapply hoare_bind.
  { apply hoare_at with
      (Q := fun d st => irParametrizations w config_ !! 0 = Some d /\
                        calls st = c ++ concat (imap (irBuildCalls config_) (irConfigs config_))
                        /\ buildProgress [IR] FX 0 st).
    - intros st x HP Hx. done.
    - intros; not_tolerance. }
  intros domesticCcy.
  eapply hoare_bind.
  { eapply hoare_weaken.
    - apply (hoare_for_each_calls
               (fun k st => buildProgress [IR] FX k st /\
                            irParametrizations w config_ !! 0 = Some domesticCcy /\
                            forall j fx, j < k -> fxConfigs config_ !! j = Some fx ->
                                         fxCurrencyConsistent w config_ j fx)
               (fun e _ => notTolerance e) (fxBuildCalls config_)
               (buildFx w config_ domesticCcy) (fxConfigs config_) 0
               (c ++ concat (imap (irBuildCalls config_) (irConfigs config_)))).
      intros j x c' Hj. apply hoare_intro. intros st (Hc & Hp & Hdom & Hok).
      pose proof (buildFx_hoare [IR] domesticCcy j x c') as H.
      assert (Hnot : FX ∉ [IR]) by apply FX_not_finished.
      specialize (H Hnot Hj Hdom st (conj Hc Hp)).
      simpl. destruct (buildFx w config_ domesticCcy j x st) as [[a|e] st']; [|done].
      destruct H as (Hc' & Hp' & Hfx). split; [done|]. split; [done|]. split; [done|].
      intros j' fx' Hlt Hfx'. destruct (decide (j' = j)) as [->|Hne].
      + rewrite Hj in Hfx'. by injection Hfx' as <-.
      + apply Hok; [lia|done].
    - intros st (Hdom & Hc & Hp). split; [done|]. split; [done|]. split; [done|].
      intros j fx Hj. lia.
    - intros a st H. exact H.
    - done. }
  intros u2. cbn beta.
  eapply hoare_bind.
  { eapply hoare_weaken.
    - apply (hoare_for_each_calls
               (fun k st => buildProgress [FX; IR] EQ k st /\
                            (forall j fx, fxConfigs config_ !! j = Some fx ->
                                          fxCurrencyConsistent w config_ j fx) /\
                            forall j eq, j < k -> eqConfigs config_ !! j = Some eq ->
                                         eqCurrencyCovered w config_ eq)
               (fun e _ => notTolerance e) (eqBuildCalls config_)
               (buildEq w config_) (eqConfigs config_) 0
               ((c ++ concat (imap (irBuildCalls config_) (irConfigs config_)))
                  ++ concat (imap (fxBuildCalls config_) (fxConfigs config_)))).
      intros j x c' Hj. apply hoare_intro. intros st (Hc & Hp & Hfx & Hok).
      pose proof (buildEq_hoare [FX; IR] j x c') as H.
      assert (Hnot : EQ ∉ [FX; IR]) by apply EQ_not_finished.
      specialize (H Hnot Hj st (conj Hc Hp)).
      simpl. destruct (buildEq w config_ j x st) as [[a|e] st']; [|done].
      destruct H as (Hc' & Hp' & Heq). split; [done|]. split; [done|]. split; [done|].
      intros j' eq' Hlt Heq'. destruct (decide (j' = j)) as [->|Hne].
      + rewrite Hj in Heq'. by injection Heq' as <-.
      + apply (Hok j'); [lia|done].
    - intros st (Hc & (Hp & Hdom & Hfx)). simpl in Hp. split; [done|].
      split; [by apply buildProgress_next|]. split.
      + intros j fx Hj. apply (Hfx j); [|done]. by apply lookup_lt_Some in Hj.
      + intros j eq Hj. lia.
    - intros a st H. exact H.
    - done. }
  intros u3. cbn beta.
  eapply hoare_weaken.
  - apply (hoare_for_each_calls
             (fun k st => buildProgress [EQ; FX; IR] INF k st /\ currenciesConsistent w config_)
             (fun e _ => notTolerance e) (infBuildCalls config_)
             (buildInf w config_) (infConfigs config_) 0
             (((c ++ concat (imap (irBuildCalls config_) (irConfigs config_)))
                 ++ concat (imap (fxBuildCalls config_) (fxConfigs config_)))
                ++ concat (imap (eqBuildCalls config_) (eqConfigs config_)))).
    intros j x c' Hj. apply hoare_intro. intros st (Hc & Hp & Hcur).
    pose proof (buildInf_hoare [EQ; FX; IR] j x c') as H.
    assert (Hnot : INF ∉ [EQ; FX; IR]) by apply INF_not_finished.
    specialize (H Hnot Hj st (conj Hc Hp)).
    simpl. destruct (buildInf w config_ j x st) as [[a|e] st']; [|done].
    destruct H as (Hc' & Hp'). done.
  - intros st (Hc & (Hp & Hfx & Heq)). simpl in Hp. split; [done|].
    split; [by apply buildProgress_next|]. split; [done|].
    intros j eq Hj. apply (Heq j); [|done]. by apply lookup_lt_Some in Hj.
  - intros a st (Hc & Hp & Hcur). simpl in Hp. split; [|split; [|done]].
    + rewrite Hc. unfold subModelCalls. by rewrite <- !app_assoc.
    + destruct Hp as (Hsized & Hready & Hfin). split; [done|].
      intros []; [apply Hfin|apply Hfin|apply Hready|apply Hfin];
        rewrite list_elem_of_In; simpl; tauto.
  - done.
Qed.

End SubModels.

(** * The calibration cascade *)

Section Cascade.

Variable w : World.
Variable config_ : CrossAssetModelData.

(** Factor [j] of class [t] is calibrated in Bootstrap mode.  There is no
    such gate on rate factors. *)
Definition bootstrapCalibrated (t : AssetType) (j : nat) : Prop :=
  match t with
  | IR => False
  | FX => exists fx, fxConfigs config_ !! j = Some fx /\ fxCalibrated fx = true
                     /\ FxBsData.calibrationType fx = CalibrationType.Bootstrap
  | EQ => exists eq, eqConfigs config_ !! j = Some eq /\ eqCalibrated eq = true
                     /\ EqBsData.calibrationType eq = CalibrationType.Bootstrap
  | INF => exists inf, infConfigs config_ !! j = Some inf /\ infCalibrated inf = true
                       /\ InfDkData.calibrationType inf = CalibrationType.Bootstrap
  end.

(** What a tolerance error tells about the state it is thrown in. *)
Definition toleranceBreach (e : Error) (st : Builder) : Prop :=
  forall t j, e = CalibrationErrorExceedsTolerance t j ->
    bootstrapCalibrated t j /\
    errors t (results st) !! j = Some (logCalibrationErrors w t j) /\
    fabs_below (logCalibrationErrors w t j) (bootstrapTolerance config_) = false.

(** Every calibrated factor passed its gate. *)
Definition gatesPassed : Prop :=
  (forall i fx, fxConfigs config_ !! i = Some fx -> fxCalibrated fx = true ->
     gatePasses config_ (FxBsData.calibrationType fx) (logCalibrationErrors w FX i) = true) /\
  (forall i eq, eqConfigs config_ !! i = Some eq -> eqCalibrated eq = true ->
     gatePasses config_ (EqBsData.calibrationType eq) (logCalibrationErrors w EQ i) = true) /\
  (forall i inf, infConfigs config_ !! i = Some inf -> infCalibrated inf = true ->
     gatePasses config_ (InfDkData.calibrationType inf) (logCalibrationErrors w INF i) = true).

Lemma notTolerance_breach e st : notTolerance e -> toleranceBreach e st.
Proof. intros H t j ->. by destruct (H t j). Qed.

Ltac not_tolerance := intros ? ? ?; discriminate.

(** The invariant of the cascade: the baskets stay as the sub-model stage
    left them. *)
Lemma call_hoare (P : Baskets -> Prop) (c : Call) (c0 : list Call) :
  hoare (fun st => calls st = c0 /\ P (baskets st)) (call w c)
        (fun _ st => calls st = c0 ++ [c] /\ P (baskets st))
        (fun e _ => notTolerance e).
Proof.
  apply hoare_intro. intros st [Hc HP]. rewrite call_run.
  destruct (raises w c); [not_tolerance|]. simpl. by rewrite Hc.
Qed.

Lemma buildCorrelationMatrix_hoare (P : Baskets -> Prop) c0 :
  hoare (fun st => calls st = c0 /\ P (baskets st)) (buildCorrelationMatrix w config_)
        (fun _ st => calls st = c0 ++ correlationCalls config_ /\ P (baskets st))
        (fun e _ => notTolerance e).
Proof.
  unfold buildCorrelationMatrix, correlationCalls.
  eapply hoare_bind.
  { apply (hoare_for_each_calls (fun _ st => P (baskets st)) _
             (fun _ c => [AddCorrelation (fst (fst c)) (snd (fst c)) (snd c)])).
    intros j x c Hj. apply call_hoare. }
  intros u. cbn beta.
  eapply hoare_bind; [apply call_hoare|].
  intros u'. apply hoare_ret. intros st [Hc HP]. split; [|done].
  rewrite Hc. by rewrite <- app_assoc.
Qed.

Lemma linkModel_hoare (P : Baskets -> Prop) m c0 :
  hoare (fun st => calls st = c0 /\ P (baskets st)) (linkModel w config_ m)
        (fun _ st => calls st = c0 ++ modelCalls w config_ /\ P (baskets st))
        (fun e _ => notTolerance e).
Proof.
  apply hoare_intro. intros st [Hc HP]. unfold linkModel. rewrite run_bind, call_run.
  destruct (raises w _); [not_tolerance|]. simpl. by rewrite Hc.
Qed.

Lemma collectIrError_hoare (P : Baskets -> Prop) i ir c0 :
  hoare (fun st => calls st = c0 /\ P (baskets st)) (collectIrError w i ir)
        (fun _ st => calls st = c0 ++ [BuilderError i] /\ P (baskets st))
        (fun e _ => notTolerance e).
Proof.
  apply hoare_intro. intros st [Hc HP]. unfold collectIrError. rewrite run_bind, call_run.
  destruct (raises w _); [not_tolerance|].
  rewrite setError_run. destruct (bool_decide _); [|not_tolerance].
  simpl. by rewrite Hc.
Qed.

Lemma relink_hoare (P : Baskets -> Prop) configuration i p c0 :
  hoare (fun st => calls st = c0 /\ P (baskets st)) (relink w configuration i p)
        (fun _ st => calls st = c0 ++ [DiscountCurve (code p) configuration;
                                       LinkTo i (discountCurve w (code p) configuration)]
                     /\ P (baskets st))
        (fun e _ => notTolerance e).
Proof.
  apply hoare_intro. intros st [Hc HP]. unfold relink. rewrite run_bind, call_run.
  destruct (raises w _); [not_tolerance|].
  rewrite linkTo_run. destruct (bool_decide _); [|not_tolerance].
  simpl. rewrite Hc. by rewrite <- app_assoc.
Qed.

(** The first [k] rate factors discount on the curves of [configuration]. *)
Definition linkedUpTo (configuration : string) (k : nat) (st : Builder) : Prop :=
  forall i p, i < k -> irParametrizations w config_ !! i = Some p ->
    irDiscountCurves st !! i = Some (discountCurve w (code p) configuration).

Definition linked (configuration : string) (st : Builder) : Prop :=
  linkedUpTo configuration (length (irParametrizations w config_)) st.

Lemma relink_links_hoare (P : Baskets -> Prop) configuration i p c0 :
  irParametrizations w config_ !! i = Some p ->
  hoare (fun st => calls st = c0 /\ P (baskets st) /\ linkedUpTo configuration i st)
        (relink w configuration i p)
        (fun _ st => calls st = c0 ++ [DiscountCurve (code p) configuration;
                                       LinkTo i (discountCurve w (code p) configuration)]
                     /\ P (baskets st) /\ linkedUpTo configuration (S i) st)
        (fun e _ => notTolerance e).
Proof.
  intros Hp. apply hoare_intro. intros st (Hc & HP & Hl). unfold relink.
  rewrite run_bind, call_run.
  destruct (raises w _); [not_tolerance|].
  rewrite linkTo_run. cbn [logged set_calls irDiscountCurves].
  destruct (bool_decide _) eqn:Hi; [|not_tolerance].
  apply bool_decide_eq_true in Hi.
  split; [simpl; rewrite Hc; by rewrite <- app_assoc|]. split; [done|].
  intros i' p' Hi' Hp'. simpl. destruct (decide (i' = i)) as [->|Hne].
  - rewrite Hp in Hp'. injection Hp' as <-. by apply list_lookup_insert_eq.
  - rewrite list_lookup_insert_ne by done. apply Hl; [lia|done].
Qed.

Lemma relinkAll_links_hoare (P : Baskets -> Prop) configuration c0 :
  hoare (fun st => calls st = c0 /\ P (baskets st)) (relinkAll w config_ configuration)
        (fun _ st => calls st = c0 ++ relinkCalls w config_ configuration
                     /\ P (baskets st) /\ linked configuration st)
        (fun e _ => notTolerance e).
Proof.
  unfold relinkAll, relinkCalls, linked.
  eapply hoare_weaken.
  - apply (hoare_for_each_calls
             (fun k st => P (baskets st) /\ linkedUpTo configuration k st)
             (fun e _ => notTolerance e)
             (fun i p => [DiscountCurve (code p) configuration;
                          LinkTo i (discountCurve w (code p) configuration)])
             (relink w configuration) (irParametrizations w config_) 0 c0).
    intros j x c Hj. by apply relink_links_hoare.
  - intros st (Hc & HP). split; [done|]. split; [done|]. intros i p Hi. lia.
  - intros a st H. exact H.
  - intros e st H. exact H.
Qed.

Lemma relinkAll_hoare (P : Baskets -> Prop) configuration c0 :
  hoare (fun st => calls st = c0 /\ P (baskets st)) (relinkAll w config_ configuration)
        (fun _ st => calls st = c0 ++ relinkCalls w config_ configuration /\ P (baskets st))
        (fun e _ => notTolerance e).
Proof.
  eapply hoare_weaken; [apply (relinkAll_links_hoare P configuration c0)|done| |done].
  intros a st (Hc & HP & _). done.
Qed.

(** A calibration stage over the factors of one class. *)
Lemma calibrationStage_hoare {A} (t : AssetType) (body : nat -> A -> M unit) (v : list A)
    (isCalibrated : A -> bool) (ct : A -> CalibrationType.t) (routine : nat -> A -> Calibration)
    (factorCalls : Basket -> nat -> A -> list Call) c0 :
  length v = factorCount config_ t ->
  (forall i x, isCalibrated x = false -> factorCalls (builderBasket w t i) i x = []) ->
  (forall i x st, factorOutcome w config_ t i (isCalibrated x) (ct x) (routine i x)
                    (fun basket => factorCalls basket i x) st (body i x st)) ->
  (forall i x, v !! i = Some x -> isCalibrated x = true ->
               ct x = CalibrationType.Bootstrap -> bootstrapCalibrated t i) ->
  hoare (fun st => calls st = c0 /\ basketsReady w config_ (baskets st))
        (for_each body 0 v)
        (fun _ st => calls st = c0 ++ concat (imap (fun i x => factorCalls (builderBasket w t i) i x) v)
                     /\ basketsReady w config_ (baskets st)
                     /\ forall i x, v !! i = Some x -> isCalibrated x = true ->
                          gatePasses config_ (ct x) (logCalibrationErrors w t i) = true)
        toleranceBreach.
Proof.
  intros Hlen Hskip Hout Hboot.
  eapply hoare_weaken.
  - apply (hoare_for_each_calls
             (fun k st => basketsReady w config_ (baskets st) /\
                forall i x, i < k -> v !! i = Some x -> isCalibrated x = true ->
                  gatePasses config_ (ct x) (logCalibrationErrors w t i) = true)
             toleranceBreach
             (fun i x => factorCalls (builderBasket w t i) i x) body v 0 c0).
    intros j x c Hj. apply hoare_intro. intros st (Hc & Hready & Hgates).
    specialize (Hout j x st). unfold factorOutcome in Hout. simpl.
    destruct (body j x st) as [[a|e] st'].
    + destruct (isCalibrated x) eqn:Hcal.
      * destruct Hout as (basket & Hb & Hc' & Hres & Hbk & Hlt & Hgate).
        assert (basket = builderBasket w t j) as ->.
        { destruct Hready as [_ Hr]. specialize (Hr t j).
          rewrite Hr in Hb; [by injection Hb|]. rewrite <- Hlen. by apply lookup_lt_Some in Hj. }
        split; [by rewrite Hc', Hc|]. split; [by rewrite Hbk|].
        intros i y Hi Hy Hcy. destruct (decide (i = j)) as [->|Hne].
        -- rewrite Hj in Hy. injection Hy as <-. done.
        -- apply Hgates; [lia|done|done].
      * subst st'. rewrite (Hskip j x) by done. split; [by rewrite app_nil_r|]. split; [done|].
        intros i y Hi Hy Hcy. destruct (decide (i = j)) as [->|Hne].
        -- rewrite Hj in Hy. injection Hy as <-. congruence.
        -- apply Hgates; [lia|done|done].
    + destruct Hout as (Hcal & Hbk & tr & Htr & Hsel & Htol).
      intros t' j' ->. destruct (Htol t' j' eq_refl) as (-> & -> & Hct & He & Hgate).
      split; [|done]. by apply (Hboot j x).
  - intros st [Hc Hready]. split; [done|]. split; [done|]. intros i x Hi. lia.
  - intros a st (Hc & Hready & Hgates). split; [done|]. split; [done|].
    intros i x Hx Hcal. apply (Hgates i x); [|done|done].
    simpl. by apply lookup_lt_Some in Hx.
  - done.
Qed.

Lemma hoare_breach {A} (P : Builder -> Prop) (m : M A) (Q : A -> Builder -> Prop) :
  hoare P m Q (fun e _ => notTolerance e) -> hoare P m Q toleranceBreach.
Proof.
  intros H. eapply hoare_weaken; [exact H|done|done|].
  intros e st. apply notTolerance_breach.
Qed.

(** A fact that does not depend on the state rides along. *)
Lemma hoare_pure {A} (F : Prop) (P : Builder -> Prop) (m : M A)
    (Q : A -> Builder -> Prop) (E : Error -> Builder -> Prop) :
  hoare P m Q E -> hoare (fun st => P st /\ F) m (fun a st => Q a st /\ F) E.
Proof.
  intros H st [HP HF]. specialize (H st HP). destruct (m st) as [[a|e] st']; auto.
Qed.

Definition fxGates : Prop :=
  forall i fx, fxConfigs config_ !! i = Some fx -> fxCalibrated fx = true ->
    gatePasses config_ (FxBsData.calibrationType fx) (logCalibrationErrors w FX i) = true.
Definition eqGates : Prop :=
  forall i eq, eqConfigs config_ !! i = Some eq -> eqCalibrated eq = true ->
    gatePasses config_ (EqBsData.calibrationType eq) (logCalibrationErrors w EQ i) = true.
Definition infGates : Prop :=
  forall i inf, infConfigs config_ !! i = Some inf -> infCalibrated inf = true ->
    gatePasses config_ (InfDkData.calibrationType inf) (logCalibrationErrors w INF i) = true.

Lemma fxStage_hoare c0 :
  hoare (fun st => calls st = c0 /\ basketsReady w config_ (baskets st))
        (for_each (calibrateFx w config_) 0 (fxConfigs config_))
        (fun _ st => calls st = c0 ++ fxCalibrationCalls w config_
                     /\ basketsReady w config_ (baskets st) /\ fxGates)
        toleranceBreach.
Proof.
  apply (calibrationStage_hoare FX (calibrateFx w config_) (fxConfigs config_)
           fxCalibrated FxBsData.calibrationType
           (fun i fx => bsRoutine FX i (FxBsData.calibrationType fx) (FxBsData.sigmaParamType fx))
           fxFactorCalls c0).
  - done.
  - intros i x Hx. unfold fxFactorCalls. by rewrite Hx.
  - intros i x st. apply calibrateFx_outcome.
  - intros i x Hx Hcal Hct. by exists x.
Qed.

Lemma eqStage_hoare c0 :
  hoare (fun st => calls st = c0 /\ basketsReady w config_ (baskets st))
        (for_each (calibrateEq w config_) 0 (eqConfigs config_))
        (fun _ st => calls st = c0 ++ eqCalibrationCalls w config_
                     /\ basketsReady w config_ (baskets st) /\ eqGates)
        toleranceBreach.
Proof.
  apply (calibrationStage_hoare EQ (calibrateEq w config_) (eqConfigs config_)
           eqCalibrated EqBsData.calibrationType
           (fun i eq => bsRoutine EQ i (EqBsData.calibrationType eq) (EqBsData.sigmaParamType eq))
           (eqFactorCalls w) c0).
  - done.
  - intros i x Hx. unfold eqFactorCalls. by rewrite Hx.
  - intros i x st. apply calibrateEq_outcome.
  - intros i x Hx Hcal Hct. by exists x.
Qed.

Lemma infStage_hoare c0 :
  hoare (fun st => calls st = c0 /\ basketsReady w config_ (baskets st))
        (for_each (calibrateInf w config_) 0 (infConfigs config_))
        (fun _ st => calls st = c0 ++ infCalibrationCalls w config_
                     /\ basketsReady w config_ (baskets st) /\ infGates)
        toleranceBreach.
Proof.
  apply (calibrationStage_hoare INF (calibrateInf w config_) (infConfigs config_)
           infCalibrated InfDkData.calibrationType
           (fun i inf => infRoutine i inf)
           (infFactorCalls w config_) c0).
  - done.
  - intros i x Hx. unfold infFactorCalls. by rewrite Hx.
  - intros i x st. apply calibrateInf_outcome.
  - intros i x Hx Hcal Hct. by exists x.
Qed.

(** The cascade: the calls it makes when it returns, the gates passed on
    the way, and what a tolerance error means when it throws one. *)
Lemma assembleAndCalibrate_hoare c0 :
  hoare (fun st => calls st = c0 /\ basketsReady w config_ (baskets st))
        (assembleAndCalibrate w config_)
        (fun _ st => calls st = c0 ++ cascadeCalls w config_ /\ gatesPassed
                     /\ linked (configurationFinalModel_ config_) st)
        toleranceBreach.
Proof.
  unfold assembleAndCalibrate, cascadeCalls.
  set (Ready := basketsReady w config_).
  eapply hoare_bind.
  { apply hoare_QL_REQUIRE with
      (Q := fun _ st => calls st = c0 /\ Ready (baskets st)).
    - intros st H _. exact H.
    - intros st _ _ t j Heq. discriminate. }
  intros u0. eapply hoare_bind.
  { apply hoare_breach. apply (buildCorrelationMatrix_hoare Ready c0). }
  intros m. eapply hoare_bind.
  { apply hoare_breach. apply (linkModel_hoare Ready m). }
  intros u1. eapply hoare_bind.
  { apply hoare_breach.
    apply (hoare_for_each_calls (fun _ st => Ready (baskets st)) (fun e _ => notTolerance e)
             (fun i (_ : IrLgmData.t) => [BuilderError i]) (collectIrError w)
             (irConfigs config_) 0).
    intros j x c Hj. apply collectIrError_hoare. }
  intros u2. cbn beta. eapply hoare_bind.
  { apply hoare_breach. apply (relinkAll_hoare Ready). }
  intros u3. eapply hoare_bind.
  { apply fxStage_hoare. }
  intros u4. eapply hoare_bind.
  { apply hoare_breach.
    apply (relinkAll_hoare (fun b => Ready b /\ fxGates)). }
  intros u5. eapply hoare_bind.
  { eapply hoare_weaken; [apply (hoare_pure fxGates), eqStage_hoare| | |].
    - intros st (Hc & Hr & Hfx). split; [split; [exact Hc|exact Hr]|exact Hfx].
    - intros a st H. exact H.
    - done. }
  intros u6. eapply hoare_bind.
  { eapply hoare_weaken;
      [apply hoare_breach, (relinkAll_hoare (fun b => Ready b /\ eqGates /\ fxGates))| | |].
    - intros st ((Hc & Hr & Heq) & Hfx). split; [exact Hc|]. done.
    - intros a st H. exact H.
    - done. }
  intros u7. eapply hoare_bind.
  { eapply hoare_weaken; [apply (hoare_pure (eqGates /\ fxGates)), infStage_hoare| | |].
    - intros st (Hc & Hr & Heq & Hfx). split; [split; [exact Hc|exact Hr]|by split].
    - intros a st H. exact H.
    - done. }
  intros u8. eapply hoare_bind.
  { eapply hoare_weaken;
      [apply hoare_breach,
         (relinkAll_links_hoare (fun b => Ready b /\ infGates /\ eqGates /\ fxGates))| | |].
    - intros st ((Hc & Hr & Hinf) & Heq & Hfx). split; [exact Hc|]. done.
    - intros a st H. exact H.
    - done. }
  intros u9. apply hoare_intro.
  intros st (Hc & (Hr & Hinf & Heq & Hfx) & Hl). rewrite note_run. split; [|split].
  - simpl. rewrite Hc. unfold irErrorCalls. by rewrite <- !app_assoc.
  - done.
  - exact Hl.
Qed.

End Cascade.

(** * The whole build *)

Section Build.

Variable w : World.
Variable config_ : CrossAssetModelData.

Lemma checkConfiguration_state st :
  snd (checkConfiguration config_ st) = st /\
  match fst (checkConfiguration config_ st) with
  | Ok _ => True
  | Throw e => notTolerance e /\ error_class e = ConfigurationError
  end.
Proof.
  unfold checkConfiguration. rewrite !run_bind. unfold QL_REQUIRE.
  destruct (marketGiven config_); simpl; [|split; [done|split; [intros ? ? ?; discriminate|done]]].
  destruct (0 <? size (irConfigs config_))%Z; simpl;
    [|split; [done|split; [intros ? ? ?; discriminate|done]]].
  destruct (size (irConfigs config_) =? Size_wrap (size (fxConfigs config_) + 1))%Z; simpl;
    [done|split; [done|split; [intros ? ? ?; discriminate|done]]].
Qed.

Lemma checkConfiguration_hoare c0 :
  hoare (fun st => calls st = c0) (checkConfiguration config_)
        (fun _ st => calls st = c0) (fun e _ => notTolerance e).
Proof.
  apply hoare_intro. intros st Hc.
  destruct (checkConfiguration_state st) as [Hst Hr].
  destruct (checkConfiguration config_ st) as [[a|e] st']; simpl in *; subst st'; [done|].
  by destruct Hr.
Qed.

(** The build: the calls it has made when it returns, the requirements and
    gates it has checked, and what a tolerance error means. *)
Lemma buildModel_hoare c0 :
  hoare (fun st => calls st = c0) (buildModel w config_)
        (fun _ st => calls st = c0 ++ buildCalls w config_
                     /\ currenciesConsistent w config_ /\ gatesPassed w config_
                     /\ linked w config_ (configurationFinalModel_ config_) st)
        (toleranceBreach w config_).
Proof.
  unfold buildModel.
  eapply hoare_bind; [apply hoare_breach, checkConfiguration_hoare|].
  intros u. eapply hoare_bind; [apply hoare_breach, buildSubModels_hoare|].
  intros u'. eapply hoare_weaken.
  - apply (hoare_pure (currenciesConsistent w config_)).
    apply (assembleAndCalibrate_hoare w config_ (c0 ++ subModelCalls config_)).
  - intros st (Hc & Hr & Hcur). done.
  - intros a st ((Hc & Hg & Hl) & Hcur). split; [|done].
    rewrite Hc. unfold buildCalls. by rewrite <- app_assoc.
  - done.
Qed.

Lemma buildModel_returns st st' :
  buildModel w config_ st = (Ok tt, st') ->
  calls st' = calls st ++ buildCalls w config_
  /\ currenciesConsistent w config_ /\ gatesPassed w config_
  /\ linked w config_ (configurationFinalModel_ config_) st'.
Proof.
  intros Hrun. exact (hoare_elim _ _ _ _ st _ _ (buildModel_hoare (calls st)) eq_refl Hrun).
Qed.

Lemma buildModel_tolerance st st' t j :
  buildModel w config_ st = (Throw (CalibrationErrorExceedsTolerance t j), st') ->
  bootstrapCalibrated config_ t j /\
  errors t (results st') !! j = Some (logCalibrationErrors w t j) /\
  fabs_below (logCalibrationErrors w t j) (bootstrapTolerance config_) = false.
Proof.
  intros Hrun.
  pose proof (hoare_elim _ _ _ _ st _ _ (buildModel_hoare (calls st)) eq_refl Hrun) as H.
  by apply H.
Qed.

(** The joint model is constructed only after the currency requirements
    have been checked. *)
Lemma buildModel_constructs st tr :
  calls (snd (buildModel w config_ st)) = calls st ++ tr ->
  Exists (fun c => isModelConstruction c = true) tr ->
  currenciesConsistent w config_.
Proof.
  intros Hcalls Hex. unfold buildModel in Hcalls. rewrite run_bind in Hcalls.
  destruct (checkConfiguration_state st) as [Hst _].
  destruct (checkConfiguration config_ st) as [[u|e] st0]; simpl in Hst; subst st0.
  2:{ simpl in Hcalls. rewrite <- (app_nil_r (calls st)) in Hcalls at 1.
      apply app_inv_head in Hcalls. subst tr. by apply Exists_nil in Hex. }
  rewrite run_bind in Hcalls.
  pose proof (buildSubModels_hoare w config_ (calls st) st eq_refl) as Hsub.
  pose proof (buildSubModels_calls_grow w config_ st) as (tr' & Htr' & Hall).
  destruct (buildSubModels w config_ st) as [[u'|e] st1]; [by destruct Hsub as (_ & _ & ?)|].
  simpl in Hcalls, Htr'. rewrite Htr' in Hcalls. apply app_inv_head in Hcalls. subst tr'.
  apply Exists_exists in Hex as (c & Hin & Hc).
  rewrite Forall_forall in Hall. destruct (Hall c Hin) as [Hc' _].
  congruence.
Qed.

Lemma buildModel_inconsistent_currencies st :
  ~ currenciesConsistent w config_ ->
  exists e st' tr,
    buildModel w config_ st = (Throw e, st') /\
    calls st' = calls st ++ tr /\
    Forall (fun c => isModelConstruction c = false) tr.
Proof.
  intros Hnot.
  pose proof (buildModel_calls_grow w config_ st) as (tr & Htr & _).
  destruct (buildModel w config_ st) as [[[]|e] st'] eqn:Hrun.
  { destruct (buildModel_returns st st' Hrun) as (_ & Hcur & _ & _). by destruct Hnot. }
  exists e, st', tr. split; [done|]. split; [done|].
  apply Forall_forall. intros c Hin.
  destruct (isModelConstruction c) eqn:Hc; [|done].
  destruct Hnot. apply (buildModel_constructs st tr); [by rewrite Hrun|].
  apply Exists_exists. by exists c.
Qed.

End Build.

(** * The lazy rebuild *)

(** Some sub-builder requires recalibration. *)
Definition subBuildersStale (w : World) (st : Builder) : bool :=
  existsb (subBuilderRequiresRecalibration w) (subBuilders_ st).

(** The builder is stale: some sub-builder requires recalibration, or a
    correlation quote has changed since the observer's flag was reset. *)
Definition stale (w : World) (st : Builder) : bool :=
  subBuildersStale w st || updated_ (marketObserver_ st).

(** The observer is asked only when no sub-builder is stale. *)
Definition observerQuery (w : World) (st : Builder) : list Call :=
  if subBuildersStale w st then [] else [HasUpdated false].

Definition resetObserver (st : Builder) : Builder :=
  set_marketObserver (fun o => {| observed := observed o; updated_ := false |}) st.

(** The rebuild of lines 118-123. *)
Definition rebuild (w : World) (config_ : CrossAssetModelData) : M unit :=
  (hasUpdated true ;;
   unregisterWithSubBuilders ;;
   buildModel w config_ ;;
   registerWithSubBuilders)%builder.

(** What the registration loops leave alone. *)
Definition wiring (st : Builder) : Results * list SubBuilder * MarketObserver :=
  (results st, subBuilders_ st, marketObserver_ st).

Lemma hasUpdated_run reset st :
  hasUpdated reset st =
  (Ok (updated_ (marketObserver_ st)),
   if reset then resetObserver (logged [HasUpdated true] st)
   else logged [HasUpdated false] st).
Proof. unfold hasUpdated. rewrite run_bind, note_run. by destruct reset. Qed.

Lemma requiresRecalibration_run w st :
  requiresRecalibration w st = (Ok (stale w st), logged (observerQuery w st) st).
Proof.
  unfold requiresRecalibration, stale, observerQuery, subBuildersStale.
  rewrite run_bind. cbn [gets].
  destruct (existsb (subBuilderRequiresRecalibration w) (subBuilders_ st)).
  - simpl. by rewrite logged_nil.
  - by rewrite hasUpdated_run.
Qed.

Lemma performCalculations_run w config_ st :
  performCalculations w config_ st =
  if stale w st then rebuild w config_ (logged (observerQuery w st) st)
  else (Ok tt, logged (observerQuery w st) st).
Proof.
  unfold performCalculations. rewrite run_bind, requiresRecalibration_run.
  by destruct (stale w st).
Qed.

Lemma for_each_note_modify {A} (f : A -> Call) (g : A -> Builder -> Builder) (v : list A) :
  (forall x s, calls (g x s) = calls s) ->
  forall i st, exists st',
    for_each (fun _ x => note (f x) ;; modify (g x))%builder i v st = (Ok tt, st')
    /\ calls st' = calls st ++ map f v.
Proof.
  intros Hg. induction v as [|x v IH]; intros i st; simpl.
  - exists st. by rewrite app_nil_r.
  - rewrite run_bind, run_bind, note_run. cbn [modify].
    destruct (IH (S i) (g x (logged [f x] st))) as (st' & Hrun & Hc).
    exists st'. split; [done|]. rewrite Hc, Hg. simpl. by rewrite <- app_assoc.
Qed.

Lemma unregisterWithSubBuilders_run st :
  exists st',
    unregisterWithSubBuilders st = (Ok tt, st')
    /\ calls st' = calls st ++ map UnregisterWith (subBuilders_ st)
    /\ wiring st' = wiring st.
Proof.
  pose proof (unregisterWithSubBuilders_frame st) as Hframe.
  unfold unregisterWithSubBuilders in *. rewrite run_bind in *. cbn [gets] in *.
  destruct (for_each_note_modify UnregisterWith
              (fun b => set_observables (filter (fun b' => b' <> b)))
              (subBuilders_ st) ltac:(done) 0 st) as (st' & Hrun & Hc).
  rewrite Hrun in *. exists st'. done.
Qed.

Lemma registerWithSubBuilders_run st :
  exists st',
    registerWithSubBuilders st = (Ok tt, st')
    /\ calls st' = calls st ++ map RegisterWith (subBuilders_ st)
    /\ wiring st' = wiring st.
Proof.
  pose proof (registerWithSubBuilders_frame st) as Hframe.
  unfold registerWithSubBuilders in *. rewrite run_bind in *. cbn [gets] in *.
  destruct (for_each_note_modify RegisterWith
              (fun b => set_observables (fun o => if bool_decide (b ∈ o) then o else o ++ [b]))
              (subBuilders_ st) ltac:(done) 0 st) as (st' & Hrun & Hc).
  rewrite Hrun in *. exists st'. done.
Qed.

(** The rebuild, step by step: the flag is reset, the builder unregisters
    from its current sub-builders, the build runs, and - when it returns -
    the builder registers with the new sub-builders. *)
Lemma rebuild_run w config_ st :
  exists s1,
    calls s1 = calls st ++ [HasUpdated true] ++ map UnregisterWith (subBuilders_ st)
    /\ results s1 = results st
    /\ subBuilders_ s1 = subBuilders_ st
    /\ updated_ (marketObserver_ s1) = false
    /\ match buildModel w config_ s1 with
       | (Ok _, s2) =>
           exists s3,
             rebuild w config_ st = (Ok tt, s3)
             /\ calls s3 = calls s2 ++ map RegisterWith (subBuilders_ s2)
             /\ wiring s3 = wiring s2
       | (Throw e, s2) => rebuild w config_ st = (Throw e, s2)
       end.
Proof.
  unfold rebuild. rewrite run_bind, hasUpdated_run.
  destruct (unregisterWithSubBuilders_run (resetObserver (logged [HasUpdated true] st)))
    as (s1 & Hrun & Hc & Hw).
  exists s1. rewrite run_bind, Hrun.
  injection Hw as Hres Hsub Hobs.
  split; [rewrite Hc; simpl; by rewrite <- app_assoc|].
  split; [done|]. split; [done|]. split; [by rewrite Hobs|].
  rewrite run_bind. destruct (buildModel w config_ s1) as [[[]|e] s2]; [|done].
  destruct (registerWithSubBuilders_run s2) as (s3 & Hrun3 & Hc3 & Hw3).
  by exists s3.
Qed.

(** How many calls of a log satisfy [p]. *)
Fixpoint countCalls (p : Call -> bool) (tr : list Call) : nat :=
  match tr with
  | [] => 0
  | c :: tr' => (if p c then 1 else 0) + countCalls p tr'
  end.

Definition isObserverQuery (c : Call) : bool :=
  match c with HasUpdated false => true | _ => false end.
Definition isObserverReset (c : Call) : bool :=
  match c with HasUpdated true => true | _ => false end.

Lemma countCalls_app p tr1 tr2 : countCalls p (tr1 ++ tr2) = countCalls p tr1 + countCalls p tr2.
Proof. induction tr1 as [|c tr1 IH]; simpl; [done|]. rewrite IH. lia. Qed.

Lemma countCalls_none p tr : Forall (fun c => p c = false) tr -> countCalls p tr = 0.
Proof. induction 1 as [|c tr Hc _ IH]; simpl; [done|]. by rewrite Hc, IH. Qed.

Lemma countCalls_map_none {A} p (f : A -> Call) (v : list A) :
  (forall x, p (f x) = false) -> countCalls p (map f v) = 0.
Proof. intros H. induction v as [|x v IH]; simpl; [done|]. by rewrite H, IH. Qed.

Section Lazy.

Variable w : World.
Variable config_ : CrossAssetModelData.

Lemma checkConfiguration_indep st st' :
  fst (checkConfiguration config_ st) = fst (checkConfiguration config_ st').
Proof.
  unfold checkConfiguration. rewrite !run_bind. unfold QL_REQUIRE.
  destruct (marketGiven config_); [|done]. simpl.
  destruct (0 <? size (irConfigs config_))%Z; [|done]. simpl.
  by destruct (size (irConfigs config_) =? Size_wrap (size (fxConfigs config_) + 1))%Z.
Qed.

Ltac allClean_leaf :=
  let H := fresh in
  unfold keeps, allClean; intros H; simpl in *;
  rewrite ?existsb_app, ?H; simpl;
  unfold subBuilderRequiresRecalibration; simpl; rewrite ?Z.eqb_refl; done.

(** Once the requirements of its first lines pass, the build leaves only
    sub-builders made from the live market. *)
Lemma buildModel_allClean st :
  fst (checkConfiguration config_ st) = Ok tt ->
  allClean w (snd (buildModel w config_ st)).
Proof.
  intros Hcheck. unfold buildModel. rewrite run_bind.
  destruct (checkConfiguration_state config_ st) as [Hst _].
  destruct (checkConfiguration config_ st) as [[u|e] st0]; [|done].
  simpl in Hst. subst st0.
  apply snd_bind_stable; [|intros; frame_steps; allClean_leaf].
  unfold buildSubModels. rewrite !run_bind_modify.
  match goal with
  | |- allClean w (snd (?m ?s)) =>
      assert (Hp : preserves (keeps (allClean w)) m) by (frame_steps; allClean_leaf);
      apply (Hp s)
  end.
  reflexivity.
Qed.

(** After a recalculation nothing is stale any more. *)
Lemma performCalculations_fresh st r st' :
  fst (checkConfiguration config_ st) = Ok tt ->
  performCalculations w config_ st = (r, st') ->
  stale w st' = false.
Proof.
  intros Hcheck. rewrite performCalculations_run.
  destruct (stale w st) eqn:Hstale.
  2:{ intros [= _ <-]. exact Hstale. }
  destruct (rebuild_run w config_ (logged (observerQuery w st) st))
    as (s1 & Hc1 & Hres1 & Hsub1 & Hflag1 & Hbuild).
  pose proof (buildModel_allClean s1) as Hclean.
  rewrite (checkConfiguration_indep s1 st) in Hclean. specialize (Hclean Hcheck).
  pose proof (buildModel_observer w config_ s1) as Hobs. unfold unchanged in Hobs.
  destruct (buildModel w config_ s1) as [[[]|e] s2]; simpl in Hclean, Hobs.
  - destruct Hbuild as (s3 & Hrun & Hc3 & Hw3). rewrite Hrun. intros [= _ <-].
    injection Hw3 as Hres3 Hsub3 Hobs3.
    unfold stale, subBuildersStale. rewrite Hsub3, Hobs3, Hobs, Hflag1.
    unfold allClean in Hclean. by rewrite Hclean.
  - rewrite Hbuild. intros [= _ <-].
    unfold stale, subBuildersStale. rewrite Hobs, Hflag1.
    unfold allClean in Hclean. by rewrite Hclean.
Qed.

(** The calls of one recalculation. *)
Lemma performCalculations_calls st r st' :
  performCalculations w config_ st = (r, st') ->
  exists tr,
    calls st' = calls st ++ tr
    /\ countCalls isObserverQuery tr = (if subBuildersStale w st then 0 else 1)
    /\ countCalls isObserverReset tr = (if stale w st then 1 else 0)
    /\ updated_ (marketObserver_ st') = (if stale w st then false
                                        else updated_ (marketObserver_ st)).
Proof.
  rewrite performCalculations_run.
  assert (Hq : countCalls isObserverQuery (observerQuery w st)
               = if subBuildersStale w st then 0 else 1)
    by (unfold observerQuery; by destruct (subBuildersStale w st)).
  assert (Hq' : countCalls isObserverReset (observerQuery w st) = 0)
    by (unfold observerQuery; by destruct (subBuildersStale w st)).
  destruct (stale w st) eqn:Hstale.
  2:{ intros [= _ <-]. exists (observerQuery w st). done. }
  destruct (rebuild_run w config_ (logged (observerQuery w st) st))
    as (s1 & Hc1 & Hres1 & Hsub1 & Hflag1 & Hbuild).
  pose proof (buildModel_observer w config_ s1) as Hobs. unfold unchanged in Hobs.
  pose proof (buildModel_calls_grow w config_ s1) as (trb & Hcb & Hall).
  assert (Hbq : countCalls isObserverQuery trb = 0).
  { apply countCalls_none. eapply Forall_impl; [exact Hall|].
    intros c [Hc _]. by destruct c. }
  assert (Hbr : countCalls isObserverReset trb = 0).
  { apply countCalls_none. eapply Forall_impl; [exact Hall|].
    intros c [Hc _]. by destruct c. }
  destruct (buildModel w config_ s1) as [[[]|e] s2]; simpl in Hobs, Hcb.
  - destruct Hbuild as (s3 & Hrun & Hc3 & Hw3). rewrite Hrun. intros [= _ <-].
    injection Hw3 as Hres3 Hsub3 Hobs3.
    exists (observerQuery w st ++ [HasUpdated true]
              ++ map UnregisterWith (subBuilders_ st)
              ++ trb ++ map RegisterWith (subBuilders_ s2)).
    split; [rewrite Hc3, Hcb, Hc1; simpl; by rewrite <- !app_assoc|].
    rewrite !countCalls_app, Hq, Hq', Hbq, Hbr.
    rewrite !countCalls_map_none by done. simpl.
    split; [lia|]. split; [lia|]. by rewrite Hobs3, Hobs.
  - rewrite Hbuild. intros [= _ <-].
    exists (observerQuery w st ++ [HasUpdated true]
              ++ map UnregisterWith (subBuilders_ st) ++ trb).
    split; [rewrite Hcb, Hc1; simpl; by rewrite <- !app_assoc|].
    rewrite !countCalls_app, Hq, Hq', Hbq, Hbr.
    rewrite !countCalls_map_none by done. simpl.
    split; [lia|]. split; [lia|]. by rewrite Hobs.
Qed.

End Lazy.

(** * Relinking to the same configuration twice *)

Section RelinkTwice.

Variable w : World.
Variable config_ : CrossAssetModelData.

(** A relink that has returned found every curve it asked the market for. *)
Lemma relinkAll_quiet configuration st st' :
  relinkAll w config_ configuration st = (Ok tt, st') ->
  forall i p, irParametrizations w config_ !! i = Some p ->
    raises w (DiscountCurve (code p) configuration) = false.
Proof.
  intros Hrun.
  assert (H : hoare (fun _ => True) (relinkAll w config_ configuration)
                (fun _ _ => forall i p, i < 0 + length (irParametrizations w config_) ->
                   irParametrizations w config_ !! i = Some p ->
                   raises w (DiscountCurve (code p) configuration) = false)
                (fun _ _ => True)).
  { eapply hoare_weaken.
    - apply (hoare_for_each
               (fun k _ => forall i p, i < k -> irParametrizations w config_ !! i = Some p ->
                  raises w (DiscountCurve (code p) configuration) = false)
               (fun _ _ => True) (relink w configuration) (irParametrizations w config_) 0).
      intros j x Hj. apply hoare_intro. intros st0 Hprev. unfold relink.
      rewrite run_bind, call_run.
      destruct (raises w (DiscountCurve (code x) configuration)) eqn:Hr; [done|].
      rewrite linkTo_run. destruct (bool_decide _); [|done].
      intros i p Hi Hp. destruct (decide (i = 0 + j)) as [->|Hne].
      + simpl in Hp. rewrite Hj in Hp. by injection Hp as <-.
      + apply (Hprev i p); [lia|done].
    - intros st0 _ i p Hi. lia.
    - intros a st0 H0. exact H0.
    - done. }
  pose proof (hoare_elim _ _ _ _ st _ _ H I Hrun) as Hq. simpl in Hq.
  intros i p Hp. apply (Hq i p); [|done]. by apply lookup_lt_Some in Hp.
Qed.

Lemma relinkAll_links configuration st st' :
  relinkAll w config_ configuration st = (Ok tt, st') ->
  linked w config_ configuration st'.
Proof.
  intros Hrun.
  pose proof (hoare_elim _ _ _ _ st _ _
                (relinkAll_links_hoare w config_ (fun _ => True) configuration (calls st))
                (conj eq_refl I) Hrun) as Hq.
  simpl in Hq. by destruct Hq as (_ & _ & ?).
Qed.

(** On links that are already those of [configuration], and with the same
    curves in the market, a relink changes no link and nothing of the
    results. *)
Lemma relinkAll_noop configuration st :
  linked w config_ configuration st ->
  (forall i p, irParametrizations w config_ !! i = Some p ->
     raises w (DiscountCurve (code p) configuration) = false) ->
  exists st',
    relinkAll w config_ configuration st = (Ok tt, st')
    /\ irDiscountCurves st' = irDiscountCurves st
    /\ results st' = results st.
Proof.
  intros Hl Hquiet.
  assert (H : hoare (fun s => irDiscountCurves s = irDiscountCurves st /\ results s = results st)
                (relinkAll w config_ configuration)
                (fun _ s => irDiscountCurves s = irDiscountCurves st /\ results s = results st)
                (fun _ _ => False)).
  { eapply hoare_weaken.
    - apply (hoare_for_each
               (fun _ s => irDiscountCurves s = irDiscountCurves st /\ results s = results st)
               (fun _ _ => False) (relink w configuration) (irParametrizations w config_) 0).
      intros j x Hj. apply hoare_intro. intros s [Hcurves Hres]. unfold relink.
      rewrite run_bind, call_run, (Hquiet j x Hj).
      rewrite linkTo_run. cbn [logged set_calls irDiscountCurves].
      assert (Hlk : irDiscountCurves s !! j = Some (discountCurve w (code x) configuration)).
      { rewrite Hcurves. apply (Hl j x); [by apply lookup_lt_Some in Hj|done]. }
      replace (bool_decide (j < length (irDiscountCurves s))) with true
        by (symmetry; apply bool_decide_eq_true; by apply lookup_lt_Some in Hlk).
      simpl. split; [|done]. rewrite list_insert_id by done. done.
    - done.
    - intros a s H0. exact H0.
    - done. }
  specialize (H st (conj eq_refl eq_refl)).
  destruct (relinkAll w config_ configuration st) as [[[]|e] st']; [|done].
  exists st'. by destruct H.
Qed.

(** The inflation stage relinks nothing. *)
Lemma infStage_curves :
  preserves (unchanged irDiscountCurves)
            (for_each (calibrateInf w config_) 0 (infConfigs config_)).
Proof. frame_steps; reflexivity. Qed.

(** The last relink of the build repeats the one before the inflation
    stage: it changes no link. *)
Lemma final_relink_idempotent s s1 r s2 :
  relinkAll w config_ (configurationFinalModel_ config_) s = (Ok tt, s1) ->
  for_each (calibrateInf w config_) 0 (infConfigs config_) s1 = (r, s2) ->
  exists s3,
    relinkAll w config_ (configurationFinalModel_ config_) s2 = (Ok tt, s3)
    /\ irDiscountCurves s3 = irDiscountCurves s2.
Proof.
  intros Hfirst Hinf.
  pose proof (relinkAll_links _ _ _ Hfirst) as Hl.
  pose proof (relinkAll_quiet _ _ _ Hfirst) as Hq.
  pose proof (infStage_curves s1) as Hc. rewrite Hinf in Hc. unfold unchanged in Hc. simpl in Hc.
  destruct (relinkAll_noop (configurationFinalModel_ config_) s2) as (s3 & Hrun & Hcurves & _).
  - intros i p Hi Hp. rewrite Hc. by apply Hl.
  - exact Hq.
  - by exists s3.
Qed.

End RelinkTwice.

(** * A two-currency example

    Rates in EUR (domestic) and USD, the USD/EUR FX factor in Bootstrap mode
    on a piecewise volatility, one equity, one inflation index with both
    volatility and reversion asked for in Bootstrap mode.  Every
    calibration leaves the residual [residual]; no collaborator throws. *)

Definition emptyBuilder : Builder :=
  {| results := {| model_ := None; swaptionCalibrationErrors_ := [];
                   fxOptionCalibrationErrors_ := []; eqOptionCalibrationErrors_ := [];
                   infCapFloorCalibrationErrors_ := [] |};
     baskets := {| swaptionBaskets_ := []; fxOptionBaskets_ := []; eqOptionBaskets_ := [];
                   infCapFloorBaskets_ := [] |};
     subBuilders_ := []; observables_ := [];
     marketObserver_ := {| observed := []; updated_ := false |};
     irDiscountCurves := []; calls := [] |}.

Definition exampleWorld (quotes : Z) (residual : Real) : World :=
  {| raises := fun _ => false;
     parseCurrency := fun s => {| code := s |};
     marketData := fun _ _ _ => quotes;
     parametrizationCurrency := fun t i =>
       match t, i with
       | IR, 0 => {| code := "EUR"%string |}
       | _, _ => {| code := "USD"%string |}
       end;
     builderBasket := fun _ _ => [1%Z; 2%Z];
     builderError := fun _ => 0.125%float;
     builderDiscountCurve := fun _ => 0%Z;
     correlationMatrix := fun _ _ _ _ => [];
     discountCurve := fun _ configuration => Z.of_nat (String.length configuration);
     baseCPI := fun _ _ => 100%float;
     infdkName := fun _ => "EUHICPXT"%string;
     ccyIndex := fun c => if String.eqb (code c) "EUR"%string then 0 else 1;
     logCalibrationErrors := fun _ _ => residual |}.

Definition exampleConfig (fxConfigs' : list FxBsData.t) (eqType : CalibrationType.t)
    (tolerance : Real) : CrossAssetModelData :=
  {| marketGiven := true;
     irConfigs := [ {| IrLgmData.ccy := "EUR"%string |}; {| IrLgmData.ccy := "USD"%string |} ];
     fxConfigs := fxConfigs';
     eqConfigs :=
       [ {| EqBsData.eqName := "SP5"%string; EqBsData.currency := "USD"%string;
            EqBsData.calibrationType := eqType; EqBsData.calibrateSigma := true;
            EqBsData.sigmaParamType := ParamType.Piecewise |} ];
     infConfigs :=
       [ {| InfDkData.infIndex := "EUHICPXT"%string;
            InfDkData.calibrationType := CalibrationType.Bootstrap;
            InfDkData.calibrateA := true; InfDkData.calibrateH := true;
            InfDkData.aParamType := ParamType.Piecewise;
            InfDkData.hParamType := ParamType.Piecewise |} ];
     bootstrapTolerance := tolerance;
     correlations := [ (("IR:EUR"%string, "IR:USD"%string), 7) ];
     configurationLgmCalibration_ := "lgm"%string;
     configurationFxCalibration_ := "fx"%string;
     configurationEqCalibration_ := "equity"%string;
     configurationInfCalibration_ := "inflation"%string;
     configurationFinalModel_ := "final"%string |}.

Definition usdEur (foreign : string) : FxBsData.t :=
  {| FxBsData.foreignCcy := foreign; FxBsData.domesticCcy := "EUR"%string;
     FxBsData.calibrationType := CalibrationType.Bootstrap;
     FxBsData.calibrateSigma := true;
     FxBsData.sigmaParamType := ParamType.Piecewise |}.

(** Consistent counts, residual 1/4 against tolerance 1/2. *)
Definition goodConfig : CrossAssetModelData :=
  exampleConfig [usdEur "USD"%string] CalibrationType.Global 0.5%float.
Definition goodWorld : World := exampleWorld 0 0.25%float.

(** The builder once its constructor has run. *)
Definition builtBuilder : Builder := snd (constructor goodWorld goodConfig emptyBuilder).

(** The calls a member function added to the log. *)
Definition newCalls (st st' : Builder) : list Call := drop (length (calls st)) (calls st').

(** "The magnitude of the error exceeds the tolerance", as the claim on the
    gate words it. *)
Definition exceedsTolerance (e tolerance : Real) : bool :=
  PrimFloat.ltb tolerance (PrimFloat.abs e).

Lemma builtBuilder_ok : fst (constructor goodWorld goodConfig emptyBuilder) = Ok tt.
Proof. vm_compute. reflexivity. Qed.

(** * The claims *)

(** C1.  When the number of FX configurations is not the number of rate
    configurations minus one, [buildModel] fails with a configuration error
    in the very state it was started in: nothing has been built and no
    calibration has run.  The requirement on the assembled parametrization
    vectors fails in the same way.  On consistent counts both requirements
    pass and the build goes on to construct the first rate sub-builder. *)
Theorem C1_factor_count_requirement (w : World) (config_ : CrossAssetModelData) (st : Builder) :
  fits_Size (irConfigs config_) ->
  fits_Size (fxConfigs config_) ->
  ((Z.of_nat (length (fxConfigs config_)) <> Z.of_nat (length (irConfigs config_)) - 1)%Z ->
     (exists e, buildModel w config_ st = (Throw e, st)
                /\ error_class e = ConfigurationError)
     /\ (irConfigs config_ <> [] ->
         assembleAndCalibrate w config_ st = (Throw IrFxParametrizationSizeMismatch, st)))
  /\ ((Z.of_nat (length (fxConfigs config_)) = Z.of_nat (length (irConfigs config_)) - 1)%Z ->
      marketGiven config_ = true ->
      checkConfiguration config_ st = (Ok tt, st)
      /\ checkParametrizations (fxParametrizations w config_) (irParametrizations w config_) st
         = (Ok tt, st)
      /\ exists ir rest tr,
           irConfigs config_ = ir :: rest /\
           calls (snd (buildModel w config_ st)) =
             calls st ++ NewLgmBuilder 0 (IrLgmData.ccy ir)
                           (configurationLgmCalibration_ config_) :: tr).
Proof.
  intros Hir Hfx. split.
  - intros Hne. split.
    + by apply buildModel_count_mismatch.
    + intros Hnil. by apply assembleAndCalibrate_count_mismatch.
  - intros Heq Hm.
    assert (Hnil : irConfigs config_ <> []).
    { intros Hnil. rewrite Hnil in Heq. simpl in Heq. lia. }
    split; [|split].
    + rewrite (checkConfiguration_run config_ Hir Hfx), Hm.
      replace (0 <? Z.of_nat (length (irConfigs config_)))%Z with true
        by (symmetry; apply Z.ltb_lt; lia).
      by replace (Z.of_nat (length (fxConfigs config_))
                  =? Z.of_nat (length (irConfigs config_)) - 1)%Z with true
        by (symmetry; apply Z.eqb_eq; lia).
    + rewrite (checkParametrizations_run w config_ Hir Hfx) by done.
      by replace (Z.of_nat (length (fxConfigs config_))
                  =? Z.of_nat (length (irConfigs config_)) - 1)%Z with true
        by (symmetry; apply Z.eqb_eq; lia).
    + by apply buildModel_count_ok.
Qed.

(** Two rate currencies and no FX factor: the build stops before anything
    is made. *)
Lemma C1_factor_count_requirement_witness :
  exists e,
    buildModel goodWorld (exampleConfig [] CalibrationType.Global 0.5%float) emptyBuilder
      = (Throw e, emptyBuilder)
    /\ error_class e = ConfigurationError.
Proof.
  assert (Hir : fits_Size (irConfigs (exampleConfig [] CalibrationType.Global 0.5%float)))
    by reflexivity.
  assert (Hfx : fits_Size (fxConfigs (exampleConfig [] CalibrationType.Global 0.5%float)))
    by reflexivity.
  apply (C1_factor_count_requirement goodWorld _ emptyBuilder Hir Hfx).
  simpl. lia.
Defined.

(** An FX factor in Bootstrap mode that does not ask for its volatility to
    be fitted, and a negative tolerance. *)
Definition skippedFxConfig : CrossAssetModelData :=
  {| marketGiven := true;
     irConfigs := [ {| IrLgmData.ccy := "EUR"%string |}; {| IrLgmData.ccy := "USD"%string |} ];
     fxConfigs :=
       [ {| FxBsData.foreignCcy := "USD"%string; FxBsData.domesticCcy := "EUR"%string;
            FxBsData.calibrationType := CalibrationType.Bootstrap;
            FxBsData.calibrateSigma := false;
            FxBsData.sigmaParamType := ParamType.Piecewise |} ];
     eqConfigs := [];
     infConfigs := [];
     bootstrapTolerance := (-0.5)%float;
     correlations := [];
     configurationLgmCalibration_ := "lgm"%string;
     configurationFxCalibration_ := "fx"%string;
     configurationEqCalibration_ := "equity"%string;
     configurationInfCalibration_ := "inflation"%string;
     configurationFinalModel_ := "final"%string |}.

(** C2, as stated, fails in two ways.  At the boundary: with residual 1/2
    and tolerance 1/2 the error of the FX factor does not exceed the
    tolerance, yet the build fails with the tolerance error, because the
    gate requires the magnitude to be strictly below the tolerance.  On a
    skipped factor: the FX factor of [skippedFxConfig] is in Bootstrap mode
    and its recorded error, 0, exceeds the tolerance -1/2, yet the build
    returns, because a factor that is not calibrated is not gated. *)
Lemma C2_counterexample :
  ~ (fst (buildModel (exampleWorld 0 0.5%float) goodConfig emptyBuilder)
       = Throw (CalibrationErrorExceedsTolerance FX 0)
     <-> exceedsTolerance (logCalibrationErrors (exampleWorld 0 0.5%float) FX 0)
                          (bootstrapTolerance goodConfig) = true)
  /\ ~ ((exists e, fst (buildModel goodWorld skippedFxConfig emptyBuilder) = Throw e)
        <-> exists e,
              fxOptionCalibrationErrors_
                (results (snd (buildModel goodWorld skippedFxConfig emptyBuilder))) !! 0
              = Some e
              /\ exceedsTolerance e (bootstrapTolerance skippedFxConfig) = true).
Proof.
  split.
  - intros [H _].
    assert (Hfail : fst (buildModel (exampleWorld 0 0.5%float) goodConfig emptyBuilder)
                    = Throw (CalibrationErrorExceedsTolerance FX 0))
      by (vm_compute; reflexivity).
    specialize (H Hfail). vm_compute in H. discriminate.
  - intros [_ H].
    destruct H as [e He].
    + exists 0%float. split; vm_compute; reflexivity.
    + vm_compute in He. discriminate.
Qed.

(** C2, amended.  (1) A build that fails with the tolerance error for
    factor [j] of class [t] does so for an FX, equity or inflation factor
    that is calibrated in Bootstrap mode, and the error just recorded for it
    is not strictly below the tolerance in magnitude; so no rate factor and
    no factor in another mode ever fails this way.  (2) A build that
    returns has every calibrated factor within its gate.  (3) With
    collaborators that do not throw, each stage fails on a calibrated
    factor exactly when the gate does not pass, and then with the tolerance
    error.  (4) The gate does not pass exactly when the mode is Bootstrap
    and the magnitude of the error is not strictly below the tolerance.
    (5) Collecting the errors of the rate builders never raises the
    tolerance error. *)
Theorem C2_bootstrap_tolerance_gate (w : World) (config_ : CrossAssetModelData) (st : Builder) :
  (forall t j st',
     buildModel w config_ st = (Throw (CalibrationErrorExceedsTolerance t j), st') ->
     bootstrapCalibrated config_ t j /\
     errors t (results st') !! j = Some (logCalibrationErrors w t j) /\
     fabs_below (logCalibrationErrors w t j) (bootstrapTolerance config_) = false)
  /\ (forall st', buildModel w config_ st = (Ok tt, st') -> gatesPassed w config_)
  /\ ((forall c, raises w c = false) ->
      (forall i fx,
         fxCalibrated fx = true ->
         i < length (fxOptionBaskets_ (baskets st)) ->
         i < length (fxOptionCalibrationErrors_ (results st)) ->
         fst (calibrateFx w config_ i fx st) =
           if gatePasses config_ (FxBsData.calibrationType fx) (logCalibrationErrors w FX i)
           then Ok tt else Throw (CalibrationErrorExceedsTolerance FX i))
      /\ (forall i eq,
            eqCalibrated eq = true ->
            i < length (eqOptionBaskets_ (baskets st)) ->
            i < length (eqOptionCalibrationErrors_ (results st)) ->
            fst (calibrateEq w config_ i eq st) =
              if gatePasses config_ (EqBsData.calibrationType eq) (logCalibrationErrors w EQ i)
              then Ok tt else Throw (CalibrationErrorExceedsTolerance EQ i))
      /\ (forall i inf,
            infCalibrated inf = true ->
            i < length (infCapFloorBaskets_ (baskets st)) ->
            i < length (infCapFloorCalibrationErrors_ (results st)) ->
            fst (calibrateInf w config_ i inf st) =
              if gatePasses config_ (InfDkData.calibrationType inf)
                   (logCalibrationErrors w INF i)
              then Ok tt else Throw (CalibrationErrorExceedsTolerance INF i)))
  /\ (forall ct e,
        gatePasses config_ ct e = false <->
        ct = CalibrationType.Bootstrap /\ fabs_below e (bootstrapTolerance config_) = false)
  /\ (forall i ir t j, fst (collectIrError w i ir st) <> Throw (CalibrationErrorExceedsTolerance t j)).
Proof.
  split; [|split; [|split; [|split]]].
  - intros t j st' Hrun. by apply (buildModel_tolerance w config_ st st').
  - intros st' Hrun. by destruct (buildModel_returns w config_ st st' Hrun) as (_ & _ & ? & _).
  - intros Hquiet. split; [|split].
    + intros i fx Hcal Hb He. by apply calibrateFx_quiet.
    + intros i eq Hcal Hb He. by apply calibrateEq_quiet.
    + intros i inf Hcal Hb He. by apply calibrateInf_quiet.
  - intros ct e. unfold gatePasses. destruct ct; intuition congruence.
  - intros i ir t j Hrun.
    pose proof (collectIrError_hoare w (fun _ => True) i ir (calls st) st (conj eq_refl I)) as H.
    destruct (collectIrError w i ir st) as [[u|e] st']; [done|].
    simpl in Hrun. injection Hrun as ->. by destruct (H t j).
Qed.

(** At the boundary (residual 1/2, tolerance 1/2) the build fails for the
    FX factor, which is calibrated in Bootstrap mode; and so does its stage
    when run again on the built builder. *)
Lemma C2_bootstrap_tolerance_gate_witness :
  (bootstrapCalibrated goodConfig FX 0 /\
   fabs_below (logCalibrationErrors (exampleWorld 0 0.5%float) FX 0)
              (bootstrapTolerance goodConfig) = false)
  /\ fst (calibrateFx (exampleWorld 0 0.5%float) goodConfig 0 (usdEur "USD"%string)
            builtBuilder)
     = Throw (CalibrationErrorExceedsTolerance FX 0).
Proof.
  destruct (C2_bootstrap_tolerance_gate (exampleWorld 0 0.5%float) goodConfig builtBuilder)
    as (_ & _ & Hstage & _).
  destruct (C2_bootstrap_tolerance_gate (exampleWorld 0 0.5%float) goodConfig emptyBuilder)
    as [H _].
  split.
  - destruct (H FX 0 (snd (buildModel (exampleWorld 0 0.5%float) goodConfig emptyBuilder)))
      as (Hb & _ & Hg).
    + vm_compute. reflexivity.
    + split; [exact Hb|exact Hg].
  - destruct (Hstage (fun _ => eq_refl)) as (Hfx & _).
    rewrite (Hfx 0 (usdEur "USD"%string)).
    + vm_compute. reflexivity.
    + reflexivity.
    + vm_compute. lia.
    + vm_compute. lia.
Defined.

(** C3.  A build that returns has made exactly the calls of the cascade, in
    its fixed order: the sub-builders (rates, FX, equity, inflation), the
    correlation matrix, the joint model, the errors of the rate builders,
    the relink to the FX configuration and the FX calibrations, the relink
    to the equity configuration and the equity calibrations, the relink to
    the final configuration and the inflation calibrations, the final relink
    and, last, the refresh of the joint model.  Every rate factor then
    discounts on the curve of the final configuration, and the final relink
    has changed no link that the relink before the inflation stage set. *)
Theorem C3_cascade_order (w : World) (config_ : CrossAssetModelData) (st st' : Builder) :
  buildModel w config_ st = (Ok tt, st') ->
  calls st' = calls st ++ buildCalls w config_
  /\ buildCalls w config_ =
       (concat (imap (irBuildCalls config_) (irConfigs config_))
        ++ concat (imap (fxBuildCalls config_) (fxConfigs config_))
        ++ concat (imap (eqBuildCalls config_) (eqConfigs config_))
        ++ concat (imap (infBuildCalls config_) (infConfigs config_)))
       ++ correlationCalls config_
       ++ [NewCrossAssetModel (allParametrizations w config_)]
       ++ irErrorCalls config_
       ++ relinkCalls w config_ (configurationFxCalibration_ config_)
       ++ fxCalibrationCalls w config_
       ++ relinkCalls w config_ (configurationEqCalibration_ config_)
       ++ eqCalibrationCalls w config_
       ++ relinkCalls w config_ (configurationFinalModel_ config_)
       ++ infCalibrationCalls w config_
       ++ relinkCalls w config_ (configurationFinalModel_ config_)
       ++ [ModelUpdate]
  /\ last (calls st') = Some ModelUpdate
  /\ (forall i p, irParametrizations w config_ !! i = Some p ->
        irDiscountCurves st' !! i
        = Some (discountCurve w (code p) (configurationFinalModel_ config_)))
  /\ (forall s s1 r s2,
        relinkAll w config_ (configurationFinalModel_ config_) s = (Ok tt, s1) ->
        for_each (calibrateInf w config_) 0 (infConfigs config_) s1 = (r, s2) ->
        exists s3,
          relinkAll w config_ (configurationFinalModel_ config_) s2 = (Ok tt, s3)
          /\ irDiscountCurves s3 = irDiscountCurves s2).
Proof.
  intros Hrun.
  destruct (buildModel_returns w config_ st st' Hrun) as (Hcalls & _ & _ & Hl).
  split; [exact Hcalls|]. split; [reflexivity|]. split; [|split].
  - rewrite Hcalls. unfold buildCalls, cascadeCalls. rewrite !app_assoc. apply last_snoc.
  - intros i p Hp. apply (Hl i p); [|done].
    by apply lookup_lt_Some in Hp.
  - intros s s1 r s2. apply final_relink_idempotent.
Qed.

(** The example builds, and its log is the cascade. *)
Lemma C3_cascade_order_witness :
  calls (snd (buildModel goodWorld goodConfig emptyBuilder))
  = calls emptyBuilder ++ buildCalls goodWorld goodConfig.
Proof.
  apply (C3_cascade_order goodWorld goodConfig emptyBuilder
           (snd (buildModel goodWorld goodConfig emptyBuilder))).
  vm_compute. reflexivity.
Defined.

(** What an accessor returns once [calculate] has run. *)
Lemma accessor_run {A} (w : World) (config_ : CrossAssetModelData) (f : Builder -> A) st :
  bind (calculate w config_) (fun _ => gets f) st =
  match performCalculations w config_ st with
  | (Ok _, s) => (Ok (f s), s)
  | (Throw e, s) => (Throw e, s)
  end.
Proof.
  unfold calculate. rewrite run_bind. by destruct (performCalculations w config_ st) as [[[]|e] s].
Qed.

(** C4.  Recalculation is pulled by the accessors.  A quote notification
    only raises the observer's flag: results, sub-builders and call log stay
    as they are.  When nothing is stale, each of the five accessors returns
    the cached value and leaves the state as it was but for the logged
    observer query.  When a sub-builder requires recalibration or the
    observer reports a change, the access resets the observer, unregisters
    from the current sub-builders, runs [buildModel], and - when the build
    returns - registers with the new sub-builders and returns the rebuilt
    value; a failure of the build propagates. *)
Theorem C4_pull_based_recalculation (w : World) (config_ : CrossAssetModelData) (st : Builder) :
  (results (quoteChanged st) = results st
   /\ subBuilders_ (quoteChanged st) = subBuilders_ st
   /\ calls (quoteChanged st) = calls st)
  /\ (stale w st = false ->
      let st' := logged [HasUpdated false] st in
      results st' = results st
      /\ performCalculations w config_ st = (Ok tt, st')
      /\ model w config_ st = (Ok (model_ (results st)), st')
      /\ swaptionCalibrationErrors w config_ st
         = (Ok (swaptionCalibrationErrors_ (results st)), st')
      /\ fxOptionCalibrationErrors w config_ st
         = (Ok (fxOptionCalibrationErrors_ (results st)), st')
      /\ eqOptionCalibrationErrors w config_ st
         = (Ok (eqOptionCalibrationErrors_ (results st)), st')
      /\ infCapFloorCalibrationErrors w config_ st
         = (Ok (infCapFloorCalibrationErrors_ (results st)), st'))
  /\ (stale w st = true ->
      exists s1,
        calls s1 = calls st ++ observerQuery w st ++ [HasUpdated true]
                     ++ map UnregisterWith (subBuilders_ st)
        /\ results s1 = results st
        /\ match buildModel w config_ s1 with
           | (Ok _, s2) =>
               exists s3,
                 calls s3 = calls s2 ++ map RegisterWith (subBuilders_ s2)
                 /\ results s3 = results s2
                 /\ subBuilders_ s3 = subBuilders_ s2
                 /\ performCalculations w config_ st = (Ok tt, s3)
                 /\ model w config_ st = (Ok (model_ (results s2)), s3)
                 /\ swaptionCalibrationErrors w config_ st
                    = (Ok (swaptionCalibrationErrors_ (results s2)), s3)
                 /\ fxOptionCalibrationErrors w config_ st
                    = (Ok (fxOptionCalibrationErrors_ (results s2)), s3)
                 /\ eqOptionCalibrationErrors w config_ st
                    = (Ok (eqOptionCalibrationErrors_ (results s2)), s3)
                 /\ infCapFloorCalibrationErrors w config_ st
                    = (Ok (infCapFloorCalibrationErrors_ (results s2)), s3)
           | (Throw e, s2) =>
               performCalculations w config_ st = (Throw e, s2)
               /\ model w config_ st = (Throw e, s2)
               /\ swaptionCalibrationErrors w config_ st = (Throw e, s2)
               /\ fxOptionCalibrationErrors w config_ st = (Throw e, s2)
               /\ eqOptionCalibrationErrors w config_ st = (Throw e, s2)
               /\ infCapFloorCalibrationErrors w config_ st = (Throw e, s2)
           end).
Proof.
  split; [done|]. split.
  - intros Hstale. cbv zeta.
    assert (Hq : observerQuery w st = [HasUpdated false]).
    { unfold observerQuery. unfold stale in Hstale.
      by destruct (subBuildersStale w st). }
    assert (Hrun : performCalculations w config_ st = (Ok tt, logged [HasUpdated false] st))
      by (by rewrite performCalculations_run, Hstale, Hq).
    split; [done|]. split; [done|].
    unfold model, swaptionCalibrationErrors, fxOptionCalibrationErrors,
      eqOptionCalibrationErrors, infCapFloorCalibrationErrors.
    rewrite !accessor_run, Hrun. done.
  - intros Hstale.
    destruct (rebuild_run w config_ (logged (observerQuery w st) st))
      as (s1 & Hc1 & Hres1 & Hsub1 & Hflag1 & Hbuild).
    exists s1. split; [rewrite Hc1; simpl; by rewrite <- !app_assoc|]. split; [done|].
    unfold model, swaptionCalibrationErrors, fxOptionCalibrationErrors,
      eqOptionCalibrationErrors, infCapFloorCalibrationErrors.
    rewrite !accessor_run, performCalculations_run, Hstale.
    destruct (buildModel w config_ s1) as [[[]|e] s2].
    + destruct Hbuild as (s3 & Hrun & Hc3 & Hw3). injection Hw3 as Hres3 Hsub3 Hobs3.
      exists s3. rewrite Hrun, Hres3. done.
    + rewrite Hbuild. done.
Qed.

(** The built example, untouched: the model accessor returns the cached
    handle. *)
Lemma C4_pull_based_recalculation_witness :
  model goodWorld goodConfig builtBuilder
  = (Ok (model_ (results builtBuilder)), logged [HasUpdated false] builtBuilder).
Proof.
  destruct (C4_pull_based_recalculation goodWorld goodConfig builtBuilder) as (_ & H & _).
  apply H. vm_compute. reflexivity.
Defined.

(** C5.  For a builder whose configuration passes the requirements of the
    first lines of [buildModel] (as that of every constructed builder does):
    after one recalculation, whatever it did, a second one in the same
    world with no quote notification in between finds nothing stale; it
    returns without a build, leaves model and error vectors as they are,
    adds nothing to the log but its observer query, and the accessors
    return the cached values. *)
Theorem C5_recalculation_is_idempotent (w : World) (config_ : CrossAssetModelData)
    (st : Builder) (r : Result unit) (st1 : Builder) :
  fst (checkConfiguration config_ st) = Ok tt ->
  performCalculations w config_ st = (r, st1) ->
  stale w st1 = false
  /\ performCalculations w config_ st1 = (Ok tt, logged [HasUpdated false] st1)
  /\ results (logged [HasUpdated false] st1) = results st1
  /\ newCalls st1 (snd (performCalculations w config_ st1)) = [HasUpdated false]
  /\ model w config_ st1 = (Ok (model_ (results st1)), logged [HasUpdated false] st1)
  /\ swaptionCalibrationErrors w config_ st1
     = (Ok (swaptionCalibrationErrors_ (results st1)), logged [HasUpdated false] st1)
  /\ fxOptionCalibrationErrors w config_ st1
     = (Ok (fxOptionCalibrationErrors_ (results st1)), logged [HasUpdated false] st1)
  /\ eqOptionCalibrationErrors w config_ st1
     = (Ok (eqOptionCalibrationErrors_ (results st1)), logged [HasUpdated false] st1)
  /\ infCapFloorCalibrationErrors w config_ st1
     = (Ok (infCapFloorCalibrationErrors_ (results st1)), logged [HasUpdated false] st1).
Proof.
  intros Hcheck Hrun.
  pose proof (performCalculations_fresh w config_ st r st1 Hcheck Hrun) as Hfresh.
  assert (Hq : observerQuery w st1 = [HasUpdated false]).
  { unfold observerQuery. unfold stale in Hfresh. by destruct (subBuildersStale w st1). }
  assert (Hrun1 : performCalculations w config_ st1 = (Ok tt, logged [HasUpdated false] st1))
    by (by rewrite performCalculations_run, Hfresh, Hq).
  split; [done|]. split; [done|]. split; [done|]. split.
  - rewrite Hrun1. unfold newCalls. simpl. by rewrite drop_app_length.
  - unfold model, swaptionCalibrationErrors, fxOptionCalibrationErrors,
      eqOptionCalibrationErrors, infCapFloorCalibrationErrors.
    rewrite !accessor_run, Hrun1. done.
Qed.

(** A rebuild after a change of market data, then a second recalculation:
    the second only asks the observer. *)
Lemma C5_recalculation_is_idempotent_witness :
  let st1 := snd (performCalculations (exampleWorld 1 0.25%float) goodConfig builtBuilder) in
  performCalculations (exampleWorld 1 0.25%float) goodConfig st1
  = (Ok tt, logged [HasUpdated false] st1).
Proof.
  cbv zeta.
  apply (C5_recalculation_is_idempotent (exampleWorld 1 0.25%float) goodConfig builtBuilder
           (fst (performCalculations (exampleWorld 1 0.25%float) goodConfig builtBuilder))).
  - vm_compute. reflexivity.
  - apply surjective_pairing.
Defined.

(** C6, as stated, fails in three ways.  A decision that a stale sub-builder
    settles does not ask the observer (the reset that follows discards its
    answer); a decision that the observer settles calls it twice, once to
    ask and once to reset; a decision not to rebuild resets nothing. *)
Lemma C6_counterexample :
  (subBuildersStale (exampleWorld 1 0.25%float) builtBuilder = true
   /\ countCalls isObserverQuery
        (newCalls builtBuilder
           (snd (performCalculations (exampleWorld 1 0.25%float) goodConfig builtBuilder))) = 0)
  /\ countCalls isObserverCall
        (newCalls (quoteChanged builtBuilder)
           (snd (performCalculations goodWorld goodConfig (quoteChanged builtBuilder)))) = 2
  /\ countCalls isObserverReset
        (newCalls builtBuilder
           (snd (performCalculations goodWorld goodConfig builtBuilder))) = 0.
Proof. vm_compute. done. Qed.

(** C6, amended.  In one recalculation the observer is asked, without
    reset, exactly once when no sub-builder requires recalibration and not
    at all otherwise; its flag is reset exactly once when the builder is
    stale and not at all otherwise; afterwards the flag is clear, so the
    next decision - in any world - reports what the sub-builders report and
    nothing from the observer. *)
Theorem C6_observer_calls_per_decision (w : World) (config_ : CrossAssetModelData)
    (st : Builder) (r : Result unit) (st' : Builder) :
  performCalculations w config_ st = (r, st') ->
  (exists tr,
     calls st' = calls st ++ tr
     /\ countCalls isObserverQuery tr = (if subBuildersStale w st then 0 else 1)
     /\ countCalls isObserverReset tr = (if stale w st then 1 else 0))
  /\ updated_ (marketObserver_ st') = false
  /\ forall w', fst (requiresRecalibration w' st') = Ok (subBuildersStale w' st').
Proof.
  intros Hrun.
  destruct (performCalculations_calls w config_ st r st' Hrun) as (tr & Hc & Hq & Hr & Hflag).
  assert (Hclear : updated_ (marketObserver_ st') = false).
  { rewrite Hflag. destruct (stale w st) eqn:Hs; [done|].
    unfold stale in Hs. by apply orb_false_elim in Hs as [_ ?]. }
  split; [by exists tr|]. split; [done|].
  intros w'. rewrite requiresRecalibration_run. simpl. unfold stale.
  by rewrite Hclear, orb_false_r.
Qed.

(** After a quote notification: one query, one reset, flag clear. *)
Lemma C6_observer_calls_per_decision_witness :
  updated_ (marketObserver_
              (snd (performCalculations goodWorld goodConfig (quoteChanged builtBuilder))))
  = false.
Proof.
  apply (C6_observer_calls_per_decision goodWorld goodConfig (quoteChanged builtBuilder)
           (fst (performCalculations goodWorld goodConfig (quoteChanged builtBuilder)))).
  apply surjective_pairing.
Defined.

(** The example with an equity factor of calibration type None that asks
    for its volatility to be fitted. *)
Definition noneEquityConfig : CrossAssetModelData :=
  exampleConfig [usdEur "USD"%string] CalibrationType.None 0.5%float.

(** C9, as stated, fails on the inflation stage.  The inflation factor of
    the example is in Bootstrap mode with piecewise volatility and
    reversion and asks for both: the build runs the joint [calibrate] on
    it, and neither iterative routine.  (In the same build the equity
    factor, of type None, is not skipped: the equity stage looks at
    [calibrateSigma] only.) *)
Lemma C9_counterexample :
  let log := calls (snd (buildModel goodWorld noneEquityConfig emptyBuilder)) in
  fst (buildModel goodWorld noneEquityConfig emptyBuilder) = Ok tt
  /\ In (Calibrate (calibrate 0)) log
  /\ ~ In (Calibrate (calibrateInfDkVolatilitiesIterative 0)) log
  /\ ~ In (Calibrate (calibrateInfDkReversionsIterative 0)) log
  /\ In (Calibrate (calibrateBsVolatilitiesGlobal EQ 0)) log.
Proof.
  cbv zeta. split; [vm_compute; reflexivity|].
  split; [vm_compute; tauto|].
  split; [vm_compute; intros H; repeat (destruct H as [H|H]; [discriminate|]); exact H|].
  split; [vm_compute; intros H; repeat (destruct H as [H|H]; [discriminate|]); exact H|].
  vm_compute. tauto.
Qed.

(** C9, amended.  What each stage does with one factor is [factorOutcome]:
    a factor that is not calibrated is skipped with the state untouched;
    one that is calibrated gets its engine set on the basket, one routine
    run, its error recorded, and the gate applied in Bootstrap mode.  An FX
    factor is calibrated unless its type is None or it does not ask for its
    volatility; the routine is iterative exactly for Bootstrap on a
    piecewise volatility and global otherwise.  The same holds of an equity
    factor whose type is not None, or that does not ask for its volatility.
    An inflation factor is calibrated unless its type is None or it asks
    for neither parameter; asking for one parameter, the routine is
    iterative exactly for Bootstrap on that parameter piecewise and global
    otherwise; asking for both, it is the joint fit whatever the mode. *)
Theorem C9_stage_decisions (w : World) (config_ : CrossAssetModelData) (i : nat) (st : Builder) :
  (forall fx,
     factorOutcome w config_ FX i (fxCalibrated fx) (FxBsData.calibrationType fx)
       (bsRoutine FX i (FxBsData.calibrationType fx) (FxBsData.sigmaParamType fx))
       (fun basket => fxFactorCalls basket i fx)
       st (calibrateFx w config_ i fx st)
     /\ (fxCalibrated fx = false <->
         FxBsData.calibrationType fx = CalibrationType.None
         \/ FxBsData.calibrateSigma fx = false)
     /\ (bsRoutine FX i (FxBsData.calibrationType fx) (FxBsData.sigmaParamType fx)
         = calibrateBsVolatilitiesIterative FX i <->
         FxBsData.calibrationType fx = CalibrationType.Bootstrap
         /\ FxBsData.sigmaParamType fx = ParamType.Piecewise))
  /\ (forall eq,
        (EqBsData.calibrationType eq = CalibrationType.None ->
         EqBsData.calibrateSigma eq = false) ->
        factorOutcome w config_ EQ i (eqCalibrated eq) (EqBsData.calibrationType eq)
          (bsRoutine EQ i (EqBsData.calibrationType eq) (EqBsData.sigmaParamType eq))
          (fun basket => eqFactorCalls w basket i eq)
          st (calibrateEq w config_ i eq st)
        /\ (eqCalibrated eq = false <->
            EqBsData.calibrationType eq = CalibrationType.None
            \/ EqBsData.calibrateSigma eq = false)
        /\ (bsRoutine EQ i (EqBsData.calibrationType eq) (EqBsData.sigmaParamType eq)
            = calibrateBsVolatilitiesIterative EQ i <->
            EqBsData.calibrationType eq = CalibrationType.Bootstrap
            /\ EqBsData.sigmaParamType eq = ParamType.Piecewise))
  /\ (forall inf,
        factorOutcome w config_ INF i (infCalibrated inf) (InfDkData.calibrationType inf)
          (infRoutine i inf)
          (fun basket => infFactorCalls w config_ basket i inf)
          st (calibrateInf w config_ i inf st)
        /\ (infCalibrated inf = false <->
            InfDkData.calibrationType inf = CalibrationType.None
            \/ (InfDkData.calibrateA inf = false /\ InfDkData.calibrateH inf = false))
        /\ (infRoutine i inf = calibrateInfDkVolatilitiesIterative i <->
            InfDkData.calibrateA inf = true /\ InfDkData.calibrateH inf = false
            /\ InfDkData.calibrationType inf = CalibrationType.Bootstrap
            /\ InfDkData.aParamType inf = ParamType.Piecewise)
        /\ (infRoutine i inf = calibrateInfDkReversionsIterative i <->
            InfDkData.calibrateA inf = false /\ InfDkData.calibrateH inf = true
            /\ InfDkData.calibrationType inf = CalibrationType.Bootstrap
            /\ InfDkData.hParamType inf = ParamType.Piecewise)
        /\ (InfDkData.calibrateA inf = true -> InfDkData.calibrateH inf = true ->
            infRoutine i inf = calibrate i)).
Proof.
  split; [|split].
  - intros fx. split; [apply calibrateFx_outcome|]. split.
    + unfold fxCalibrated.
      destruct (FxBsData.calibrationType fx), (FxBsData.calibrateSigma fx);
        intuition congruence.
    + unfold bsRoutine.
      destruct (FxBsData.calibrationType fx), (FxBsData.sigmaParamType fx);
        intuition congruence.
  - intros eq Hnone. split; [apply calibrateEq_outcome|]. split.
    + unfold eqCalibrated.
      destruct (EqBsData.calibrationType eq), (EqBsData.calibrateSigma eq);
        intuition congruence.
    + unfold bsRoutine.
      destruct (EqBsData.calibrationType eq), (EqBsData.sigmaParamType eq);
        intuition congruence.
  - intros inf. split; [apply calibrateInf_outcome|].
    unfold infCalibrated, infRoutine.
    destruct (InfDkData.calibrationType inf), (InfDkData.calibrateA inf),
      (InfDkData.calibrateH inf), (InfDkData.aParamType inf), (InfDkData.hParamType inf);
      simpl; intuition congruence.
Qed.

(** An equity factor in Bootstrap mode on a piecewise volatility, in a
    state whose baskets and vectors are in place: it is calibrated
    iteratively. *)
Lemma C9_stage_decisions_witness :
  let eq := {| EqBsData.eqName := "SP5"%string; EqBsData.currency := "USD"%string;
               EqBsData.calibrationType := CalibrationType.Bootstrap;
               EqBsData.calibrateSigma := true;
               EqBsData.sigmaParamType := ParamType.Piecewise |} in
  factorOutcome goodWorld goodConfig EQ 0 (eqCalibrated eq) (EqBsData.calibrationType eq)
    (bsRoutine EQ 0 (EqBsData.calibrationType eq) (EqBsData.sigmaParamType eq))
    (fun basket => eqFactorCalls goodWorld basket 0 eq)
    builtBuilder (calibrateEq goodWorld goodConfig 0 eq builtBuilder).
Proof.
  cbv zeta.
  destruct (C9_stage_decisions goodWorld goodConfig 0 builtBuilder) as (_ & H & _).
  apply H. simpl. discriminate.
Defined.

(** C10.  The joint model is constructed only once the currencies have been
    found consistent: every FX factor [i] has the currency of rate
    parametrization [i + 1] as its foreign currency and the first rate
    currency as its domestic currency, and every equity currency is among
    the rate currencies.  Otherwise the build fails, and its log holds no
    construction of the joint model. *)
Theorem C10_currency_requirements (w : World) (config_ : CrossAssetModelData)
    (st : Builder) (tr : list Call) :
  calls (snd (buildModel w config_ st)) = calls st ++ tr ->
  (Exists (fun c => isModelConstruction c = true) tr ->
     (forall i fx, fxConfigs config_ !! i = Some fx ->
        exists p d,
          irParametrizations w config_ !! (i + 1) = Some p /\
          irParametrizations w config_ !! 0 = Some d /\
          code (parseCurrency w (FxBsData.foreignCcy fx)) = code p /\
          parseCurrency w (FxBsData.domesticCcy fx) = d)
     /\ (forall i eq, eqConfigs config_ !! i = Some eq ->
           code (parseCurrency w (EqBsData.currency eq)) ∈ currencies config_))
  /\ (~ currenciesConsistent w config_ ->
      (exists e, fst (buildModel w config_ st) = Throw e)
      /\ Forall (fun c => isModelConstruction c = false) tr).
Proof.
  intros Hcalls. split.
  - intros Hex. exact (buildModel_constructs w config_ st tr Hcalls Hex).
  - intros Hnot.
    destruct (buildModel_inconsistent_currencies w config_ st Hnot)
      as (e & st' & tr' & Hrun & Hc & Hall).
    rewrite Hrun in Hcalls. simpl in Hcalls. rewrite Hc in Hcalls.
    apply app_inv_head in Hcalls. subst tr'.
    split; [|done]. exists e. by rewrite Hrun.
Qed.

(** An FX factor whose foreign currency is GBP against a second rate
    currency of USD: the build fails before the joint model. *)
Lemma C10_currency_requirements_witness :
  let config_ := exampleConfig [usdEur "GBP"%string] CalibrationType.Global 0.5%float in
  fst (buildModel goodWorld config_ emptyBuilder) = Throw (FxCurrencyMismatch 0)
  /\ Forall (fun c => isModelConstruction c = false)
       (calls (snd (buildModel goodWorld config_ emptyBuilder))).
Proof.
  cbv zeta.
  destruct (C10_currency_requirements goodWorld
              (exampleConfig [usdEur "GBP"%string] CalibrationType.Global 0.5%float)
              emptyBuilder
              (calls (snd (buildModel goodWorld
                             (exampleConfig [usdEur "GBP"%string] CalibrationType.Global
                                0.5%float) emptyBuilder)))
              eq_refl) as [_ H].
  split; [vm_compute; reflexivity|].
  apply H. intros [Hfx _].
  destruct (Hfx 0 (usdEur "GBP"%string) eq_refl) as (p & d & Hp & _ & Hcode & _).
  vm_compute in Hp. injection Hp as <-. vm_compute in Hcode. discriminate.
Defined.

(** * Further properties of the build *)

(** * Every failure of a build has a cause *)

Section Failures.

Variable w : World.
Variable config_ : CrossAssetModelData.

(** What a failure raised after the requirements of the first lines tells:
    a collaborator threw, a currency requirement or a tolerance gate was
    not met.  The other failures cannot be raised from there on. *)
Definition failureCause (e : Error) : Prop :=
  match e with
  | Thrown c => raises w c = true
  | FxCurrencyMismatch i =>
      exists fx, fxConfigs config_ !! i = Some fx /\
        code (parseCurrency w (FxBsData.foreignCcy fx))
          <> code (parametrizationCurrency w IR (i + 1))
  | FxDomesticCurrencyMismatch i =>
      exists fx, fxConfigs config_ !! i = Some fx /\
        parseCurrency w (FxBsData.domesticCcy fx) <> parametrizationCurrency w IR 0
  | EqCurrencyNotCovered i =>
      exists eq, eqConfigs config_ !! i = Some eq /\
        code (parseCurrency w (EqBsData.currency eq)) ∉ currencies config_
  | CalibrationErrorExceedsTolerance t i =>
      fabs_below (logCalibrationErrors w t i) (bootstrapTolerance config_) = false
  | _ => False
  end.

(** The member vectors have one entry per configured factor, and [k]
    discount curve handles have been collected. *)
Definition sized (k : nat) (st : Builder) : Prop :=
  (forall t, length (errors t (results st)) = factorCount config_ t)
  /\ (forall t, length (basketsOf t (baskets st)) = factorCount config_ t)
  /\ length (irDiscountCurves st) = k.

Definition failsWithCause {A} (k : nat) (m : M A) (k' : nat) : Prop :=
  hoare (sized k) m (fun _ => sized k') (fun e _ => failureCause e).

Lemma sized_set_basket k t i b st :
  sized k st -> sized k (set_baskets (set_basketsOf t (fun v => <[i:=b]> v)) st).
Proof.
  intros (He & Hb & Hk). split; [done|]. split; [|done].
  intros t'. cbn [baskets set_baskets]. destruct (decide (t = t')) as [<-|Hne].
  - by rewrite basketsOf_set_basketsOf, length_insert.
  - by rewrite basketsOf_set_basketsOf_ne.
Qed.

Lemma sized_set_error k t i e st :
  sized k st -> sized k (set_results (set_errors t (fun v => <[i:=e]> v)) st).
Proof.
  intros (He & Hb & Hk). split; [|done].
  intros t'. cbn [results set_results]. destruct (decide (t = t')) as [<-|Hne].
  - by rewrite errors_set_errors, length_insert.
  - by rewrite errors_set_errors_ne.
Qed.

Lemma sized_set_model k f st : sized k st -> sized k (set_results (set_model f) st).
Proof.
  intros (He & Hb & Hk). split; [|done].
  intros t'. cbn [results set_results]. by rewrite errors_set_model.
Qed.

Lemma call_cause k c : failsWithCause k (call w c) k.
Proof.
  apply hoare_intro. intros st H. rewrite call_run.
  destruct (raises w c) eqn:Hc; [exact Hc|exact H].
Qed.

Lemma note_cause k c : failsWithCause k (note c) k.
Proof. apply hoare_intro. intros st H. rewrite note_run. exact H. Qed.

Lemma setBasket_cause k t i b :
  i < factorCount config_ t -> failsWithCause k (setBasket t i b) k.
Proof.
  intros Hi. apply hoare_intro. intros st H. rewrite setBasket_run.
  destruct H as (He & Hb & Hk). rewrite bool_decide_eq_true_2 by (by rewrite Hb).
  by apply sized_set_basket.
Qed.

Lemma setError_cause k t i e :
  i < factorCount config_ t -> failsWithCause k (setError t i e) k.
Proof.
  intros Hi. apply hoare_intro. intros st H. rewrite setError_run.
  destruct H as (He & Hb & Hk). rewrite bool_decide_eq_true_2 by (by rewrite He).
  by apply sized_set_error.
Qed.

Lemma linkTo_cause k i c : i < k -> failsWithCause k (linkTo i c) k.
Proof.
  intros Hi. apply hoare_intro. intros st H. rewrite linkTo_run.
  destruct H as (He & Hb & Hk). rewrite bool_decide_eq_true_2 by (by rewrite Hk).
  split; [done|]. split; [done|]. simpl. by rewrite length_insert.
Qed.

Lemma for_each_cause {A} k (body : nat -> A -> M unit) (v : list A) :
  (forall j x, v !! j = Some x -> failsWithCause k (body j x) k) ->
  failsWithCause k (for_each body 0 v) k.
Proof.
  intros Hb.
  apply (hoare_for_each (fun _ => sized k) (fun e _ => failureCause e) body v 0).
  intros j x Hj. by apply Hb.
Qed.

(** The sub-model stage. *)

Lemma buildIr_cause i ir :
  irConfigs config_ !! i = Some ir ->
  failsWithCause i (buildIr w config_ i ir) (S i).
Proof.
  intros Hi. apply lookup_lt_Some in Hi. unfold buildIr, insertSubBuilder.
  eapply hoare_bind; [apply call_cause|]. intros ?.
  eapply hoare_bind; [by apply (setBasket_cause i IR)|]. intros ?.
  apply hoare_intro. intros st (He & Hb & Hk). rewrite !run_bind_modify. cbn [modify].
  split; [done|]. split; [done|]. simpl. rewrite length_app, Hk. simpl. lia.
Qed.

Hypothesis counts : length (irConfigs config_) = length (fxConfigs config_) + 1.

Let nIr : nat := length (irConfigs config_).

Lemma irParametrizations_lookup i :
  i < nIr -> irParametrizations w config_ !! i = Some (parametrizationCurrency w IR i).
Proof.
  intros Hi. unfold irParametrizations. rewrite list_lookup_imap.
  destruct (lookup_lt_is_Some_2 (irConfigs config_) i Hi) as [ir ->]. reflexivity.
Qed.

Lemma buildFx_cause i fx :
  fxConfigs config_ !! i = Some fx ->
  failsWithCause nIr (buildFx w config_ (parametrizationCurrency w IR 0) i fx) nIr.
Proof.
  intros Hfx. pose proof (lookup_lt_Some _ _ _ Hfx) as Hi.
  unfold buildFx, insertSubBuilder. cbv zeta.
  eapply hoare_bind; [apply call_cause|]. intros ?.
  eapply hoare_bind; [apply call_cause|]. intros ?.
  apply hoare_intro. intros st H.
  rewrite run_bind, at_run, irParametrizations_lookup by (unfold nIr; lia).
  rewrite run_bind. unfold QL_REQUIRE at 1.
  destruct (String.eqb _ _) eqn:Hcode.
  2:{ exists fx. split; [done|]. by apply String.eqb_neq. }
  cbn [ret]. rewrite run_bind. unfold QL_REQUIRE at 1.
  destruct (Currency_eqb _ _) eqn:Hdom.
  2:{ exists fx. split; [done|]. intros Heq. apply Currency_eqb_eq in Heq. congruence. }
  cbn [ret]. rewrite run_bind, call_run.
  destruct (raises w _) eqn:Hc; [exact Hc|].
  rewrite run_bind, setBasket_run.
  destruct H as (He & Hb & Hk).
  cbn [logged set_calls baskets]. rewrite bool_decide_eq_true_2 by (by rewrite Hb).
  cbn [modify]. by apply (sized_set_basket nIr FX).
Qed.

Lemma buildEq_cause i eq :
  eqConfigs config_ !! i = Some eq ->
  failsWithCause nIr (buildEq w config_ i eq) nIr.
Proof.
  intros Heq. pose proof (lookup_lt_Some _ _ _ Heq) as Hi.
  unfold buildEq, insertSubBuilder. cbv zeta.
  eapply hoare_bind; [apply call_cause|]. intros ?.
  apply hoare_intro. intros st H.
  rewrite run_bind. unfold QL_REQUIRE at 1.
  destruct (existsb _ _) eqn:Hcov.
  2:{ exists eq. split; [done|]. intros Hin. apply existsb_String_eqb in Hin. congruence. }
  cbn [ret]. rewrite run_bind, call_run.
  destruct (raises w _) eqn:Hc; [exact Hc|].
  rewrite run_bind, setBasket_run.
  destruct H as (He & Hb & Hk).
  cbn [logged set_calls baskets]. rewrite bool_decide_eq_true_2 by (by rewrite Hb).
  cbn [modify]. by apply (sized_set_basket nIr EQ).
Qed.

Lemma buildInf_cause i inf :
  infConfigs config_ !! i = Some inf ->
  failsWithCause nIr (buildInf w config_ i inf) nIr.
Proof.
  intros Hinf. pose proof (lookup_lt_Some _ _ _ Hinf) as Hi.
  unfold buildInf, insertSubBuilder.
  eapply hoare_bind; [apply call_cause|]. intros ?.
  eapply hoare_bind; [by apply (setBasket_cause nIr INF)|]. intros ?.
  apply hoare_intro. intros st H. exact H.
Qed.

Lemma size_positive {A} (v : list A) : fits_Size v -> v <> [] -> (0 <? size v)%Z = true.
Proof.
  intros Hfits Hne. rewrite size_fits by done. apply Z.ltb_lt.
  destruct v; [done|]. cbn [length]. lia.
Qed.

Hypothesis fits_ir : fits_Size (irConfigs config_).
Hypothesis fits_fx : fits_Size (fxConfigs config_).

Lemma irConfigs_nonempty : irConfigs config_ <> [].
Proof. intros H. rewrite H in counts. simpl in counts. lia. Qed.

Lemma buildSubModels_cause :
  hoare (fun _ => True) (buildSubModels w config_) (fun _ => sized nIr)
        (fun e _ => failureCause e).
Proof.
  apply hoare_intro. intros st _. unfold buildSubModels. rewrite !run_bind_modify.
  match goal with |- context [bind _ _ ?s] => set (s0 := s) end.
  apply (hoare_run (sized 0)).
  2:{ split; [|split; [|done]]; intros []; simpl; apply length_resize. }
  clear st s0.
  eapply hoare_bind.
  { apply (hoare_for_each sized (fun e _ => failureCause e) (buildIr w config_)
             (irConfigs config_) 0).
    intros j x Hj. by apply buildIr_cause. }
  intros ?. cbn beta. simpl. fold nIr.
  eapply hoare_bind.
  { apply hoare_QL_REQUIRE with (Q := fun _ => sized nIr); [done|].
    intros st _ Hfalse. unfold irParametrizations, size in Hfalse.
    rewrite length_imap in Hfalse.
    pose proof (size_positive _ fits_ir irConfigs_nonempty) as Hpos.
    unfold size in Hpos. congruence. }
  intros ?.
  eapply hoare_bind.
  { apply hoare_at with
      (Q := fun d st => d = parametrizationCurrency w IR 0 /\ sized nIr st).
    - intros st x H Hx. rewrite irParametrizations_lookup in Hx by (unfold nIr; lia).
      injection Hx as <-. done.
    - intros st _ Hx. rewrite irParametrizations_lookup in Hx by (unfold nIr; lia). done. }
  intros d. apply hoare_intro. intros st [-> H].
  apply (hoare_run (sized nIr)); [|exact H]. clear st H.
  eapply hoare_bind; [apply for_each_cause; intros; by apply buildFx_cause|]. intros ?.
  eapply hoare_bind; [apply for_each_cause; intros; by apply buildEq_cause|]. intros ?.
  apply for_each_cause; intros; by apply buildInf_cause.
Qed.

(** The cascade. *)

Lemma relink_cause configuration i p :
  i < nIr -> failsWithCause nIr (relink w configuration i p) nIr.
Proof.
  intros Hi. unfold relink.
  eapply hoare_bind; [apply call_cause|]. intros ?. by apply linkTo_cause.
Qed.

Lemma relinkAll_cause configuration :
  failsWithCause nIr (relinkAll w config_ configuration) nIr.
Proof.
  unfold relinkAll. apply for_each_cause. intros j p Hj. apply relink_cause.
  apply lookup_lt_Some in Hj. unfold irParametrizations in Hj.
  by rewrite length_imap in Hj.
Qed.

Lemma calibrateTail_cause t i engine c ct st :
  i < factorCount config_ t -> sized nIr st ->
  match calibrateTail w config_ t i engine c ct st with
  | (Ok _, st') => sized nIr st'
  | (Throw e, _) => failureCause e
  end.
Proof.
  intros Hi (He & Hb & Hk). unfold calibrateTail.
  rewrite run_bind, setPricingEngines_run.
  destruct (basketsOf t (baskets st) !! i) as [basket|] eqn:Hbasket.
  2:{ apply lookup_ge_None in Hbasket. specialize (Hb t).
      destruct (Nat.lt_irrefl i). eapply Nat.lt_le_trans; [exact Hi|].
      rewrite <- Hb. exact Hbasket. }
  rewrite run_bind, calibrateModel_run.
  destruct (raises w (Calibrate c)) eqn:Hc; [exact Hc|].
  rewrite recordAndGate_run. cbv zeta.
  destruct (raises w (LogCalibrationErrors t i)) eqn:Hl; [exact Hl|].
  cbn [logged set_calls set_results results]. rewrite errors_set_model.
  rewrite bool_decide_eq_true_2 by (by rewrite He).
  assert (Hs : sized nIr
            (set_results (set_errors t (fun v => <[i:=logCalibrationErrors w t i]> v))
               (set_results (set_model (addCalibration c))
                  (logged [Calibrate c]
                     (logged (map (fun h => SetPricingEngine h engine) basket) st))))).
  { apply sized_set_error, sized_set_model. done. }
  destruct (CalibrationType.eqb ct CalibrationType.Bootstrap); [|exact Hs].
  destruct (fabs_below _ _) eqn:Hgate; [exact Hs|exact Hgate].
Qed.

Lemma calibrateFx_cause i fx :
  fxConfigs config_ !! i = Some fx ->
  failsWithCause nIr (calibrateFx w config_ i fx) nIr.
Proof.
  intros Hi. apply lookup_lt_Some in Hi. apply hoare_intro. intros st H.
  unfold calibrateFx.
  destruct (CalibrationType.eqb _ _ || negb _); [exact H|].
  cbv zeta. rewrite run_bind, call_run.
  destruct (raises w _) eqn:Hc; [exact Hc|].
  rewrite run_bind, note_run, if_calibrateModel.
  by apply (calibrateTail_cause FX i (AnalyticCcLgmFxOptionEngine i)).
Qed.

Lemma calibrateEq_cause i eq :
  eqConfigs config_ !! i = Some eq ->
  failsWithCause nIr (calibrateEq w config_ i eq) nIr.
Proof.
  intros Hi. apply lookup_lt_Some in Hi. apply hoare_intro. intros st H.
  unfold calibrateEq.
  destruct (negb _); [exact H|].
  cbv zeta. rewrite run_bind, call_run.
  destruct (raises w _) eqn:Hc; [exact Hc|].
  rewrite run_bind, call_run.
  match goal with |- context [raises w ?c] => destruct (raises w c) eqn:Hc' end; [exact Hc'|].
  rewrite if_calibrateModel.
  by apply (calibrateTail_cause EQ i (eqEngine w i)).
Qed.

Lemma calibrateInf_cause i inf :
  infConfigs config_ !! i = Some inf ->
  failsWithCause nIr (calibrateInf w config_ i inf) nIr.
Proof.
  intros Hi. apply lookup_lt_Some in Hi. apply hoare_intro. intros st H.
  unfold calibrateInf.
  destruct (negb _ && negb _ || _); [exact H|].
  cbv zeta. rewrite run_bind, call_run.
  destruct (raises w _) eqn:Hc; [exact Hc|].
  rewrite run_bind, call_run.
  match goal with |- context [raises w ?c] => destruct (raises w c) eqn:Hc' end; [exact Hc'|].
  rewrite infRoutine_eq.
  by apply (calibrateTail_cause INF i (infEngine w config_ i)).
Qed.

Lemma assembleAndCalibrate_cause :
  failsWithCause nIr (assembleAndCalibrate w config_) nIr.
Proof.
  unfold assembleAndCalibrate.
  apply (hoare_bind _ _ _ (fun _ => sized nIr)).
  { apply hoare_intro. intros st H.
    rewrite (checkParametrizations_run w config_ fits_ir fits_fx st irConfigs_nonempty).
    replace (Z.of_nat (length (fxConfigs config_))
             =? Z.of_nat (length (irConfigs config_)) - 1)%Z with true
      by (symmetry; apply Z.eqb_eq; lia).
    exact H. }
  intros ?. unfold buildCorrelationMatrix.
  apply (hoare_bind _ _ _ (fun _ => sized nIr)).
  { eapply hoare_bind; [apply for_each_cause; intros; apply call_cause|]. intros ?.
    eapply hoare_bind; [apply call_cause|]. intros ?.
    apply hoare_ret. intros st H. exact H. }
  intros m.
  apply (hoare_bind _ _ _ (fun _ => sized nIr)).
  { unfold linkModel. eapply hoare_bind; [apply call_cause|]. intros ?.
    apply hoare_intro. intros st H. by apply sized_set_model. }
  intros ?.
  eapply hoare_bind.
  { apply for_each_cause. intros j x Hj. apply lookup_lt_Some in Hj. unfold collectIrError.
    eapply hoare_bind; [apply call_cause|]. intros ?. by apply (setError_cause nIr IR). }
  intros ?.
  eapply hoare_bind; [apply relinkAll_cause|]. intros ?.
  eapply hoare_bind; [apply for_each_cause; intros; by apply calibrateFx_cause|]. intros ?.
  eapply hoare_bind; [apply relinkAll_cause|]. intros ?.
  eapply hoare_bind; [apply for_each_cause; intros; by apply calibrateEq_cause|]. intros ?.
  eapply hoare_bind; [apply relinkAll_cause|]. intros ?.
  eapply hoare_bind; [apply for_each_cause; intros; by apply calibrateInf_cause|]. intros ?.
  eapply hoare_bind; [apply relinkAll_cause|]. intros ?.
  apply note_cause.
Qed.

End Failures.

(** What a failing build tells which failure. *)
Lemma buildModel_throws (w : World) (config_ : CrossAssetModelData) (st st' : Builder)
    (e : Error) :
  fits_Size (irConfigs config_) -> fits_Size (fxConfigs config_) ->
  buildModel w config_ st = (Throw e, st') ->
  match e with
  | NoMarketGiven => marketGiven config_ = false /\ st' = st
  | MissingIrConfigurations =>
      marketGiven config_ = true /\ irConfigs config_ = [] /\ st' = st
  | FxIrConfigurationSizeMismatch =>
      marketGiven config_ = true /\ irConfigs config_ <> []
      /\ length (irConfigs config_) <> length (fxConfigs config_) + 1 /\ st' = st
  | MissingIrParametrizations | IrFxParametrizationSizeMismatch | IndexOutOfRange => False
  | _ => failureCause w config_ e
  end.
Proof.
  intros fits_ir fits_fx. unfold buildModel.
  rewrite run_bind, (checkConfiguration_run config_ fits_ir fits_fx).
  destruct (marketGiven config_); [|by intros [= <- <-]].
  destruct (0 <? _)%Z eqn:Hir.
  2:{ intros [= <- <-]. split; [done|]. split; [|done].
      apply Z.ltb_ge in Hir. destruct (irConfigs config_); [done|]. cbn [length] in Hir. lia. }
  destruct (_ =? _)%Z eqn:Hfx.
  2:{ intros [= <- <-]. split; [done|]. split; [|split; [|done]].
      - intros H. rewrite H in Hir. done.
      - apply Z.eqb_neq in Hfx. lia. }
  assert (counts : length (irConfigs config_) = length (fxConfigs config_) + 1).
  { apply Z.eqb_eq in Hfx. apply Z.ltb_lt in Hir. lia. }
  rewrite run_bind. intros Hrun.
  pose proof (buildSubModels_cause w config_ counts fits_ir st I) as Hsub.
  destruct (buildSubModels w config_ st) as [[u|e1] st1].
  - pose proof (assembleAndCalibrate_cause w config_ counts fits_ir fits_fx st1 Hsub) as Hasm.
    rewrite Hrun in Hasm. by destruct e.
  - injection Hrun as <- <-. by destruct e1.
Qed.

(** X1.  Every failure of a build, for configurations whose vectors fit
    [Size].  The requirements of the first lines fail in their order - no
    market, then no rate configuration, then an FX count that is not the
    rate count minus one - each in the unchanged start state.  Past them a
    build fails only because a collaborator threw, a currency requirement
    was not met or the tolerance gate of a factor calibrated in Bootstrap
    mode was not passed: the later requirements on the parametrization
    vectors (lines 178 and 255) cannot fail, and no vector is read or
    written out of range. *)
Theorem build_failure_causes (w : World) (config_ : CrossAssetModelData) (st st' : Builder)
    (e : Error) :
  fits_Size (irConfigs config_) -> fits_Size (fxConfigs config_) ->
  buildModel w config_ st = (Throw e, st') ->
  match e with
  | NoMarketGiven => marketGiven config_ = false /\ st' = st
  | MissingIrConfigurations =>
      marketGiven config_ = true /\ irConfigs config_ = [] /\ st' = st
  | FxIrConfigurationSizeMismatch =>
      marketGiven config_ = true /\ irConfigs config_ <> []
      /\ length (irConfigs config_) <> length (fxConfigs config_) + 1 /\ st' = st
  | MissingIrParametrizations | IrFxParametrizationSizeMismatch | IndexOutOfRange => False
  | CalibrationErrorExceedsTolerance t i =>
      bootstrapCalibrated config_ t i /\ failureCause w config_ e
  | _ => failureCause w config_ e
  end.
Proof.
  intros fits_ir fits_fx Hrun.
  pose proof (buildModel_throws w config_ st st' e fits_ir fits_fx Hrun) as Hcause.
  destruct e; try exact Hcause.
  split; [|exact Hcause].
  by destruct (buildModel_tolerance w config_ st st' _ _ Hrun) as (Hboot & _).
Qed.

(** An FX factor in GBP against a second rate factor in USD. *)
Lemma build_failure_causes_witness :
  failureCause goodWorld
    (exampleConfig [usdEur "GBP"%string] CalibrationType.Global 0.5%float)
    (FxCurrencyMismatch 0).
Proof.
  apply (build_failure_causes goodWorld
           (exampleConfig [usdEur "GBP"%string] CalibrationType.Global 0.5%float)
           emptyBuilder
           (snd (buildModel goodWorld
                   (exampleConfig [usdEur "GBP"%string] CalibrationType.Global 0.5%float)
                   emptyBuilder))
           (FxCurrencyMismatch 0)).
  - vm_compute. reflexivity.
  - vm_compute. reflexivity.
  - vm_compute. reflexivity.
Defined.

(** X12.  When a build returns.  With a market, a rate configuration, an FX
    count that is the rate count minus one, currencies that meet the
    requirements, gates that the logged errors pass and collaborators that
    do not throw, the build returns. *)
Theorem build_returns (w : World) (config_ : CrossAssetModelData) (st : Builder) :
  fits_Size (irConfigs config_) -> fits_Size (fxConfigs config_) ->
  marketGiven config_ = true ->
  length (irConfigs config_) = length (fxConfigs config_) + 1 ->
  currenciesConsistent w config_ ->
  gatesPassed w config_ ->
  (forall c, raises w c = false) ->
  exists st', buildModel w config_ st = (Ok tt, st').
Proof.
  intros fits_ir fits_fx Hmarket Hcount [Hfx Heq] (Hgfx & Hgeq & Hginf) Hquiet.
  destruct (buildModel w config_ st) as [[[]|e] st'] eqn:Hrun; [by exists st'|].
  exfalso.
  pose proof (buildModel_throws w config_ st st' e fits_ir fits_fx Hrun) as Hcause.
  destruct e as [| | | |i|i|i| |t i| |c]; simpl in Hcause.
  - destruct Hcause. congruence.
  - destruct Hcause as (_ & Hnil & _). rewrite Hnil in Hcount. simpl in Hcount. lia.
  - destruct Hcause as (_ & _ & Hne & _). done.
  - done.
  - destruct Hcause as (fx & Hi & Hne).
    destruct (Hfx i fx Hi) as (p & d & Hp & _ & Hcode & _).
    unfold irParametrizations in Hp. rewrite list_lookup_imap in Hp.
    destruct (irConfigs config_ !! (i + 1)); [|done]. simpl in Hp. injection Hp as <-.
    congruence.
  - destruct Hcause as (fx & Hi & Hne).
    destruct (Hfx i fx Hi) as (p & d & _ & Hd & _ & Hdom).
    unfold irParametrizations in Hd. rewrite list_lookup_imap in Hd.
    destruct (irConfigs config_ !! 0); [|done]. simpl in Hd. injection Hd as <-.
    congruence.
  - destruct Hcause as (eq & Hi & Hnot). apply Hnot. apply (Heq i eq Hi).
  - done.
  - destruct (buildModel_tolerance w config_ st st' _ _ Hrun) as (Hboot & _ & Hgate).
    destruct t; simpl in Hboot.
    + done.
    + destruct Hboot as (fx & Hi & Hcal & Hct).
      specialize (Hgfx i fx Hi Hcal). rewrite Hct in Hgfx. simpl in Hgfx. congruence.
    + destruct Hboot as (inf & Hi & Hcal & Hct).
      specialize (Hginf i inf Hi Hcal). rewrite Hct in Hginf. simpl in Hginf. congruence.
    + destruct Hboot as (eq & Hi & Hcal & Hct).
      specialize (Hgeq i eq Hi Hcal). rewrite Hct in Hgeq. simpl in Hgeq. congruence.
  - done.
  - rewrite Hquiet in Hcause. done.
Qed.

Lemma build_returns_witness :
  exists st', buildModel goodWorld goodConfig emptyBuilder = (Ok tt, st').
Proof.
  apply (build_returns goodWorld goodConfig emptyBuilder).
  - vm_compute. reflexivity.
  - vm_compute. reflexivity.
  - reflexivity.
  - reflexivity.
  - split.
    + intros [|i] fx Hi; [|destruct i; done]. injection Hi as <-.
      exists {| code := "USD"%string |}, {| code := "EUR"%string |}. done.
    + intros [|i] eq Hi; [|destruct i; done]. injection Hi as <-.
      unfold eqCurrencyCovered. rewrite list_elem_of_In. simpl. tauto.
  - split; [|split].
    + intros [|i] fx Hi Hcal; [|destruct i; done]. injection Hi as <-. vm_compute. reflexivity.
    + intros [|i] eq Hi Hcal; [|destruct i; done]. injection Hi as <-. vm_compute. reflexivity.
    + intros [|i] inf Hi Hcal; [|destruct i; done]. injection Hi as <-. vm_compute. reflexivity.
  - reflexivity.
Defined.

(** * The results a build leaves *)

(** A loop that threads an accumulator, by index. *)
Fixpoint foldi {A T} (step : nat -> A -> T -> T) (i : nat) (v : list A) (s : T) : T :=
  match v with
  | [] => s
  | x :: v' => foldi step (S i) v' (step i x s)
  end.

(** A bind that returns has run both halves. *)
Lemma bind_Ok {A B} (m : M A) (k : A -> M B) st b st2 :
  bind m k st = (Ok b, st2) ->
  exists a st1, m st = (Ok a, st1) /\ k a st1 = (Ok b, st2).
Proof.
  unfold bind. destruct (m st) as [[a|e] st1]; [|discriminate].
  intros H. by exists a, st1.
Qed.

(** A loop that returns has applied its steps in order. *)
Lemma for_each_Ok_foldi {A T} (f : Builder -> T) (step : nat -> A -> T -> T)
    (body : nat -> A -> M unit) (v : list A) :
  (forall j x st st', body j x st = (Ok tt, st') -> f st' = step j x (f st)) ->
  forall k st st', for_each body k v st = (Ok tt, st') -> f st' = foldi step k v (f st).
Proof.
  intros Hb. induction v as [|x v IH]; intros k st st' Hrun; simpl in *.
  - by injection Hrun as <-.
  - apply bind_Ok in Hrun as ([] & st1 & H1 & H2).
    rewrite (IH _ _ _ H2). by rewrite (Hb _ _ _ _ H1).
Qed.

(** A component that a function leaves alone, on a run. *)
Lemma unchanged_run {A T} (f : Builder -> T) (m : M A) st r st' :
  preserves (unchanged f) m -> m st = (r, st') -> f st' = f st.
Proof. intros Hm Hrun. specialize (Hm st). by rewrite Hrun in Hm. Qed.

(** Entries written by index into a vector. *)
Definition writes {A B} (f : nat -> A -> option B) : nat -> list A -> list B -> list B :=
  foldi (fun i x l => match f i x with Some e => <[i:=e]> l | None => l end).

Lemma writes_cons {A B} (f : nat -> A -> option B) k x v l :
  writes f k (x :: v) l
  = writes f (S k) v (match f k x with Some e => <[k:=e]> l | None => l end).
Proof. reflexivity. Qed.

Lemma length_writes {A B} (f : nat -> A -> option B) (v : list A) :
  forall k l, length (writes f k v l) = length l.
Proof.
  induction v as [|x v IH]; intros k l; [done|].
  rewrite writes_cons, IH. destruct (f k x); [apply length_insert|done].
Qed.

Lemma writes_before {A B} (f : nat -> A -> option B) (v : list A) :
  forall k l j, j < k -> writes f k v l !! j = l !! j.
Proof.
  induction v as [|x v IH]; intros k l j Hj; [done|].
  rewrite writes_cons, IH by lia.
  destruct (f k x); [|done]. apply list_lookup_insert_ne. lia.
Qed.

Lemma writes_at {A B} (f : nat -> A -> option B) (d : B) (v : list A) :
  forall k l i x, v !! i = Some x -> k + i < length l ->
    writes f k v l !! (k + i) = Some (default (default d (l !! (k + i))) (f (k + i) x)).
Proof.
  induction v as [|y v IH]; intros k l i x Hx Hi; [done|].
  rewrite writes_cons. destruct i as [|i]; simpl in Hx.
  - injection Hx as ->. rewrite Nat.add_0_r in *.
    rewrite writes_before by lia.
    destruct (f k x) as [e|]; simpl.
    + by apply list_lookup_insert_eq.
    + destruct (l !! k) as [e|] eqn:He; [done|].
      apply lookup_ge_None in He. lia.
  - replace (k + S i) with (S k + i) in * by lia.
    rewrite (IH (S k) _ i x Hx).
    2:{ destruct (f k y); [rewrite length_insert|]; lia. }
    destruct (f k y); [|done]. rewrite list_lookup_insert_ne by lia. done.
Qed.

(** [resize] keeps what was there and pads with the default. *)
Lemma lookup_resize {A} (n : nat) (d : A) (v : list A) (i : nat) :
  i < n -> resize n d v !! i = Some (default d (v !! i)).
Proof.
  intros Hi. unfold resize. destruct (decide (i < length v)) as [Hlt|Hge].
  - rewrite lookup_app_l by (rewrite length_take; lia).
    rewrite lookup_take_lt by lia.
    destruct (lookup_lt_is_Some_2 v i Hlt) as [x ->]. done.
  - rewrite lookup_app_r by (rewrite length_take; lia).
    rewrite length_take, lookup_replicate_2 by lia.
    rewrite lookup_ge_None_2 by lia. done.
Qed.

(** The calibrations a model has gone through, in order. *)
Definition addCalibrations (cs : list Calibration) (m : option CrossAssetModel)
    : option CrossAssetModel :=
  foldl (fun m c => addCalibration c m) m cs.

Lemma addCalibrations_Some cs m :
  addCalibrations cs (Some m) =
  Some {| parametrizations := parametrizations m; correlation := correlation m;
          calibrated := calibrated m ++ cs |}.
Proof.
  revert m. induction cs as [|c cs IH]; intros m; simpl.
  - rewrite app_nil_r. by destruct m.
  - unfold addCalibrations in *. simpl. rewrite IH. simpl. by rewrite <- app_assoc.
Qed.

Section BuiltResults.

Variable w : World.
Variable config_ : CrossAssetModelData.

(** The routines a stage runs, factor by factor. *)
Fixpoint routinesFrom {A} (isCalibrated : A -> bool) (routine : nat -> A -> Calibration)
    (i : nat) (v : list A) : list Calibration :=
  match v with
  | [] => []
  | x :: v' =>
      (if isCalibrated x then [routine i x] else [])
        ++ routinesFrom isCalibrated routine (S i) v'
  end.

Definition fxRoutine (i : nat) (fx : FxBsData.t) : Calibration :=
  bsRoutine FX i (FxBsData.calibrationType fx) (FxBsData.sigmaParamType fx).
Definition eqRoutine (i : nat) (eq : EqBsData.t) : Calibration :=
  bsRoutine EQ i (EqBsData.calibrationType eq) (EqBsData.sigmaParamType eq).

(** What a stage does to the results with one factor, when it returns. *)
Definition factorStep {A} (t : AssetType) (isCalibrated : A -> bool)
    (routine : nat -> A -> Calibration) (i : nat) (x : A) (r : Results) : Results :=
  if isCalibrated x
  then calibratedResults t i (routine i x) (logCalibrationErrors w t i) r
  else r.

Definition irStep (i : nat) (_ : IrLgmData.t) (r : Results) : Results :=
  set_errors IR (fun v => <[i:=builderError w i]> v) r.

Definition factorError {A} (t : AssetType) (isCalibrated : A -> bool) (i : nat) (x : A)
    : option Real :=
  if isCalibrated x then Some (logCalibrationErrors w t i) else None.

Lemma errors_factorStep {A} t (isCalibrated : A -> bool) routine (v : list A) :
  forall k r,
    errors t (foldi (factorStep t isCalibrated routine) k v r)
    = writes (factorError t isCalibrated) k v (errors t r).
Proof.
  induction v as [|x v IH]; intros k r; [done|].
  unfold writes in *. simpl. rewrite IH. f_equal.
  unfold factorStep, factorError, calibratedResults.
  destruct (isCalibrated x); [|done].
  by rewrite errors_set_errors, errors_set_model.
Qed.

Lemma errors_factorStep_ne {A} t t' (isCalibrated : A -> bool) routine (v : list A) :
  t <> t' ->
  forall k r, errors t' (foldi (factorStep t isCalibrated routine) k v r) = errors t' r.
Proof.
  intros Hne. induction v as [|x v IH]; intros k r; [done|].
  simpl. rewrite IH. unfold factorStep, calibratedResults.
  destruct (isCalibrated x); [|done].
  by rewrite errors_set_errors_ne, errors_set_model.
Qed.

Lemma model_factorStep {A} t (isCalibrated : A -> bool) routine (v : list A) :
  forall k r,
    model_ (foldi (factorStep t isCalibrated routine) k v r)
    = addCalibrations (routinesFrom isCalibrated routine k v) (model_ r).
Proof.
  induction v as [|x v IH]; intros k r; [done|].
  simpl. rewrite IH. unfold factorStep, calibratedResults, addCalibrations.
  destruct (isCalibrated x); [|done]. simpl. by destruct t.
Qed.

Lemma errors_irStep (v : list IrLgmData.t) :
  forall k r,
    errors IR (foldi irStep k v r)
    = writes (fun i _ => Some (builderError w i)) k v (errors IR r).
Proof.
  induction v as [|x v IH]; intros k r; [done|].
  unfold writes in *. simpl. by rewrite IH.
Qed.

Lemma errors_irStep_ne t (v : list IrLgmData.t) :
  t <> IR -> forall k r, errors t (foldi irStep k v r) = errors t r.
Proof.
  intros Hne. induction v as [|x v IH]; intros k r; [done|].
  simpl. rewrite IH. unfold irStep. by rewrite errors_set_errors_ne.
Qed.

Lemma model_irStep (v : list IrLgmData.t) :
  forall k r, model_ (foldi irStep k v r) = model_ r.
Proof. induction v as [|x v IH]; intros k r; [done|]. simpl. by rewrite IH. Qed.

(** The vectors as the first lines of the build resize them. *)
Definition resizedResults (r : Results) : Results :=
  {| model_ := model_ r;
     swaptionCalibrationErrors_ :=
       resize (length (irConfigs config_)) 0%float (swaptionCalibrationErrors_ r);
     fxOptionCalibrationErrors_ :=
       resize (length (fxConfigs config_)) 0%float (fxOptionCalibrationErrors_ r);
     eqOptionCalibrationErrors_ :=
       resize (length (eqConfigs config_)) 0%float (eqOptionCalibrationErrors_ r);
     infCapFloorCalibrationErrors_ :=
       resize (length (infConfigs config_)) 0%float (infCapFloorCalibrationErrors_ r) |}.

(** The joint model as it is constructed, before any calibration. *)
Definition assembledModel : CrossAssetModel :=
  {| parametrizations := allParametrizations w config_;
     correlation :=
       correlationMatrix w (currencies config_) (infIndices config_) [] (eqNames config_);
     calibrated := [] |}.

(** The results of a build that returns, from those it started with. *)
Definition builtResults (r : Results) : Results :=
  foldi (factorStep INF infCalibrated infRoutine) 0 (infConfigs config_)
    (foldi (factorStep EQ eqCalibrated eqRoutine) 0 (eqConfigs config_)
       (foldi (factorStep FX fxCalibrated fxRoutine) 0 (fxConfigs config_)
          (foldi irStep 0 (irConfigs config_)
             (set_model (fun _ => Some assembledModel) (resizedResults r))))).

Lemma relinkAll_results configuration :
  preserves (unchanged results) (relinkAll w config_ configuration).
Proof. frame_steps; reflexivity. Qed.

Lemma stage_results {A} (t : AssetType) (body : nat -> A -> M unit) (v : list A)
    (isCalibrated : A -> bool) (ct : A -> CalibrationType.t) (routine : nat -> A -> Calibration)
    (factorCalls : Basket -> nat -> A -> list Call) st st' :
  (forall i x st, factorOutcome w config_ t i (isCalibrated x) (ct x) (routine i x)
                    (fun basket => factorCalls basket i x) st (body i x st)) ->
  for_each body 0 v st = (Ok tt, st') ->
  results st' = foldi (factorStep t isCalibrated routine) 0 v (results st).
Proof.
  intros Hout. apply (for_each_Ok_foldi results).
  intros j x s s' Hrun. specialize (Hout j x s). rewrite Hrun in Hout.
  unfold factorOutcome in Hout. unfold factorStep.
  destruct (isCalibrated x).
  - by destruct Hout as (basket & _ & _ & Hres & _).
  - by subst s'.
Qed.

Lemma buildModel_results st st' :
  buildModel w config_ st = (Ok tt, st') -> results st' = builtResults (results st).
Proof.
  unfold buildModel. intros Hrun.
  apply bind_Ok in Hrun as ([] & s0 & Hcheck & Hrun).
  assert (s0 = st) as ->.
  { destruct (checkConfiguration_state config_ st) as [Hst _]. by rewrite Hcheck in Hst. }
  apply bind_Ok in Hrun as ([] & s1 & Hsub & Hrun).
  assert (Hr1 : results s1 = resizedResults (results st)).
  { unfold buildSubModels in Hsub. rewrite run_bind_modify in Hsub.
    match type of Hsub with ?m ?s = _ =>
      assert (Hp : preserves (unchanged results) m) by (frame_steps; reflexivity);
      apply (unchanged_run results m s _ _ Hp) in Hsub
    end.
    rewrite Hsub. reflexivity. }
  unfold assembleAndCalibrate in Hrun.
  apply bind_Ok in Hrun as ([] & s2 & H2 & Hrun).
  assert (s2 = s1) as ->.
  { unfold checkParametrizations, QL_REQUIRE in H2. destruct (_ =? _)%Z; [|done].
    by injection H2. }
  clear H2.
  apply bind_Ok in Hrun as (m & s3 & H3 & Hrun).
  assert (Hr3 : results s3 = results s1
                /\ m = correlationMatrix w (currencies config_) (infIndices config_) []
                         (eqNames config_)).
  { split.
    - eapply unchanged_run; [|exact H3]. frame_steps; reflexivity.
    - unfold buildCorrelationMatrix in H3.
      apply bind_Ok in H3 as ([] & ? & _ & H3).
      apply bind_Ok in H3 as ([] & ? & _ & H3). by injection H3. }
  destruct Hr3 as [Hr3 ->].
  apply bind_Ok in Hrun as ([] & s4 & H4 & Hrun).
  assert (Hr4 : results s4 = set_model (fun _ => Some assembledModel) (results s3)).
  { unfold linkModel in H4. apply bind_Ok in H4 as ([] & s & Hc & H4).
    assert (results s = results s3) as <-
      by (eapply unchanged_run; [|exact Hc]; frame_steps; reflexivity).
    by injection H4 as <-. }
  apply bind_Ok in Hrun as ([] & s5 & H5 & Hrun).
  apply (for_each_Ok_foldi results irStep) in H5.
  2:{ intros j x s s' Hs. unfold collectIrError in Hs.
      apply bind_Ok in Hs as ([] & s6 & Hc & Hs).
      assert (results s6 = results s) as <-
        by (eapply unchanged_run; [|exact Hc]; frame_steps; reflexivity).
      rewrite setError_run in Hs. destruct (bool_decide _); [|done].
      by injection Hs as <-. }
  apply bind_Ok in Hrun as ([] & s6 & H6 & Hrun).
  apply (unchanged_run results _ _ _ _ (relinkAll_results _)) in H6.
  apply bind_Ok in Hrun as ([] & s7 & H7 & Hrun).
  apply (stage_results FX _ _ fxCalibrated FxBsData.calibrationType fxRoutine fxFactorCalls)
    in H7; [|intros; apply calibrateFx_outcome].
  apply bind_Ok in Hrun as ([] & s8 & H8 & Hrun).
  apply (unchanged_run results _ _ _ _ (relinkAll_results _)) in H8.
  apply bind_Ok in Hrun as ([] & s9 & H9 & Hrun).
  apply (stage_results EQ _ _ eqCalibrated EqBsData.calibrationType eqRoutine (eqFactorCalls w))
    in H9; [|intros; apply calibrateEq_outcome].
  apply bind_Ok in Hrun as ([] & s10 & H10 & Hrun).
  apply (unchanged_run results _ _ _ _ (relinkAll_results _)) in H10.
  apply bind_Ok in Hrun as ([] & s11 & H11 & Hrun).
  apply (stage_results INF _ _ infCalibrated InfDkData.calibrationType infRoutine
           (infFactorCalls w config_)) in H11; [|intros; apply calibrateInf_outcome].
  apply bind_Ok in Hrun as ([] & s12 & H12 & Hrun).
  apply (unchanged_run results _ _ _ _ (relinkAll_results _)) in H12.
  rewrite note_run in Hrun. injection Hrun as <-.
  cbn [results logged set_calls].
  unfold builtResults.
  by rewrite H12, H11, H10, H9, H8, H7, H6, H5, Hr4, Hr3, Hr1.
Qed.

End BuiltResults.

(** ** What the built results hold *)

Section BuiltResultsHold.

Variable w : World.
Variable config_ : CrossAssetModelData.

Lemma builtResults_rate_errors (r : Results) :
  swaptionCalibrationErrors_ (builtResults w config_ r)
  = imap (fun i _ => builderError w i) (irConfigs config_).
Proof.
  unfold builtResults. change (swaptionCalibrationErrors_ ?r) with (errors IR r).
  rewrite !errors_factorStep_ne by done. rewrite errors_irStep, errors_set_model.
  cbn [errors resizedResults swaptionCalibrationErrors_].
  apply list_eq. intros j. rewrite list_lookup_imap.
  destruct (irConfigs config_ !! j) as [ir|] eqn:Hj.
  - rewrite (writes_at (B:=Real) _ 0%float _ 0 _ j ir Hj).
    + done.
    + rewrite length_resize. by apply lookup_lt_Some in Hj.
  - apply lookup_ge_None in Hj. apply lookup_ge_None.
    by rewrite length_writes, length_resize.
Qed.

Lemma stage_error {A} (t : AssetType) (isCalibrated : A -> bool) (routine : nat -> A -> Calibration)
    (v : list A) (r : Results) (i : nat) (x : A) :
  v !! i = Some x -> length (errors t r) = length v ->
  errors t (foldi (factorStep w t isCalibrated routine) 0 v r) !! i
  = Some (if isCalibrated x then logCalibrationErrors w t i
          else default 0%float (errors t r !! i)).
Proof.
  intros Hx Hlen. rewrite errors_factorStep.
  rewrite (writes_at (B:=Real) _ 0%float _ 0 _ i x Hx).
  - unfold factorError. by destruct (isCalibrated x).
  - rewrite Hlen. by apply lookup_lt_Some in Hx.
Qed.

Lemma builtResults_fx_error (r : Results) i fx :
  fxConfigs config_ !! i = Some fx ->
  fxOptionCalibrationErrors_ (builtResults w config_ r) !! i
  = Some (if fxCalibrated fx then logCalibrationErrors w FX i
          else default 0%float (fxOptionCalibrationErrors_ r !! i)).
Proof.
  intros Hi. unfold builtResults. change (fxOptionCalibrationErrors_ ?r) with (errors FX r).
  rewrite !errors_factorStep_ne by done.
  rewrite (stage_error FX fxCalibrated (fxRoutine) _ _ i fx Hi).
  - rewrite errors_irStep_ne, errors_set_model by done.
    cbn [errors resizedResults fxOptionCalibrationErrors_].
    rewrite lookup_resize by (by apply lookup_lt_Some in Hi). done.
  - rewrite errors_irStep_ne, errors_set_model by done. apply length_resize.
Qed.

Lemma builtResults_eq_error (r : Results) i eq :
  eqConfigs config_ !! i = Some eq ->
  eqOptionCalibrationErrors_ (builtResults w config_ r) !! i
  = Some (if eqCalibrated eq then logCalibrationErrors w EQ i
          else default 0%float (eqOptionCalibrationErrors_ r !! i)).
Proof.
  intros Hi. unfold builtResults. change (eqOptionCalibrationErrors_ ?r) with (errors EQ r).
  rewrite !errors_factorStep_ne by done.
  rewrite (stage_error EQ eqCalibrated (eqRoutine) _ _ i eq Hi).
  - rewrite !errors_factorStep_ne by done.
    rewrite errors_irStep_ne, errors_set_model by done.
    cbn [errors resizedResults eqOptionCalibrationErrors_].
    rewrite lookup_resize by (by apply lookup_lt_Some in Hi). done.
  - rewrite !errors_factorStep_ne by done.
    rewrite errors_irStep_ne, errors_set_model by done. apply length_resize.
Qed.

Lemma builtResults_inf_error (r : Results) i inf :
  infConfigs config_ !! i = Some inf ->
  infCapFloorCalibrationErrors_ (builtResults w config_ r) !! i
  = Some (if infCalibrated inf then logCalibrationErrors w INF i
          else default 0%float (infCapFloorCalibrationErrors_ r !! i)).
Proof.
  intros Hi. unfold builtResults.
  change (infCapFloorCalibrationErrors_ ?r) with (errors INF r).
  rewrite (stage_error INF infCalibrated (infRoutine) _ _ i inf Hi).
  - rewrite !errors_factorStep_ne by done.
    rewrite errors_irStep_ne, errors_set_model by done.
    cbn [errors resizedResults infCapFloorCalibrationErrors_].
    rewrite lookup_resize by (by apply lookup_lt_Some in Hi). done.
  - rewrite !errors_factorStep_ne by done.
    rewrite errors_irStep_ne, errors_set_model by done. apply length_resize.
Qed.

Lemma builtResults_model (r : Results) :
  model_ (builtResults w config_ r)
  = Some {| parametrizations := allParametrizations w config_;
            correlation :=
              correlationMatrix w (currencies config_) (infIndices config_) []
                (eqNames config_);
            calibrated :=
              routinesFrom fxCalibrated fxRoutine 0 (fxConfigs config_)
                ++ routinesFrom eqCalibrated eqRoutine 0 (eqConfigs config_)
                ++ routinesFrom infCalibrated infRoutine 0 (infConfigs config_) |}.
Proof.
  unfold builtResults.
  rewrite !model_factorStep, model_irStep. cbn [model_ set_model].
  rewrite !addCalibrations_Some. cbn [parametrizations correlation calibrated assembledModel].
  by rewrite <- app_assoc.
Qed.

Lemma length_factorStep {A} t t' (isCalibrated : A -> bool) routine (v : list A) :
  forall k r,
    length (errors t' (foldi (factorStep w t isCalibrated routine) k v r))
    = length (errors t' r).
Proof.
  intros k r. destruct (decide (t = t')) as [<-|Hne].
  - by rewrite errors_factorStep, length_writes.
  - by rewrite errors_factorStep_ne.
Qed.

Lemma builtResults_length (r : Results) t :
  length (errors t (builtResults w config_ r)) = factorCount config_ t.
Proof.
  unfold builtResults. rewrite !length_factorStep.
  destruct (decide (t = IR)) as [->|Hne].
  - rewrite errors_irStep, length_writes, errors_set_model. apply length_resize.
  - rewrite errors_irStep_ne, errors_set_model by done.
    destruct t; [done| | |]; apply length_resize.
Qed.

End BuiltResultsHold.

(** X3.  After a build that returns, the rate errors are those the rate
    builders report, one per rate configuration, whatever the vector held
    before. *)
Theorem build_rate_errors (w : World) (config_ : CrossAssetModelData) (st st' : Builder) :
  buildModel w config_ st = (Ok tt, st') ->
  swaptionCalibrationErrors_ (results st')
  = imap (fun i _ => builderError w i) (irConfigs config_).
Proof.
  intros Hrun. rewrite (buildModel_results w config_ st st' Hrun).
  apply builtResults_rate_errors.
Qed.

Lemma build_rate_errors_witness :
  swaptionCalibrationErrors_ (results (snd (buildModel goodWorld goodConfig emptyBuilder)))
  = [0.125%float; 0.125%float].
Proof.
  rewrite (build_rate_errors goodWorld goodConfig emptyBuilder
             (snd (buildModel goodWorld goodConfig emptyBuilder))).
  - reflexivity.
  - vm_compute. reflexivity.
Defined.

(** X4.  After a build that returns, the error entry of a calibrated FX,
    equity or inflation factor is the error logged for it; that of a
    skipped factor is what the vector held there before the build, and zero
    when the vector was shorter. *)
Theorem build_factor_errors (w : World) (config_ : CrossAssetModelData) (st st' : Builder) :
  buildModel w config_ st = (Ok tt, st') ->
  (forall i fx, fxConfigs config_ !! i = Some fx ->
     fxOptionCalibrationErrors_ (results st') !! i
     = Some (if fxCalibrated fx then logCalibrationErrors w FX i
             else default 0%float (fxOptionCalibrationErrors_ (results st) !! i)))
  /\ (forall i eq, eqConfigs config_ !! i = Some eq ->
        eqOptionCalibrationErrors_ (results st') !! i
        = Some (if eqCalibrated eq then logCalibrationErrors w EQ i
                else default 0%float (eqOptionCalibrationErrors_ (results st) !! i)))
  /\ (forall i inf, infConfigs config_ !! i = Some inf ->
        infCapFloorCalibrationErrors_ (results st') !! i
        = Some (if infCalibrated inf then logCalibrationErrors w INF i
                else default 0%float (infCapFloorCalibrationErrors_ (results st) !! i))).
Proof.
  intros Hrun. rewrite (buildModel_results w config_ st st' Hrun).
  split; [|split].
  - intros i fx Hi. by apply builtResults_fx_error.
  - intros i eq Hi. by apply builtResults_eq_error.
  - intros i inf Hi. by apply builtResults_inf_error.
Qed.

(** X5.  The joint model a build that returns has linked into the handle:
    made from the rate, FX, equity and inflation parametrizations in this
    order and the correlation matrix, then calibrated by the routines of
    the FX stage, the equity stage and the inflation stage, in this
    order. *)
Theorem build_model_handle (w : World) (config_ : CrossAssetModelData) (st st' : Builder) :
  buildModel w config_ st = (Ok tt, st') ->
  model_ (results st')
  = Some {| parametrizations := allParametrizations w config_;
            correlation :=
              correlationMatrix w (currencies config_) (infIndices config_) []
                (eqNames config_);
            calibrated :=
              routinesFrom fxCalibrated fxRoutine 0 (fxConfigs config_)
                ++ routinesFrom eqCalibrated eqRoutine 0 (eqConfigs config_)
                ++ routinesFrom infCalibrated infRoutine 0 (infConfigs config_) |}.
Proof.
  intros Hrun. rewrite (buildModel_results w config_ st st' Hrun).
  apply builtResults_model.
Qed.

Lemma build_factor_errors_witness :
  fxOptionCalibrationErrors_
    (results (snd (buildModel goodWorld skippedFxConfig emptyBuilder))) !! 0
  = Some 0%float
  /\ fxOptionCalibrationErrors_ (results (snd (buildModel goodWorld goodConfig emptyBuilder))) !! 0
     = Some 0.25%float.
Proof.
  split.
  - destruct (build_factor_errors goodWorld skippedFxConfig emptyBuilder
                (snd (buildModel goodWorld skippedFxConfig emptyBuilder))) as (Hfx & _).
    + vm_compute. reflexivity.
    + exact (Hfx 0 _ eq_refl).
  - destruct (build_factor_errors goodWorld goodConfig emptyBuilder
                (snd (buildModel goodWorld goodConfig emptyBuilder))) as (Hfx & _).
    + vm_compute. reflexivity.
    + exact (Hfx 0 _ eq_refl).
Defined.

Lemma build_model_handle_witness :
  calibrated <$> model_ (results (snd (buildModel goodWorld goodConfig emptyBuilder)))
  = Some [calibrateBsVolatilitiesIterative FX 0; calibrateBsVolatilitiesGlobal EQ 0; calibrate 0].
Proof.
  rewrite (build_model_handle goodWorld goodConfig emptyBuilder
             (snd (buildModel goodWorld goodConfig emptyBuilder))).
  - reflexivity.
  - vm_compute. reflexivity.
Defined.

(** * The sizes of the member vectors *)

Section VectorSizes.

Variable w : World.
Variable config_ : CrossAssetModelData.

Definition vectorsSized (st : Builder) : Prop :=
  forall t, length (errors t (results st)) = factorCount config_ t
         /\ length (basketsOf t (baskets st)) = factorCount config_ t.

Ltac vectorsSized_leaf :=
  let H := fresh in let t := fresh in
  unfold keeps, vectorsSized; intros H t; specialize (H t);
  destruct t; simpl in *; rewrite ?length_insert; exact H.

(** X2.  Once the requirements of its first lines pass, the build leaves each
    member vector with one entry per configured factor of its class,
    whether it returns or throws later. *)
Theorem build_vector_sizes (st : Builder) :
  fst (checkConfiguration config_ st) = Ok tt ->
  vectorsSized (snd (buildModel w config_ st)).
Proof.
  intros Hcheck. unfold buildModel. rewrite run_bind.
  destruct (checkConfiguration_state config_ st) as [Hst _].
  destruct (checkConfiguration config_ st) as [[u|e] st0]; [|done].
  simpl in Hst. subst st0.
  apply snd_bind_stable; [|intros; frame_steps; vectorsSized_leaf].
  unfold buildSubModels. rewrite run_bind_modify.
  match goal with
  | |- vectorsSized (snd (?m ?s)) =>
      assert (Hp : preserves (keeps vectorsSized) m) by (frame_steps; vectorsSized_leaf);
      apply (Hp s)
  end.
  intros []; split; apply length_resize.
Qed.

End VectorSizes.

Lemma build_vector_sizes_witness :
  length (fxOptionCalibrationErrors_
            (results (snd (buildModel (exampleWorld 0 0.5%float) goodConfig emptyBuilder)))) = 1.
Proof.
  apply (build_vector_sizes (exampleWorld 0 0.5%float) goodConfig emptyBuilder eq_refl FX).
Defined.

(** * The constructor *)

(** X6.  The constructor fails exactly as its build does, leaving the state
    the build left: nothing is registered and no observer is made.  When
    the build returns, the builder registers with each of its sub-builders,
    makes an observer of the correlation quotes and clears its flag: the
    first decision on a recalculation, in any world, is that of the
    sub-builders, the observer reporting no change. *)
Theorem constructor_outcome (w : World) (config_ : CrossAssetModelData) (st st' : Builder)
    (r : Result unit) :
  constructor w config_ st = (r, st') ->
  match r with
  | Ok _ =>
      (exists s2,
         buildModel w config_ st = (Ok tt, s2)
         /\ results st' = results s2
         /\ subBuilders_ st' = subBuilders_ s2
         /\ calls st' = calls s2 ++ map RegisterWith (subBuilders_ s2) ++ [HasUpdated true])
      /\ marketObserver_ st'
         = {| observed := map snd (correlations config_); updated_ := false |}
      /\ forall w', fst (requiresRecalibration w' st') = Ok (subBuildersStale w' st')
  | Throw e => buildModel w config_ st = (Throw e, st')
  end.
Proof.
  unfold constructor. rewrite run_bind.
  destruct (buildModel w config_ st) as [[[]|e] s2] eqn:Hbuild.
  2:{ intros [= <- <-]. done. }
  destruct (registerWithSubBuilders_run s2) as (s3 & Hreg & Hc3 & Hw3).
  rewrite run_bind, Hreg. rewrite run_bind_modify, run_bind, hasUpdated_run. cbn [ret].
  intros [= <- <-]. injection Hw3 as Hres3 Hsub3 Hobs3.
  split; [|split].
  - exists s2. split; [done|]. cbn. split; [done|]. split; [done|].
    rewrite Hc3. by rewrite <- app_assoc.
  - reflexivity.
  - intros w'. rewrite requiresRecalibration_run. cbn [fst]. unfold stale.
    cbn [resetObserver set_marketObserver marketObserver_ updated_].
    by rewrite orb_false_r.
Qed.

Lemma constructor_outcome_witness :
  marketObserver_ builtBuilder
  = {| observed := map snd (correlations goodConfig); updated_ := false |}.
Proof.
  pose proof (constructor_outcome goodWorld goodConfig emptyBuilder builtBuilder (Ok tt)) as H.
  destruct H as (_ & Hobs & _).
  - vm_compute. reflexivity.
  - exact Hobs.
Defined.

(** * Building twice *)

Lemma Results_eq (r r' : Results) :
  model_ r = model_ r' ->
  (forall t, errors t r = errors t r') ->
  r = r'.
Proof.
  destruct r, r'. simpl. intros -> H.
  pose proof (H IR) as Hir. pose proof (H FX) as Hfx.
  pose proof (H EQ) as Heq. pose proof (H INF) as Hinf. simpl in *. by subst.
Qed.

(** Two vectors of one entry per factor that agree on every factor. *)
Lemma vector_eq {A B} (v : list A) (l l' : list B) :
  length l = length v -> length l' = length v ->
  (forall i x, v !! i = Some x -> l !! i = l' !! i) ->
  l = l'.
Proof.
  intros Hl Hl' H. apply list_eq. intros i.
  destruct (v !! i) as [x|] eqn:Hi; [by apply (H i x)|].
  apply lookup_ge_None in Hi.
  rewrite !lookup_ge_None_2; [done|lia|lia].
Qed.

Lemma default_kept (d : Real) (o o' : option Real) :
  o = Some (default d o') -> default d o = default d o'.
Proof. by intros ->. Qed.

(** What a build writes does not depend on what was there, and what it does
    not write it keeps. *)
Lemma builtResults_idempotent (w : World) (config_ : CrossAssetModelData) (r : Results) :
  builtResults w config_ (builtResults w config_ r) = builtResults w config_ r.
Proof.
  apply Results_eq; [by rewrite !builtResults_model|].
  intros []; simpl.
  - by rewrite !builtResults_rate_errors.
  - apply (vector_eq (fxConfigs config_));
      [apply (builtResults_length w config_ _ FX)|apply (builtResults_length w config_ _ FX)|].
    intros i fx Hi. rewrite (builtResults_fx_error w config_ _ i fx Hi).
    pose proof (builtResults_fx_error w config_ r i fx Hi) as E. rewrite E.
    destruct (fxCalibrated fx); [done|]. f_equal. by apply default_kept.
  - apply (vector_eq (infConfigs config_));
      [apply (builtResults_length w config_ _ INF)|apply (builtResults_length w config_ _ INF)|].
    intros i inf Hi. rewrite (builtResults_inf_error w config_ _ i inf Hi).
    pose proof (builtResults_inf_error w config_ r i inf Hi) as E. rewrite E.
    destruct (infCalibrated inf); [done|]. f_equal. by apply default_kept.
  - apply (vector_eq (eqConfigs config_));
      [apply (builtResults_length w config_ _ EQ)|apply (builtResults_length w config_ _ EQ)|].
    intros i eq Hi. rewrite (builtResults_eq_error w config_ _ i eq Hi).
    pose proof (builtResults_eq_error w config_ r i eq Hi) as E. rewrite E.
    destruct (eqCalibrated eq); [done|]. f_equal. by apply default_kept.
Qed.

(** X7.  A build that follows a build in the same world, both returning,
    leaves the model and the four error vectors as the first left them. *)
Theorem build_twice_same_results (w : World) (config_ : CrossAssetModelData)
    (st st1 st2 : Builder) :
  buildModel w config_ st = (Ok tt, st1) ->
  buildModel w config_ st1 = (Ok tt, st2) ->
  results st2 = results st1.
Proof.
  intros H1 H2.
  rewrite (buildModel_results w config_ st1 st2 H2).
  rewrite (buildModel_results w config_ st st1 H1).
  apply builtResults_idempotent.
Qed.

Lemma build_twice_same_results_witness :
  let st1 := snd (buildModel goodWorld goodConfig emptyBuilder) in
  results (snd (buildModel goodWorld goodConfig st1)) = results st1.
Proof.
  cbv zeta.
  apply (build_twice_same_results goodWorld goodConfig emptyBuilder
           (snd (buildModel goodWorld goodConfig emptyBuilder))).
  - vm_compute. reflexivity.
  - vm_compute. reflexivity.
Defined.

(** * What a build leaves alone, and the sub-builders it makes *)

(** X13.  A build asks the market observer nothing and registers the
    builder nowhere: in every outcome the observer and the registrations
    are as they were, and the log has grown by calls that are neither
    observer calls nor registrations. *)
Theorem build_keeps_observer (w : World) (config_ : CrossAssetModelData) (st : Builder) :
  marketObserver_ (snd (buildModel w config_ st)) = marketObserver_ st
  /\ observables_ (snd (buildModel w config_ st)) = observables_ st
  /\ exists tr,
       calls (snd (buildModel w config_ st)) = calls st ++ tr
       /\ Forall (fun c => isObserverCall c = false /\ isRegistration c = false) tr.
Proof.
  split; [apply (buildModel_observer w config_ st)|]. split.
  - assert (H : preserves (unchanged observables_) (buildModel w config_))
      by (frame_steps; reflexivity).
    apply (H st).
  - apply (buildModel_calls_grow w config_ st).
Qed.

Section SubBuilders.

Variable w : World.
Variable config_ : CrossAssetModelData.












End SubBuilders.



(** * What an access returns after a rebuild *)

(** X15.  An access to the model on a stale builder that returns has
    rebuilt: it returns the joint model made in this access, in a state
    whose rate errors are those of the new rate builders, not the cached
    ones. *)
Theorem stale_access_rebuilds (w : World) (config_ : CrossAssetModelData) (st st' : Builder)
    (m : option CrossAssetModel) :
  stale w st = true ->
  model w config_ st = (Ok m, st') ->
  m = model_ (results st')
  /\ m = Some {| parametrizations := allParametrizations w config_;
                 correlation :=
                   correlationMatrix w (currencies config_) (infIndices config_) []
                     (eqNames config_);
                 calibrated :=
                   routinesFrom fxCalibrated fxRoutine 0 (fxConfigs config_)
                     ++ routinesFrom eqCalibrated eqRoutine 0 (eqConfigs config_)
                     ++ routinesFrom infCalibrated infRoutine 0 (infConfigs config_) |}
  /\ swaptionCalibrationErrors_ (results st')
     = imap (fun i _ => builderError w i) (irConfigs config_)
  /\ exists tr, calls st' = calls st ++ tr /\ Exists (fun c => isModelConstruction c = true) tr.
Proof.
  intros Hstale. unfold model. rewrite accessor_run, performCalculations_run, Hstale.
  destruct (rebuild_run w config_ (logged (observerQuery w st) st))
    as (s1 & Hc1 & Hres1 & Hsub1 & Hflag1 & Hbuild).
  destruct (buildModel w config_ s1) as [[[]|e] s2] eqn:Hrun.
  2:{ rewrite Hbuild. discriminate. }
  destruct Hbuild as (s3 & Hreb & Hc3 & Hw3). rewrite Hreb. intros [= <- <-].
  injection Hw3 as Hres3 Hsub3 Hobs3.
  pose proof (buildModel_results w config_ s1 s2 Hrun) as Hres.
  destruct (buildModel_returns w config_ s1 s2 Hrun) as (Hc2 & _).
  split; [done|]. rewrite Hres3, Hres.
  split; [apply builtResults_model|]. split; [apply builtResults_rate_errors|].
  exists (observerQuery w st ++ [HasUpdated true] ++ map UnregisterWith (subBuilders_ st)
            ++ buildCalls w config_ ++ map RegisterWith (subBuilders_ s2)).
  split.
  - rewrite Hc3, Hc2, Hc1. simpl. by rewrite <- !app_assoc.
  - apply Exists_app. right. apply Exists_app. right. apply Exists_app. right.
    apply Exists_app. left.
    unfold buildCalls, cascadeCalls, modelCalls.
    apply Exists_app. right. apply Exists_app. right. apply Exists_app. left.
    by constructor.
Qed.

Lemma stale_access_rebuilds_witness :
  swaptionCalibrationErrors_
    (results (snd (model (exampleWorld 1 0.25%float) goodConfig builtBuilder)))
  = [0.125%float; 0.125%float].
Proof.
  destruct (stale_access_rebuilds (exampleWorld 1 0.25%float) goodConfig builtBuilder
              (snd (model (exampleWorld 1 0.25%float) goodConfig builtBuilder))
              (model_ (results (snd (model (exampleWorld 1 0.25%float) goodConfig builtBuilder)))))
    as (_ & _ & Hir & _).
  - vm_compute. reflexivity.
  - vm_compute. reflexivity.
  - rewrite Hir. reflexivity.
Defined.

(** * ScenarioSimMarketParameters: the tenor vectors by key

    From [orea/scenario/scenariosimmarketparameters.cpp] and the class
    declaration that follows it: the maps from a key (a curve name, a
    currency; the empty key holds the default) to a vector of periods, their
    getters with the fall-back to the default key, their setters, the
    [has...] inspectors and the default constructor. *)

Module ScenarioSimMarketParameters.

(** [QL_FAIL("no period vector for key ... found.")] *)
Inductive Failure := NoPeriodVector (key : string).

Inductive Outcome (A : Type) :=
| Returns (a : A)
| Fails (e : Failure).
Arguments Returns {A} a.
Arguments Fails {A} e.

Section Tenors.

(** [QuantLib::Period]. *)
Variable Period : Type.

(** [map<string, vector<Period>>]. *)
Abbreviation TenorMap := (gmap string (list Period)).

(** The key itself, else the default key, else a failure. *)
Definition returnTenors (m : TenorMap) (k : string) : Outcome (list Period) :=
  if bool_decide (is_Some (m !! k)) then
    match m !! k with Some v => Returns v | None => Fails (NoPeriodVector k) end
  else if bool_decide (is_Some (m !! ""%string)) then
    match m !! ""%string with Some v => Returns v | None => Fails (NoPeriodVector k) end
  else Fails (NoPeriodVector k).

(** The members the functions at hand read and write. *)
Record t := {
  yieldCurveTenors_ : TenorMap;
  capFloorVolExpiries_ : TenorMap;
  defaultTenors_ : TenorMap;
  equityDividendTenors_ : TenorMap;
  equityForecastTenors_ : TenorMap;
  equityForecastCurveTenors_ : TenorMap;
  zeroInflationTenors_ : TenorMap;
  yoyInflationTenors_ : TenorMap }.

(** The default constructor: [m[""];] makes an empty default vector. *)
Definition ScenarioSimMarketParameters : t :=
  {| yieldCurveTenors_ := ∅;
     capFloorVolExpiries_ := {[ ""%string := [] ]};
     defaultTenors_ := {[ ""%string := [] ]};
     equityDividendTenors_ := {[ ""%string := [] ]};
     equityForecastTenors_ := {[ ""%string := [] ]};
     equityForecastCurveTenors_ := ∅;
     zeroInflationTenors_ := {[ ""%string := [] ]};
     yoyInflationTenors_ := {[ ""%string := [] ]} |}.

Definition yieldCurveTenors (s : t) (key : string) := returnTenors (yieldCurveTenors_ s) key.
Definition capFloorVolExpiries (s : t) (key : string) :=
  returnTenors (capFloorVolExpiries_ s) key.
Definition defaultTenors (s : t) (key : string) := returnTenors (defaultTenors_ s) key.
Definition equityDividendTenors (s : t) (key : string) :=
  returnTenors (equityDividendTenors_ s) key.
Definition equityForecastTenors (s : t) (key : string) :=
  returnTenors (equityForecastCurveTenors_ s) key.

Definition hasYieldCurveTenors (s : t) (key : string) : bool :=
  bool_decide (is_Some (yieldCurveTenors_ s !! key)).
Definition hasCapFloorVolExpiries (s : t) (key : string) : bool :=
  bool_decide (is_Some (capFloorVolExpiries_ s !! key)).
Definition hasDefaultTenors (s : t) (key : string) : bool :=
  bool_decide (is_Some (defaultTenors_ s !! key)).
Definition hasEquityDividendTenors (s : t) (key : string) : bool :=
  bool_decide (is_Some (equityDividendTenors_ s !! key)).
Definition hasEquityForecastTenors (s : t) (key : string) : bool :=
  bool_decide (is_Some (equityForecastTenors_ s !! key)).

Definition setYieldCurveTenors (key : string) (p : list Period) (s : t) : t :=
  {| yieldCurveTenors_ := <[key:=p]> (yieldCurveTenors_ s);
     capFloorVolExpiries_ := capFloorVolExpiries_ s;
     defaultTenors_ := defaultTenors_ s;
     equityDividendTenors_ := equityDividendTenors_ s;
     equityForecastTenors_ := equityForecastTenors_ s;
     equityForecastCurveTenors_ := equityForecastCurveTenors_ s;
     zeroInflationTenors_ := zeroInflationTenors_ s;
     yoyInflationTenors_ := yoyInflationTenors_ s |}.

Definition setCapFloorVolExpiries (key : string) (p : list Period) (s : t) : t :=
  {| yieldCurveTenors_ := yieldCurveTenors_ s;
     capFloorVolExpiries_ := <[key:=p]> (capFloorVolExpiries_ s);
     defaultTenors_ := defaultTenors_ s;
     equityDividendTenors_ := equityDividendTenors_ s;
     equityForecastTenors_ := equityForecastTenors_ s;
     equityForecastCurveTenors_ := equityForecastCurveTenors_ s;
     zeroInflationTenors_ := zeroInflationTenors_ s;
     yoyInflationTenors_ := yoyInflationTenors_ s |}.

Definition setDefaultTenors (key : string) (p : list Period) (s : t) : t :=
  {| yieldCurveTenors_ := yieldCurveTenors_ s;
     capFloorVolExpiries_ := capFloorVolExpiries_ s;
     defaultTenors_ := <[key:=p]> (defaultTenors_ s);
     equityDividendTenors_ := equityDividendTenors_ s;
     equityForecastTenors_ := equityForecastTenors_ s;
     equityForecastCurveTenors_ := equityForecastCurveTenors_ s;
     zeroInflationTenors_ := zeroInflationTenors_ s;
     yoyInflationTenors_ := yoyInflationTenors_ s |}.

Definition setEquityDividendTenors (key : string) (p : list Period) (s : t) : t :=
  {| yieldCurveTenors_ := yieldCurveTenors_ s;
     capFloorVolExpiries_ := capFloorVolExpiries_ s;
     defaultTenors_ := defaultTenors_ s;
     equityDividendTenors_ := <[key:=p]> (equityDividendTenors_ s);
     equityForecastTenors_ := equityForecastTenors_ s;
     equityForecastCurveTenors_ := equityForecastCurveTenors_ s;
     zeroInflationTenors_ := zeroInflationTenors_ s;
     yoyInflationTenors_ := yoyInflationTenors_ s |}.

Definition setEquityForecastTenors (key : string) (p : list Period) (s : t) : t :=
  {| yieldCurveTenors_ := yieldCurveTenors_ s;
     capFloorVolExpiries_ := capFloorVolExpiries_ s;
     defaultTenors_ := defaultTenors_ s;
     equityDividendTenors_ := equityDividendTenors_ s;
     equityForecastTenors_ := <[key:=p]> (equityForecastTenors_ s);
     equityForecastCurveTenors_ := equityForecastCurveTenors_ s;
     zeroInflationTenors_ := zeroInflationTenors_ s;
     yoyInflationTenors_ := yoyInflationTenors_ s |}.

(** A call of one of the five setters. *)
Inductive Setter :=
| SetYieldCurveTenors (key : string) (p : list Period)
| SetCapFloorVolExpiries (key : string) (p : list Period)
| SetDefaultTenors (key : string) (p : list Period)
| SetEquityDividendTenors (key : string) (p : list Period)
| SetEquityForecastTenors (key : string) (p : list Period).

Definition runSetter (s : t) (c : Setter) : t :=
  match c with
  | SetYieldCurveTenors k p => setYieldCurveTenors k p s
  | SetCapFloorVolExpiries k p => setCapFloorVolExpiries k p s
  | SetDefaultTenors k p => setDefaultTenors k p s
  | SetEquityDividendTenors k p => setEquityDividendTenors k p s
  | SetEquityForecastTenors k p => setEquityForecastTenors k p s
  end.

(** The object after a sequence of setter calls. *)
Definition runSetters (s : t) (cs : list Setter) : t := foldl runSetter s cs.

Lemma returnTenors_lookup (m : TenorMap) (k : string) :
  returnTenors m k =
  match m !! k with
  | Some v => Returns v
  | None =>
      match m !! ""%string with
      | Some v => Returns v
      | None => Fails (NoPeriodVector k)
      end
  end.
Proof.
  unfold returnTenors. destruct (m !! k) as [v|] eqn:Hk.
  - by rewrite bool_decide_eq_true_2.
  - rewrite bool_decide_eq_false_2 by (by intros [? ?]).
    destruct (m !! ""%string) as [v|] eqn:Hd.
    + by rewrite bool_decide_eq_true_2.
    + by rewrite bool_decide_eq_false_2 by (by intros [? ?]).
Qed.

(** A value stored under a key is what the getter returns for it; for
    another key the getter returns what it did, unless that key has no
    vector of its own and the value was stored as the default. *)
Lemma returnTenors_insert (m : TenorMap) (k k' : string) (p : list Period) :
  returnTenors (<[k:=p]> m) k' =
  if decide (k' = k) then Returns p
  else if bool_decide (is_Some (m !! k')) then returnTenors m k'
  else if decide (k = ""%string) then Returns p
  else returnTenors m k'.
Proof.
  rewrite !returnTenors_lookup.
  destruct (decide (k' = k)) as [->|Hne].
  - by rewrite lookup_insert_eq.
  - rewrite lookup_insert_ne by done.
    destruct (m !! k') as [v|] eqn:Hk'.
    + by rewrite bool_decide_eq_true_2.
    + rewrite bool_decide_eq_false_2 by (by intros [? ?]).
      destruct (decide (k = ""%string)) as [->|Hd].
      * by rewrite lookup_insert_eq.
      * by rewrite lookup_insert_ne.
Qed.

End Tenors.

(** X8.  Setter then getter.  For yield curve tenors, cap/floor expiries, default
    tenors and equity dividend tenors the stored vector comes back for its
    key; another key keeps its answer, except that a key without a vector of
    its own follows a newly stored default.  For equity forecast tenors the
    setter writes [equityForecastTenors_] and the getter reads
    [equityForecastCurveTenors_]: the getter answers as before. *)
Theorem tenors_set_get (Period : Type) (s : t Period) (k k' : string) (p : list Period) :
  (yieldCurveTenors Period (setYieldCurveTenors Period k p s) k' =
     if decide (k' = k) then Returns p
     else if hasYieldCurveTenors Period s k' then yieldCurveTenors Period s k'
     else if decide (k = ""%string) then Returns p
     else yieldCurveTenors Period s k')
  /\ (capFloorVolExpiries Period (setCapFloorVolExpiries Period k p s) k' =
        if decide (k' = k) then Returns p
        else if hasCapFloorVolExpiries Period s k' then capFloorVolExpiries Period s k'
        else if decide (k = ""%string) then Returns p
        else capFloorVolExpiries Period s k')
  /\ (defaultTenors Period (setDefaultTenors Period k p s) k' =
        if decide (k' = k) then Returns p
        else if hasDefaultTenors Period s k' then defaultTenors Period s k'
        else if decide (k = ""%string) then Returns p
        else defaultTenors Period s k')
  /\ (equityDividendTenors Period (setEquityDividendTenors Period k p s) k' =
        if decide (k' = k) then Returns p
        else if hasEquityDividendTenors Period s k' then equityDividendTenors Period s k'
        else if decide (k = ""%string) then Returns p
        else equityDividendTenors Period s k')
  /\ equityForecastTenors Period (setEquityForecastTenors Period k p s) k'
     = equityForecastTenors Period s k'.
Proof.
  unfold yieldCurveTenors, capFloorVolExpiries, defaultTenors, equityDividendTenors,
    hasYieldCurveTenors, hasCapFloorVolExpiries, hasDefaultTenors, hasEquityDividendTenors.
  split; [apply returnTenors_insert|].
  split; [apply returnTenors_insert|].
  split; [apply returnTenors_insert|].
  split; [apply returnTenors_insert|].
  reflexivity.
Qed.

Section AfterSetters.

Variable Period : Type.

(** The three maps the constructor gives a default vector keep one. *)
Definition hasDefaults (s : t Period) : Prop :=
  is_Some (capFloorVolExpiries_ Period s !! ""%string)
  /\ is_Some (defaultTenors_ Period s !! ""%string)
  /\ is_Some (equityDividendTenors_ Period s !! ""%string).

Lemma hasDefaults_runSetter s c : hasDefaults s -> hasDefaults (runSetter Period s c).
Proof.
  intros (Hc & Hd & He).
  destruct c as [k p|k p|k p|k p|k p]; (split; [|split]); simpl; try done;
    (destruct (decide (k = ""%string)) as [->|Hne];
     [by rewrite lookup_insert_eq|by rewrite lookup_insert_ne]).
Qed.

Lemma hasDefaults_runSetters cs : forall s, hasDefaults s -> hasDefaults (runSetters Period s cs).
Proof.
  induction cs as [|c cs IH]; intros s H; [done|].
  apply IH. by apply hasDefaults_runSetter.
Qed.

Lemma returnTenors_default (m : gmap string (list Period)) (k : string) :
  is_Some (m !! ""%string) -> exists v, returnTenors Period m k = Returns v.
Proof.
  intros [d Hd]. rewrite returnTenors_lookup, Hd. destruct (m !! k); eauto.
Qed.

(** The yield curve keys stored by a sequence of setter calls. *)
Definition storesYieldCurveTenors (key : string) (c : Setter Period) : bool :=
  match c with
  | SetYieldCurveTenors _ k _ => bool_decide (k = key)
  | _ => false
  end.

Lemma yieldCurveTenors_runSetters cs : forall s key,
  yieldCurveTenors_ Period (runSetters Period s cs) !! key = None
  <-> yieldCurveTenors_ Period s !! key = None
      /\ existsb (storesYieldCurveTenors key) cs = false.
Proof.
  induction cs as [|c cs IH]; intros s key; simpl; [tauto|].
  rewrite IH. rewrite orb_false_iff.
  destruct c as [k p|k p|k p|k p|k p]; simpl; try tauto.
  destruct (decide (k = key)) as [->|Hne].
  - rewrite lookup_insert_eq, bool_decide_eq_true_2 by done. split; [intros [? _]; done|].
    intros (_ & ? & _). done.
  - rewrite lookup_insert_ne, bool_decide_eq_false_2 by done. tauto.
Qed.

End AfterSetters.

(** X9.  On an object made by the default constructor and any sequence of
    setter calls, the getters of cap/floor expiries, default tenors and
    equity dividend tenors return for every key.  The getter of yield curve
    tenors fails for a key exactly when neither that key nor the default
    key has been stored: on the fresh object it fails for every key. *)
Theorem tenors_after_setters (Period : Type) (cs : list (Setter Period)) (key : string) :
  let s := runSetters Period (ScenarioSimMarketParameters Period) cs in
  (exists v, capFloorVolExpiries Period s key = Returns v)
  /\ (exists v, defaultTenors Period s key = Returns v)
  /\ (exists v, equityDividendTenors Period s key = Returns v)
  /\ (yieldCurveTenors Period s key = Fails (NoPeriodVector key)
      <-> existsb (storesYieldCurveTenors Period key) cs = false
          /\ existsb (storesYieldCurveTenors Period ""%string) cs = false)
  /\ yieldCurveTenors Period (ScenarioSimMarketParameters Period) key
     = Fails (NoPeriodVector key).
Proof.
  cbv zeta.
  assert (H0 : hasDefaults Period (ScenarioSimMarketParameters Period)).
  { repeat split; simpl; by rewrite lookup_singleton_eq. }
  destruct (hasDefaults_runSetters Period cs _ H0) as (Hc & Hd & He).
  split; [by apply returnTenors_default|]. split; [by apply returnTenors_default|].
  split; [by apply returnTenors_default|]. split; [|done].
  unfold yieldCurveTenors. rewrite returnTenors_lookup.
  pose proof (yieldCurveTenors_runSetters Period cs (ScenarioSimMarketParameters Period) key)
    as Hk.
  pose proof (yieldCurveTenors_runSetters Period cs (ScenarioSimMarketParameters Period)
                ""%string) as Hdef.
  simpl in Hk, Hdef. rewrite lookup_empty in Hk, Hdef.
  destruct (yieldCurveTenors_ Period _ !! key) as [v|] eqn:Ek.
  { split; [done|]. intros [H1 _]. destruct Hk as [_ Hk]. by specialize (Hk (conj eq_refl H1)). }
  destruct (yieldCurveTenors_ Period _ !! ""%string) as [v|] eqn:Ed.
  { split; [done|]. intros [_ H2]. destruct Hdef as [_ Hdef].
    by specialize (Hdef (conj eq_refl H2)). }
  split; [|done]. intros _. split; [by apply Hk|by apply Hdef].
Qed.

End ScenarioSimMarketParameters.

(** * TrsUnderlyingBuilderFactory: the registry of builders by trade type *)

Module TrsUnderlyingBuilderFactory.

Inductive Failure :=
| NoBuilderFound (tradeType : string)
| BuilderAlreadyExists (tradeType : string).

Section Factory.

(** [boost::shared_ptr<TrsUnderlyingBuilder>]. *)
Variable TrsUnderlyingBuilder : Type.

(** The member [builders_]. *)
Abbreviation Builders := (gmap string TrsUnderlyingBuilder).

(** [getBuilder]: the builder found, or the failure of the requirement. *)
Definition getBuilder (builders_ : Builders) (tradeType : string)
    : Failure + TrsUnderlyingBuilder :=
  match builders_ !! tradeType with
  | Some b => inr b
  | None => inl (NoBuilderFound tradeType)
  end.

(** [std::map::insert]: stores the pair when the key is new and tells
    whether it did; an existing entry is left as it is. *)
Definition map_insert (tradeType : string) (builder : TrsUnderlyingBuilder)
    (builders_ : Builders) : Builders * bool :=
  match builders_ !! tradeType with
  | Some _ => (builders_, false)
  | None => (<[tradeType:=builder]> builders_, true)
  end.

(** [addBuilder]: the map after the call, and the failure of the
    requirement if it is not met. *)
Definition addBuilder (tradeType : string) (builder : TrsUnderlyingBuilder)
    (allowOverwrite : bool) (builders_ : Builders) : Builders * option Failure :=
  let '(builders', inserted) := map_insert tradeType builder builders_ in
  (builders', if inserted || allowOverwrite then None else Some (BuilderAlreadyExists tradeType)).

End Factory.

(** X10.  What [addBuilder] does to the registry.  It fails exactly when the trade
    type has a builder already and overwriting is not allowed.  In every
    case a trade type that had a builder keeps that builder - also when
    overwriting is allowed - and a trade type that had none gets the new
    one; the other trade types are left as they were. *)
Theorem addBuilder_getBuilder (TrsUnderlyingBuilder : Type)
    (builders_ : gmap string TrsUnderlyingBuilder) (tradeType other : string)
    (builder : TrsUnderlyingBuilder) (allowOverwrite : bool) :
  let after := addBuilder TrsUnderlyingBuilder tradeType builder allowOverwrite builders_ in
  (snd after = None <-> builders_ !! tradeType = None \/ allowOverwrite = true)
  /\ (snd after <> None -> snd after = Some (BuilderAlreadyExists tradeType)
                           /\ fst after = builders_)
  /\ getBuilder TrsUnderlyingBuilder (fst after) tradeType
     = inr (default builder (builders_ !! tradeType))
  /\ (other <> tradeType ->
      getBuilder TrsUnderlyingBuilder (fst after) other
      = getBuilder TrsUnderlyingBuilder builders_ other)
  /\ (getBuilder TrsUnderlyingBuilder builders_ other = inl (NoBuilderFound other)
      <-> builders_ !! other = None).
Proof.
  cbv zeta. unfold addBuilder, map_insert, getBuilder.
  destruct (builders_ !! tradeType) as [b0|] eqn:Hk; simpl.
  - rewrite Hk. split; [|split; [|split; [|split]]].
    + destruct allowOverwrite; split; intros H; try done; try (by right).
      destruct H; done.
    + destruct allowOverwrite; done.
    + done.
    + done.
    + destruct (builders_ !! other); split; done.
  - rewrite lookup_insert_eq. split; [|split; [|split; [|split]]].
    + split; [by left|done].
    + done.
    + done.
    + intros Hne. by rewrite lookup_insert_ne.
    + destruct (builders_ !! other); split; done.
Qed.

End TrsUnderlyingBuilderFactory.

(** * Bond::build: one instrument from the legs of a bond trade

    From the bond trade that follows the builder in the same source file.
    The engine factory, the reference data, the parsers, the leg builders
    and QuantLib's bond classes are collaborators: a call to one of them
    may throw, and what they compute is left to the [World]. *)

Module Bond.

(** The part of a leg's data that [build] reads. *)
Module LegData.
Record t := {
  isPayer : bool;
  currency : string;
  legType : string }.
End LegData.

(** The part of the bond data that [build] reads. *)
Module BondData.
Record t := {
  settlementDays : string;
  calendar : string;
  issueDate : string;
  bondNotional : Real;
  coupons : list LegData.t;
  creditCurveId : string;
  securityId : string;
  referenceCurveId : string;
  zeroBond : bool;
  faceAmount : Real;
  maturityDate : string;
  currency : string }.
End BondData.

Inductive Call :=
| EngineBuilder (tradeType : string)
| PopulateFromBondReferenceData (securityId : string)
| ParseDate (s : string)
| ParseCalendar (s : string)
| LexicalCastNatural (s : string)
| NewZeroCouponBond
| LegBuilder (legType : string)
| BuildLeg (i : nat)
| NewBond (legs : nat)
| ParseCurrency (s : string)
| Engine (currency creditCurveId securityId referenceCurveId : string).

Inductive Failure :=
| SettlementDaysNotGiven
| LegsPayReceiveFlag
| LegCurrency (i : nat)
| NoBuilderFound
| Thrown (c : Call).

Record World := {
  raises : Call -> bool;
  (** the bond data once the reference data has been merged into it *)
  populated : BondData.t -> BondData.t;
  (** whether the engine builder registered for "Bond" is a bond engine builder *)
  isBondEngineBuilder : bool;
  (** the date of the last cashflow of the bond and its current notional *)
  lastCashflowDate : Z;
  currentNotional : Real }.

(** The members of the trade that [build] writes. *)
Record Trade := {
  bondData_ : BondData.t;
  currency_ : string;
  instrumentMultiplier : option Real;
  npvCurrency_ : string;
  maturity_ : Z;
  notional_ : Real;
  notionalCurrency_ : string;
  legCurrencies_ : list string;
  legPayers_ : list bool }.

(** A step returns a value or throws. *)
Definition Outcome (A : Type) : Type := Failure + A.

Definition bind {A B} (m : Outcome A) (k : A -> Outcome B) : Outcome B :=
  match m with
  | inl e => inl e
  | inr a => k a
  end.

Declare Scope bond_scope.
Delimit Scope bond_scope with bond.
Notation "x <- m ;; k" := (bind m (fun x => k))
  (at level 20, m at level 99, k at level 200, only parsing) : bond_scope.
Notation "m ;; k" := (bind m (fun _ => k))
  (at level 100, k at level 200, only parsing, right associativity) : bond_scope.
Local Open Scope bond_scope.

Definition QL_REQUIRE (condition : bool) (e : Failure) : Outcome unit :=
  if condition then inr tt else inl e.

Section Build.

Variable w : World.

Definition call (c : Call) : Outcome unit :=
  if raises w c then inl (Thrown c) else inr tt.

(** [BondData::populateFromBondReferenceData]. *)
Definition populateFromBondReferenceData (d : BondData.t) : Outcome BondData.t :=
  call (PopulateFromBondReferenceData (BondData.securityId d)) ;;
  let d' := populated w d in
  QL_REQUIRE (negb (String.eqb (BondData.settlementDays d') "")) SettlementDaysNotGiven ;;
  inr d'.

(** The loop over the coupons of a coupon bond, from leg [i] on: the
    currency member once the loop has run. *)
Fixpoint buildLegs (firstLegIsPayer : bool) (i : nat) (legs : list LegData.t)
    (currency_ : string) : Outcome string :=
  match legs with
  | [] => inr currency_
  | leg :: rest =>
      QL_REQUIRE (Bool.eqb (LegData.isPayer leg) firstLegIsPayer) LegsPayReceiveFlag ;;
      currency_ <- (if Nat.eqb i 0 then inr (LegData.currency leg)
                    else QL_REQUIRE (String.eqb currency_ (LegData.currency leg))
                                    (LegCurrency i) ;;
                         inr currency_) ;;
      call (LegBuilder (LegData.legType leg)) ;;
      call (BuildLeg i) ;;
      buildLegs firstLegIsPayer (S i) rest currency_
  end.

(** [Bond::build]: the trade when it returns. *)
Definition build (t : Trade) : Outcome Trade :=
  call (EngineBuilder "Bond") ;;
  d <- populateFromBondReferenceData (bondData_ t) ;;
  call (ParseDate (BondData.issueDate d)) ;;
  call (ParseCalendar (BondData.calendar d)) ;;
  call (LexicalCastNatural (BondData.settlementDays d)) ;;
  let firstLegIsPayer :=
    match BondData.coupons d with
    | [] => false
    | leg :: _ => LegData.isPayer leg
    end in
  let mult := (BondData.bondNotional d * (if firstLegIsPayer then -1 else 1))%float in
  currency_ <- (if BondData.zeroBond d then
                  call (ParseDate (BondData.maturityDate d)) ;;
                  call NewZeroCouponBond ;;
                  inr (BondData.currency d)
                else
                  c <- buildLegs firstLegIsPayer 0 (BondData.coupons d) (currency_ t) ;;
                  call (NewBond (length (BondData.coupons d))) ;;
                  inr c) ;;
  call (ParseCurrency currency_) ;;
  QL_REQUIRE (isBondEngineBuilder w) NoBuilderFound ;;
  call (Engine currency_ (BondData.creditCurveId d) (BondData.securityId d)
               (BondData.referenceCurveId d)) ;;
  inr {| bondData_ := d;
         currency_ := currency_;
         instrumentMultiplier := Some mult;
         npvCurrency_ := currency_;
         maturity_ := lastCashflowDate w;
         notional_ := currentNotional w;
         notionalCurrency_ := currency_;
         legCurrencies_ := [currency_];
         legPayers_ := [firstLegIsPayer] |}.

(** A bind that returns has run both halves. *)
Lemma bind_inr {A B} (m : Outcome A) (k : A -> Outcome B) b :
  bind m k = inr b -> exists a, m = inr a /\ k a = inr b.
Proof. destruct m as [e|a]; [done|]. intros H. by exists a. Qed.

Lemma QL_REQUIRE_inr c e u : QL_REQUIRE c e = inr u -> c = true.
Proof. by destruct c. Qed.

(** When the loop returns, every leg from [i] on has the flag of the first
    leg; from leg 1 on, every leg has the currency the member held; the
    member ends as the currency of leg 0 when the loop starts there. *)
Lemma buildLegs_returns firstLegIsPayer legs : forall i currency_ c,
  buildLegs firstLegIsPayer i legs currency_ = inr c ->
  Forall (fun leg => LegData.isPayer leg = firstLegIsPayer) legs
  /\ match i, legs with
     | 0, leg :: rest =>
         c = LegData.currency leg /\ Forall (fun l => LegData.currency l = c) rest
     | 0, [] => c = currency_
     | S _, _ => c = currency_ /\ Forall (fun l => LegData.currency l = c) legs
     end.
Proof.
  induction legs as [|leg rest IH]; intros i currency_ c Hrun; simpl in Hrun.
  - injection Hrun as <-. split; [constructor|]. by destruct i.
  - apply bind_inr in Hrun as ([] & Hflag & Hrun).
    apply QL_REQUIRE_inr, Bool.eqb_prop in Hflag.
    apply bind_inr in Hrun as (c' & Hcur & Hrun).
    apply bind_inr in Hrun as ([] & _ & Hrun).
    apply bind_inr in Hrun as ([] & _ & Hrun).
    destruct (IH (S i) c' c Hrun) as (Hflags & -> & Hcurs).
    split; [by constructor|].
    destruct i as [|i]; simpl in Hcur.
    + injection Hcur as <-. done.
    + apply bind_inr in Hcur as ([] & Heq & Hcur). injection Hcur as <-.
      apply QL_REQUIRE_inr, String.eqb_eq in Heq. split; [done|]. by constructor.
Qed.

End Build.

(** X11.  A coupon bond that builds has legs that all pay or all receive and are
    all in one currency, that of the first leg; this currency is the NPV
    currency, the notional currency and the currency of the single leg the
    trade reports, whose payer flag is the common flag of the legs.  A zero
    bond takes the currency of its bond data, and the flag of its first
    coupon leg if it has one. *)
Theorem build_legs_agree (w : World) (t t' : Trade) :
  build w t = inr t' ->
  let d := populated w (bondData_ t) in
  bondData_ t' = d
  /\ npvCurrency_ t' = currency_ t' /\ notionalCurrency_ t' = currency_ t'
  /\ legCurrencies_ t' = [currency_ t']
  /\ legPayers_ t'
     = [match BondData.coupons d with [] => false | leg :: _ => LegData.isPayer leg end]
  /\ (BondData.zeroBond d = true -> currency_ t' = BondData.currency d)
  /\ (BondData.zeroBond d = false ->
      Forall (fun leg => [LegData.isPayer leg] = legPayers_ t'
                         /\ LegData.currency leg = currency_ t')
             (BondData.coupons d)
      /\ (BondData.coupons d = [] -> currency_ t' = currency_ t)).
Proof.
  unfold build. intros Hrun. cbv zeta.
  apply bind_inr in Hrun as ([] & _ & Hrun).
  apply bind_inr in Hrun as (d & Hpop & Hrun).
  assert (d = populated w (bondData_ t)) as ->.
  { unfold populateFromBondReferenceData in Hpop.
    apply bind_inr in Hpop as ([] & _ & Hpop).
    apply bind_inr in Hpop as ([] & _ & Hpop). by injection Hpop. }
  set (d := populated w (bondData_ t)) in *.
  apply bind_inr in Hrun as ([] & _ & Hrun).
  apply bind_inr in Hrun as ([] & _ & Hrun).
  apply bind_inr in Hrun as ([] & _ & Hrun).
  cbv zeta in Hrun.
  apply bind_inr in Hrun as (c & Hcur & Hrun).
  apply bind_inr in Hrun as ([] & _ & Hrun).
  apply bind_inr in Hrun as ([] & _ & Hrun).
  apply bind_inr in Hrun as ([] & _ & Hrun).
  injection Hrun as <-. simpl.
  split; [done|]. split; [done|]. split; [done|]. split; [done|]. split; [done|].
  destruct (BondData.zeroBond d).
  - apply bind_inr in Hcur as ([] & _ & Hcur).
    apply bind_inr in Hcur as ([] & _ & Hcur). injection Hcur as <-.
    split; [done|]. intros ?; done.
  - split; [intros ?; done|]. intros _.
    apply bind_inr in Hcur as (c' & Hlegs & Hcur).
    apply bind_inr in Hcur as ([] & _ & Hcur). injection Hcur as <-.
    apply buildLegs_returns in Hlegs as [Hflags Hcurs].
    destruct (BondData.coupons d) as [|leg rest]; [done|].
    destruct Hcurs as [-> Hcurs]. split; [|done].
    apply Forall_cons. split.
    + split; [done|done].
    + apply Forall_cons in Hflags as [Hleg Hflags].
      rewrite Forall_forall in Hflags, Hcurs. apply Forall_forall.
      intros l Hin. split; [|by apply Hcurs].
      by rewrite (Hflags l Hin).
Qed.

(** Two receiver legs in EUR. *)
Definition exampleWorld : World :=
  {| raises := fun _ => false;
     populated := fun d => d;
     isBondEngineBuilder := true;
     lastCashflowDate := 0;
     currentNotional := 100%float |}.

Definition exampleTrade : Trade :=
  {| bondData_ :=
       {| BondData.settlementDays := "2"; BondData.calendar := "TARGET";
          BondData.issueDate := "2016-02-05";
          BondData.bondNotional := 100%float;
          BondData.coupons :=
            [ {| LegData.isPayer := false; LegData.currency := "EUR";
                 LegData.legType := "Fixed" |};
              {| LegData.isPayer := false; LegData.currency := "EUR";
                 LegData.legType := "Cashflow" |} ];
          BondData.creditCurveId := "CPTY_A"; BondData.securityId := "SECURITY_1";
          BondData.referenceCurveId := "EUR-EURIBOR-6M";
          BondData.zeroBond := false; BondData.faceAmount := 100%float;
          BondData.maturityDate := ""; BondData.currency := "" |};
     currency_ := "";
     instrumentMultiplier := None;
     npvCurrency_ := "";
     maturity_ := 0;
     notional_ := 0%float;
     notionalCurrency_ := "";
     legCurrencies_ := [];
     legPayers_ := [] |}.

Definition builtTrade : Trade :=
  match build exampleWorld exampleTrade with
  | inr t => t
  | inl _ => exampleTrade
  end.

Lemma build_legs_agree_witness :
  npvCurrency_ builtTrade = "EUR"
  /\ Forall (fun leg => [LegData.isPayer leg] = [false] /\ LegData.currency leg = "EUR")
            (BondData.coupons (bondData_ exampleTrade)).
Proof.
  destruct (build_legs_agree exampleWorld exampleTrade builtTrade)
    as (_ & Hnpv & _ & _ & _ & _ & Hlegs).
  - vm_compute. reflexivity.
  - split; [rewrite Hnpv; reflexivity|].
    destruct (Hlegs eq_refl) as [H _]. exact H.
Defined.

End Bond.
